(** * vite-plugin-svelte: prebundling plugin and vite preprocessors

    A shallow embedding of

    - [packages/vite-plugin-svelte/src/preprocess.js]
      ([viteScript], [viteStyle], [isResolvedConfig]) and
    - [packages/vite-plugin-svelte/src/utils/esbuild.ts]
      ([duration], [humanDuration], [compileSvelte] and the closures of
      [esbuildSveltePlugin]: [logProgress], [logStats] and the
      [onStart] / [onLoad] / [onEnd] handlers)

    together with the properties of these functions that the specification
    talks about.

    Conventions.
    - JavaScript strings are [string]; [undefined] and [null] are [None].
    - JavaScript numbers are kept abstract (class [Number]): the plugin only
      adds, subtracts, divides, compares and prints them, so every theorem
      holds for IEEE doubles as well as for the exact rationals used in the
      examples.
    - A thrown exception is the [Throw] branch of [result]; effects before
      the throw are kept in the state.
    - An [await] is a suspension point: the code before it runs at the call,
      the code after it runs when the awaited promise settles.  Where a
      property depends on the interleaving ([style], [logStats]), the
      suspended call is an explicit task and the order of settlement is a
      parameter; elsewhere a call is one transition of the state it
      shares with the other calls.
    - Code outside the two files (vite, svelte, vitefu, the file system,
      the clock, the logger, [utils/sourcemaps], [utils/error]) is a
      parameter: the records [Vite] and [Host]. *)

From Stdlib Require Import List String Ascii Bool Arith ZArith QArith Lia.
From Stdlib Require Import Permutation Sorted DecimalString.
Import ListNotations.

Local Open Scope string_scope.
Local Open Scope list_scope.
Local Open Scope nat_scope.

Infix "+++" := String.append (right associativity, at level 60).

(* ================================================================== *)
(** * JavaScript strings                                               *)
(* ================================================================== *)

Module JsString.

Fixpoint spaces (n : nat) : string :=
  match n with
  | O => ""
  | S n' => String " " (spaces n')
  end.

(** [s.padStart(width, ' ')] *)
Definition padStart (s : string) (width : nat) : string :=
  spaces (width - String.length s) +++ s.

(** [s.padEnd(width, ' ')] *)
Definition padEnd (s : string) (width : nat) : string :=
  s +++ spaces (width - String.length s).

(** [ls.join(sep)] on an array of strings *)
Fixpoint join (sep : string) (ls : list string) : string :=
  match ls with
  | [] => ""
  | [s] => s
  | s :: rest => s +++ sep +++ join sep rest
  end.

(** [s.startsWith(p)] *)
Definition startsWith (s p : string) : bool := String.prefix p s.

(** [s.endsWith(suffix)] *)
Definition endsWith (s suffix : string) : bool :=
  let n := String.length s in
  let k := String.length suffix in
  (k <=? n) && String.eqb (String.substring (n - k) k s) suffix.

(** The template literal [`${n}`] for a non-negative integer. *)
Definition of_nat (n : nat) : string :=
  NilZero.string_of_uint (Nat.to_uint n).

(** [`${b}`] for a boolean. *)
Definition of_bool (b : bool) : string := if b then "true" else "false".

(** The regular expression atom [.]: any character but a line
    terminator. *)
Definition dot_matches (c : ascii) : bool :=
  negb (Ascii.eqb c "010" || Ascii.eqb c "013").

(** [/package.json$/.test(s)]: the last twelve characters are
    [package], one character matched by [.], and [json]. *)
Definition ends_with_package_json (s : string) : bool :=
  let n := String.length s in
  (12 <=? n)
  && String.eqb (String.substring (n - 12) 7 s) "package"
  && match String.get (n - 5) s with
     | Some c => dot_matches c
     | None => false
     end
  && String.eqb (String.substring (n - 4) 4 s) "json".

(** [s.replace(/package.json$/, '')] *)
Definition strip_package_json (s : string) : string :=
  if ends_with_package_json s
  then String.substring 0 (String.length s - 12) s
  else s.

End JsString.

(* ================================================================== *)
(** * JavaScript numbers                                               *)
(* ================================================================== *)

(** The operations of the number type that the plugin uses.  [truthy] is
    [ToBoolean] (false on [0] and [NaN]); [nltb a b] is [a < b];
    [toFixed n d] is [n.toFixed(d)]. *)
Class Number := {
  num : Type;
  of_nat : nat -> num;
  nadd : num -> num -> num;
  nsub : num -> num -> num;
  ndiv : num -> num -> num;
  nltb : num -> num -> bool;
  truthy : num -> bool;
  toFixed : num -> nat -> string;
  truthy_zero : truthy (of_nat 0) = false
}.

(** [a > b] *)
Definition ngtb {N : Number} (a b : num) : bool := nltb b a.

(** ** Exact rationals as an instance, used to run the examples *)

Module QNumber.

Definition pow10 (d : nat) : Z := Z.pow 10 (Z.of_nat d).

Fixpoint zeros (n : nat) : string :=
  match n with
  | O => ""
  | S n' => String "0" (zeros n')
  end.

(** [q.toFixed(d)] for a rational below [1e21]: the integer nearest to
    [|q| * 10^d] (the larger one on a tie), printed with [d] fraction
    digits. *)
Definition q_toFixed (q : Q) (d : nat) : string :=
  let den := Z.pos (Qden q) in
  let n := ((Z.abs (Qnum q) * pow10 d * 2 + den) / (den * 2))%Z in
  let m := JsString.of_nat (Z.to_nat n) in
  let m := zeros (S d - String.length m) +++ m in
  let k := String.length m - d in
  let body :=
    match d with
    | O => m
    | _ => String.substring 0 k m +++ "." +++ String.substring k d m
    end in
  (if (Qnum q <? 0)%Z then "-" else "") +++ body.

Definition q_ltb (a b : Q) : bool := negb (Qle_bool b a).

Definition q_truthy (q : Q) : bool := negb (Qnum q =? 0)%Z.

Definition number : Number := {|
  num := Q;
  of_nat := fun n => inject_Z (Z.of_nat n);
  nadd := Qplus;
  nsub := Qminus;
  ndiv := Qdiv;
  nltb := q_ltb;
  truthy := q_truthy;
  toFixed := q_toFixed;
  truthy_zero := eq_refl
|}.

End QNumber.

(* ================================================================== *)
(** * Exceptions                                                       *)
(* ================================================================== *)

(** A thrown value: the error's [name] and its [message] property. *)
Record JsError := { kind : string; message : option string }.

Definition TypeError (msg : string) : JsError :=
  {| kind := "TypeError"; message := Some msg |}.

Inductive result (A : Type) : Type :=
| Ok (a : A)
| Throw (e : JsError).
Arguments Ok {A} a.
Arguments Throw {A} e.

(** Source maps are opaque to the code modelled here: they are passed
    between the collaborators and never inspected. *)
Record SourceMap := { sources : list string; mappings : string }.

(* ================================================================== *)
(** * preprocess.js                                                    *)
(* ================================================================== *)

Module Preprocess.

Definition supportedStyleLangs : list string :=
  ["css"; "less"; "sass"; "scss"; "styl"; "stylus"; "postcss"; "sss"].
Definition supportedScriptLangs : list string := ["ts"].

Definition lang_sep : string := ".vite-preprocess.".

(** An attribute of a [<script>] or [<style>] tag: a string, or [true]
    for an attribute without value. *)
Inductive AttrValue := AttrString (s : string) | AttrBool (b : bool).

(** The argument of a preprocessor hook; [lang] is [attributes.lang]. *)
Record Block := {
  lang : option AttrValue;
  content : string;
  filename : option string
}.

(** The parameter default [filename = '']. *)
Definition filename_of (b : Block) : string :=
  match filename b with Some f => f | None => "" end.

(** [langs.includes(lang)] *)
Definition includes (langs : list string) (l : option AttrValue) : bool :=
  match l with
  | Some (AttrString s) => existsb (String.eqb s) langs
  | _ => false
  end.

(** [`${lang}`] *)
Definition lang_text (l : option AttrValue) : string :=
  match l with
  | Some (AttrString s) => s
  | Some (AttrBool b) => JsString.of_bool b
  | None => "undefined"
  end.

(** What a hook resolves to; [None] is [undefined], "no transformation". *)
Record Processed := {
  code : string;
  map : option SourceMap;
  dependencies : option (list string)
}.

(** A vite configuration.  [inlineConfig] is the field that only a
    resolved configuration carries; [settings] stands for the rest. *)
Record Config := { inlineConfig : option string; settings : string }.

Record EsbuildTransformOptions := {
  loader : string;
  target : string;
  importsNotUsedAsValues : string;
  preserveValueImports : bool
}.

(** The result of vite's [preprocessCSS]. *)
Record CssResult := {
  css_code : string;
  css_map : option SourceMap;
  css_deps : option (list string)
}.

(** The collaborators: vite, the process environment, and the two
    helpers of [utils/sourcemaps], which are taken as parameters. *)
Record Vite := {
  transformWithEsbuild :
    string -> string -> EsbuildTransformOptions ->
    result (string * option SourceMap);
  preprocessCSS : string -> string -> Config -> result CssResult;
  resolveConfig : Config -> string -> result Config;
  NODE_ENV : option string;
  mapToRelative : option SourceMap -> string -> option SourceMap;
  removeLangSuffix : option SourceMap -> string -> option SourceMap
}.

(** ** viteScript *)

Definition script (v : Vite) (b : Block) : result (option Processed) :=
  if negb (includes supportedScriptLangs (lang b)) then Ok None
  else
    match transformWithEsbuild v (content b) (filename_of b)
            {| loader := lang_text (lang b);
               target := "esnext";
               importsNotUsedAsValues := "preserve";
               preserveValueImports := true |} with
    | Throw e => Throw e
    | Ok (c, m) =>
        Ok (Some {| code := c;
                    map := mapToRelative v m (filename_of b);
                    dependencies := None |})
    end.

(** ** viteStyle *)

(** [isResolvedConfig(config)]: [!!config.inlineConfig] *)
Definition isResolvedConfig (c : Config) : bool :=
  match inlineConfig c with Some _ => true | None => false end.

(** The closure returned by [getCssTransformFn(config)]: calling it runs
    [preprocessCSS(code, filename, config)]. *)
Inductive CssTransform := CssTransformFn (bound : Config).

Definition getCssTransformFn (c : Config) : CssTransform := CssTransformFn c.

Definition call_transform (v : Vite) (t : CssTransform) (c f : string)
  : result CssResult :=
  match t with CssTransformFn cfg => preprocessCSS v c f cfg end.

(** The state of one [viteStyle(config)] instance: the parameter
    [config], the closure variable [transform] and the property
    [style.__resolvedConfig]. *)
Record StyleHook := {
  config : Config;
  transform : option CssTransform;
  __resolvedConfig : option Config
}.

(** [viteStyle(config = {})] *)
Definition viteStyle (c : option Config) : StyleHook :=
  {| config := match c with
               | Some c => c
               | None => {| inlineConfig := None; settings := "" |}
               end;
     transform := None;
     __resolvedConfig := None |}.

Definition set_transform (h : StyleHook) (t : CssTransform) : StyleHook :=
  {| config := config h; transform := Some t;
     __resolvedConfig := __resolvedConfig h |}.

(** [style.__resolvedConfig = c], done by the embedding plugin. *)
Definition assign_resolvedConfig (h : StyleHook) (c : option Config)
  : StyleHook :=
  {| config := config h; transform := transform h; __resolvedConfig := c |}.

Definition suffix_of (b : Block) : string := lang_sep +++ lang_text (lang b).
Definition moduleId_of (b : Block) : string := filename_of b +++ suffix_of b.

(** [process.env.NODE_ENV === 'production' ? 'build' : 'serve'] *)
Definition command (v : Vite) : string :=
  match NODE_ENV v with
  | Some e => if String.eqb e "production" then "build" else "serve"
  | None => "serve"
  end.

(** A call of [style] between two of its suspension points. *)
Inductive StyleTask :=
| AwaitResolveConfig (b : Block)
(** suspended at [await resolveConfig(config, ...)] *)
| AwaitTransform (b : Block) (t : CssTransform)
(** suspended at [await transform(content, moduleId)]: [t] is the
    value of [transform] that was called *)
| Settled (r : result (option Processed)).

(** [style(block)] from its call to its first suspension point. *)
Definition style_call (h : StyleHook) (b : Block) : StyleTask * StyleHook :=
  if negb (includes supportedStyleLangs (lang b)) then (Settled (Ok None), h)
  else
    match transform h with
    | Some t => (AwaitTransform b t, h)
    | None =>
        match __resolvedConfig h with
        | Some rc =>
            let t := getCssTransformFn rc in
            (AwaitTransform b t, set_transform h t)
        | None =>
            if isResolvedConfig (config h) then
              let t := getCssTransformFn (config h) in
              (AwaitTransform b t, set_transform h t)
            else (AwaitResolveConfig b, h)
        end
    end.

(** The continuation of [await resolveConfig(...)]: the assignment
    [transform = getCssTransformFn(resolvedConfig)], then the call of
    [transform]. *)
Definition style_config_settled (h : StyleHook) (b : Block)
    (r : result Config) : StyleTask * StyleHook :=
  match r with
  | Throw e => (Settled (Throw e), h)
  | Ok rc =>
      let t := getCssTransformFn rc in
      (AwaitTransform b t, set_transform h t)
  end.

(** The continuation of [await transform(content, moduleId)]. *)
Definition style_transform_settled (v : Vite) (b : Block)
    (r : result CssResult) : result (option Processed) :=
  match r with
  | Throw e => Throw e
  | Ok res =>
      let m := removeLangSuffix v (css_map res) (suffix_of b) in
      let m := mapToRelative v m (filename_of b) in
      Ok (Some
            {| code := css_code res;
               map := m;
               dependencies :=
                 match css_deps res with
                 | Some deps =>
                     Some (filter
                             (fun d => negb (JsString.endsWith d (suffix_of b)))
                             deps)
                 | None => None
                 end |})
  end.

(** One call of [style] run to completion without interleaving. *)
Definition finish_transform (v : Vite) (b : Block) (t : CssTransform)
  : result (option Processed) :=
  style_transform_settled v b
    (call_transform v t (content b) (moduleId_of b)).

Definition style (v : Vite) (h : StyleHook) (b : Block)
  : result (option Processed) * StyleHook :=
  match style_call h b with
  | (Settled r, h1) => (r, h1)
  | (AwaitTransform b1 t, h1) => (finish_transform v b1 t, h1)
  | (AwaitResolveConfig b1, h1) =>
      match resolveConfig v (config h1) (command v) with
      | Throw e => (Throw e, h1)
      | Ok rc =>
          let t := getCssTransformFn rc in
          (finish_transform v b1 t, set_transform h1 t)
      end
  end.

(** ** Interleaved calls of one [style] hook

    The hook is called while earlier calls are still suspended, and the
    embedding plugin assigns [style.__resolvedConfig] at any time. *)
Inductive StyleEvent :=
| Invoke (b : Block)
| ConfigSettled (i : nat) (r : result Config)
| TransformSettled (i : nat) (r : result CssResult)
| Assign (c : option Config).

Record StyleSystem := { hook : StyleHook; tasks : list StyleTask }.

Fixpoint set_nth {A} (i : nat) (x : A) (l : list A) : list A :=
  match l, i with
  | [], _ => []
  | _ :: l', O => x :: l'
  | y :: l', S i' => y :: set_nth i' x l'
  end.

Definition step (v : Vite) (s : StyleSystem) (e : StyleEvent) : StyleSystem :=
  match e with
  | Invoke b =>
      let (t, h) := style_call (hook s) b in
      {| hook := h; tasks := tasks s ++ [t] |}
  | ConfigSettled i r =>
      match nth_error (tasks s) i with
      | Some (AwaitResolveConfig b) =>
          let (t, h) := style_config_settled (hook s) b r in
          {| hook := h; tasks := set_nth i t (tasks s) |}
      | _ => s
      end
  | TransformSettled i r =>
      match nth_error (tasks s) i with
      | Some (AwaitTransform b _) =>
          {| hook := hook s;
             tasks := set_nth i (Settled (style_transform_settled v b r))
                        (tasks s) |}
      | _ => s
      end
  | Assign c =>
      {| hook := assign_resolvedConfig (hook s) c; tasks := tasks s |}
  end.

Definition run (v : Vite) (s : StyleSystem) (es : list StyleEvent)
  : StyleSystem :=
  fold_left (step v) es s.

Definition start (c : option Config) : StyleSystem :=
  {| hook := viteStyle c; tasks := [] |}.

End Preprocess.

(* ================================================================== *)
(** * utils/esbuild.ts                                                 *)
(* ================================================================== *)

(** ** A small state and exception monad *)

Definition M (S A : Type) : Type := S -> result A * S.

Definition ret {S A} (a : A) : M S A := fun s => (Ok a, s).

Definition bind {S A B} (c : M S A) (k : A -> M S B) : M S B :=
  fun s =>
    match c s with
    | (Ok a, s') => k a s'
    | (Throw e, s') => (Throw e, s')
    end.

Definition throw {S A} (e : JsError) : M S A := fun s => (Throw e, s).

(** A call of a collaborator that returns or throws. *)
Definition call {S A} (r : result A) : M S A := fun s => (r, s).

(** [try { c } catch (e) { handler(e) }] *)
Definition try_catch {S A} (c : M S A) (handler : JsError -> M S A) : M S A :=
  fun s =>
    match c s with
    | (Ok a, s') => (Ok a, s')
    | (Throw e, s') => handler e s'
    end.

Declare Scope js_scope.
Delimit Scope js_scope with js.
Notation "x <- c ;; k" := (bind c (fun x => k))
  (at level 61, c at next level, right associativity) : js_scope.
Notation "c ;;; k" := (bind c (fun _ => k))
  (at level 61, right associativity) : js_scope.

(** ** Plain objects with string keys, in insertion order *)

Module Obj.

Definition t (V : Type) : Type := list (string * V).

(** [o[k]] *)
Fixpoint get {V} (k : string) (o : t V) : option V :=
  match o with
  | [] => None
  | (k', v) :: o' => if String.eqb k k' then Some v else get k o'
  end.

(** [o[k] = v]: an existing property keeps its place. *)
Fixpoint set {V} (k : string) (v : V) (o : t V) : t V :=
  match o with
  | [] => [(k, v)]
  | (k', v') :: o' =>
      if String.eqb k k' then (k', v) :: o' else (k', v') :: set k v o'
  end.

(** [{ ...a, ...b }] *)
Definition spread {V} (a b : t V) : t V :=
  fold_left (fun acc kv => set (fst kv) (snd kv) acc) b a.

Definition digit (c : ascii) : option N :=
  let n := N_of_ascii c in
  if ((48 <=? n) && (n <=? 57))%N then Some (n - 48)%N else None.

Fixpoint digits (s : string) (acc : N) : option N :=
  match s with
  | EmptyString => Some acc
  | String c s' =>
      match digit c with
      | Some d => digits s' (acc * 10 + d)%N
      | None => None
      end
  end.

(** The keys that are array indices: canonical decimal numerals below
    [2^32 - 1]. *)
Definition array_index (k : string) : option N :=
  match k with
  | EmptyString => None
  | String c rest =>
      if Ascii.eqb c "0" && negb (String.eqb rest "") then None
      else
        match digits k 0%N with
        | Some n => if (n <? 4294967295)%N then Some n else None
        | None => None
        end
  end.

Fixpoint insert_index {V} (n : N) (kv : string * V)
    (l : list (N * (string * V))) : list (N * (string * V)) :=
  match l with
  | [] => [(n, kv)]
  | (m, kv') :: l' =>
      if (n <? m)%N then (n, kv) :: l else (m, kv') :: insert_index n kv l'
  end.

Definition is_index {V} (kv : string * V) : bool :=
  match array_index (fst kv) with
  | Some _ => true
  | None => false
  end.

(** Own property order: array indices ascending, then the other keys
    in insertion order. *)
Definition ordered {V} (o : t V) : t V :=
  let indexed :=
    fold_left
      (fun acc kv =>
         match array_index (fst kv) with
         | Some n => insert_index n kv acc
         | None => acc
         end) o [] in
  List.map snd indexed ++ filter (fun kv => negb (is_index kv)) o.

(** [Object.values(o)] *)
Definition values {V} (o : t V) : list V := List.map snd (ordered o).

End Obj.

Module Esbuild.

Local Open Scope js_scope.

(** Values of compiler options. *)
Inductive Value :=
| VString (s : string)
| VBool (b : bool)
| VSourceMap (m : SourceMap)
| VOther (repr : string).

Definition CompileOptions : Type := Obj.t Value.

(** [options.preprocess] is only handed on to [preprocess]. *)
Definition PreprocessorGroup : Type := string.

(** The result of svelte's [preprocess]. *)
Record Preprocessed := { pcode : string; pmap : option SourceMap }.

(** The result of svelte's [compile]: [js.code] and [js.map.toUrl()]. *)
Record Compiled := { js_code : string; js_map_toUrl : string }.

(** The argument of the [dynamicCompileOptions] hook. *)
Record DynamicArgs := {
  dyn_filename : string;
  dyn_code : string;
  dyn_compileOptions : CompileOptions
}.

(** [dynamicCompileOptions] is
    [options.experimental?.dynamicCompileOptions]. *)
Record ResolvedOptions := {
  compilerOptions : CompileOptions;
  preprocess : option PreprocessorGroup;
  dynamicCompileOptions :
    option (DynamicArgs -> result (option CompileOptions))
}.

(** An esbuild diagnostic, made by [toESBuildError]. *)
Record ESBuildError := { text : string; detail : string }.

(** What [onLoad] resolves to. *)
Inductive OnLoadResult :=
| Contents (contents : string)
| Errors (errors : list ESBuildError).

Inductive LogEntry :=
| InfoProgress (msg : string) (done : bool)
| Info (msg : string) (payload : string)
| Debug (msg : string).

Section WithNumber.

Context {N : Number}.

(** The interfaces [TimeStamp], [FileStat] and [PackageStats]; the
    count of a group, a number of files, is a [nat]. *)
Record TimeStamp := { event : string; ts : num }.

Record FileStat := {
  filename : string;
  packagename : option string;
  timestamps : list TimeStamp
}.

Record PackageStats := {
  name : option string;
  count : nat;
  compileTime : num
}.

(** [l.findIndex(p)] *)
Fixpoint findIndex {A} (p : A -> bool) (l : list A) : Z :=
  match l with
  | [] => (-1)%Z
  | x :: l' =>
      if p x then 0%Z
      else
        let r := findIndex p l' in
        if (r <? 0)%Z then (-1)%Z else (r + 1)%Z
  end.

(** [l[i]] *)
Definition at_index {A} (l : list A) (i : Z) : option A :=
  if (i <? 0)%Z then None else nth_error l (Z.to_nat i).

Definition ts_of (o : option TimeStamp) : result num :=
  match o with
  | Some t => Ok (ts t)
  | None =>
      Throw (TypeError "Cannot read properties of undefined (reading 'ts')")
  end.

Definition duration (timestamps : list TimeStamp) (to : string)
    (from : option string) : result num :=
  let toIndex := findIndex (fun t => String.eqb (event t) to) timestamps in
  let fromIndex :=
    match from with
    | Some f =>
        if String.eqb f "" then (toIndex - 1)%Z
        else findIndex (fun t => String.eqb (event t) f) timestamps
    | None => (toIndex - 1)%Z
    end in
  match ts_of (at_index timestamps toIndex) with
  | Throw e => Throw e
  | Ok a =>
      match ts_of (at_index timestamps fromIndex) with
      | Throw e => Throw e
      | Ok b => Ok (nsub a b)
      end
  end.

Definition humanDuration (n : num) : string :=
  if nltb n (of_nat 100) then toFixed n 1 +++ "ms"
  else toFixed (ndiv n (of_nat 1000)) 2 +++ "s".

(** The collaborators of the plugin.  [performance_now k] is the
    reading of the [k]-th call of [performance.now()];
    [JSON_parse_name text] is [JSON.parse(text).name]. *)
Record Host := {
  performance_now : nat -> num;
  readFileSync : string -> result string;
  svelte_preprocess :
    string -> PreprocessorGroup -> string -> result Preprocessed;
  svelte_compile : string -> CompileOptions -> result Compiled;
  isCssString : bool;
  log_debug_enabled : bool;
  JSON_stringify : CompileOptions -> string;
  toESBuildError : JsError -> ResolvedOptions -> ESBuildError;
  findClosestPkgJsonPath : string -> option string;
  JSON_parse_name : string -> result (option string)
}.

(** The variables of the [setup] closure, the clock, the log and the
    calls of [findClosestPkgJsonPath] made so far. *)
Record State := {
  stats : list FileStat;
  bundleStart : option num;
  lastProgressLog : num;
  ticks : nat;
  output : list LogEntry;
  lookups : list string
}.

Definition with_stats (f : list FileStat -> list FileStat) (s : State)
  : State :=
  {| stats := f (stats s); bundleStart := bundleStart s;
     lastProgressLog := lastProgressLog s; ticks := ticks s;
     output := output s; lookups := lookups s |}.

Definition log_entry (e : LogEntry) (s : State) : State :=
  {| stats := stats s; bundleStart := bundleStart s;
     lastProgressLog := lastProgressLog s; ticks := ticks s;
     output := output s ++ [e]; lookups := lookups s |}.

Definition log_lookup (f : string) (s : State) : State :=
  {| stats := stats s; bundleStart := bundleStart s;
     lastProgressLog := lastProgressLog s; ticks := ticks s;
     output := output s; lookups := lookups s ++ [f] |}.

Section Plugin.

Variable host : Host.
Variable options : ResolvedOptions.
Variable ssr : bool.

(** [performance.now()] *)
Definition now : M State num :=
  fun s =>
    (Ok (performance_now host (ticks s)),
     {| stats := stats s; bundleStart := bundleStart s;
        lastProgressLog := lastProgressLog s; ticks := S (ticks s);
        output := output s; lookups := lookups s |}).

(** [humanDuration(now - bundleStart)]; the difference is [NaN]
    while [bundleStart] is [undefined]. *)
Definition elapsed_text (t : num) (start : option num) : string :=
  match start with
  | Some b => humanDuration (nsub t b)
  | None => "NaNs"
  end.

(** [now - (lastProgressLog || bundleStart) >
     (lastProgressLog ? progressThrottle : progressDelay)];
    a comparison with [NaN] is false. *)
Definition progressDelay : num := of_nat 2000.
Definition progressThrottle : num := of_nat 200.

Definition progress_due (t : num) (s : State) : bool :=
  let base :=
    if truthy (lastProgressLog s) then Some (lastProgressLog s)
    else bundleStart s in
  let limit :=
    if truthy (lastProgressLog s) then progressThrottle
    else progressDelay in
  match base with
  | Some b => ngtb (nsub t b) limit
  | None => false
  end.

Definition progress_line (t : num) (done : bool) (s : State) : string :=
  "prebundling svelte dependencies - ssr: " +++ JsString.of_bool ssr
  +++ " files:"
  +++ JsString.padStart (JsString.of_nat (List.length (stats s))) 5
  +++ " duration:"
  +++ JsString.padStart (elapsed_text t (bundleStart s)) 7
  +++ (if done then " - done" else "").

Definition logProgress (done : bool) : M State unit :=
  t <- now ;;
  fun s =>
    if done || progress_due t s then
      (Ok tt,
       {| stats := stats s; bundleStart := bundleStart s;
          lastProgressLog := t; ticks := ticks s;
          output := output s ++ [InfoProgress (progress_line t done s) done];
          lookups := lookups s |})
    else (Ok tt, s).

(** *** compileSvelte *)

(** [css] after the first [if]. *)
Definition css_option : Value :=
  let injected :=
    if isCssString host then VString "injected" else VBool true in
  match Obj.get "css" (compilerOptions options) with
  | Some (VString c) =>
      if String.eqb c "none" then VString "none" else injected
  | _ => injected
  end.

(** [{ ...options.compilerOptions, css, filename, format: 'esm',
       generate: ssr ? 'ssr' : 'dom' }] *)
Definition base_compileOptions (filename : string) : CompileOptions :=
  Obj.set "generate" (VString (if ssr then "ssr" else "dom"))
    (Obj.set "format" (VString "esm")
       (Obj.set "filename" (VString filename)
          (Obj.set "css" css_option (compilerOptions options)))).

(** The assignment to [e.message] in the [catch] of [preprocess]. *)
Definition preprocessing_error (filename : string) (e : JsError)
  : JsError :=
  {| kind := kind e;
     message :=
       Some ("Error while preprocessing " +++ filename
             +++ match message e with
                 | Some m => if String.eqb m "" then "" else " - " +++ m
                 | None => ""
                 end) |}.

Definition compileSvelte {S : Type}
    (takeTimestamp : string -> M S unit)
    (log_debug : string -> M S unit)
    (filename code : string) : M S string :=
  let compileOptions := base_compileOptions filename in
  preprocessed <-
    match preprocess options with
    | Some group =>
        p <- try_catch
               (call (svelte_preprocess host code group filename))
               (fun e => throw (preprocessing_error filename e)) ;;
        ret (Some p)
    | None => ret None
    end ;;
  let compileOptions :=
    match preprocessed with
    | Some {| pmap := Some m |} =>
        Obj.set "sourcemap" (VSourceMap m) compileOptions
    | _ => compileOptions
    end in
  let finalCode :=
    match preprocessed with
    | Some p => pcode p
    | None => code
    end in
  dynamic <-
    match dynamicCompileOptions options with
    | Some hook =>
        call (hook {| dyn_filename := filename;
                      dyn_code := finalCode;
                      dyn_compileOptions := compileOptions |})
    | None => ret None
    end ;;
  match dynamic with
  | Some d =>
      if log_debug_enabled host then
        log_debug ("dynamic compile options for  " +++ filename +++ ": "
                   +++ JSON_stringify host d)
      else ret tt
  | None => ret tt
  end ;;;
  let finalCompileOptions :=
    match dynamic with
    | Some d => Obj.spread compileOptions d
    | None => compileOptions
    end in
  takeTimestamp "compileStart" ;;;
  compiled <- call (svelte_compile host finalCode finalCompileOptions) ;;
  takeTimestamp "compiled" ;;;
  ret (js_code compiled +++ "//# sourceMappingURL="
       +++ js_map_toUrl compiled).

(** *** The handlers registered by [setup] *)

(** [build.initialOptions.plugins?.some((v) => v.name === 'vite:dep-scan')]:
    when it holds, [setup] returns before registering anything. *)
Definition scanning (plugins : option (list string)) : bool :=
  match plugins with
  | Some ps => existsb (String.eqb "vite:dep-scan") ps
  | None => false
  end.

(** The closure variables when [setup] returns. *)
Definition setup_state : State :=
  {| stats := []; bundleStart := None; lastProgressLog := of_nat 0;
     ticks := 0; output := []; lookups := [] |}.

(** [setup(build)]: the state of the registered handlers, or nothing
    when it returned early. *)
Definition setup (plugins : option (list string)) : option State :=
  if scanning plugins then None else Some setup_state.

Definition onStart : M State unit :=
  fun s =>
    (Ok tt,
     {| stats := [];
        bundleStart := Some (performance_now host (ticks s));
        lastProgressLog := of_nat 0; ticks := S (ticks s);
        output := output s; lookups := lookups s |}).

(** One [onLoad] call: the shared state and its own [timestamps]. *)
Definition LoadState : Type := list TimeStamp * State.

Definition takeTimestamp (event : string) : M LoadState unit :=
  fun '(timestamps, s) =>
    let '(_, s') := now s in
    (Ok tt,
     (timestamps
        ++ [{| event := event; ts := performance_now host (ticks s) |}],
      s')).

Definition log_debug (msg : string) : M LoadState unit :=
  fun '(timestamps, s) => (Ok tt, (timestamps, log_entry (Debug msg) s)).

Definition onLoad (filename : string) : M State OnLoadResult :=
  logProgress false ;;;
  code <- call (readFileSync host filename) ;;
  fun s =>
    match compileSvelte takeTimestamp log_debug filename code ([], s) with
    | (Ok contents, (timestamps, s')) =>
        (Ok (Contents contents),
         with_stats
           (fun st => st ++ [{| filename := filename;
                                packagename := None;
                                timestamps := timestamps |}]) s')
    | (Throw e, (_, s')) =>
        (Ok (Errors [toESBuildError host e options]), s')
    end.

(** *** logStats: the package of each file *)

(** An entry of [packages]. *)
Record Package := { pkg_name : option string; path : string }.

(** The array [packages] and the shared state. *)
Definition Resolving : Type := list Package * State.

(** [stats[i].packagename = n] *)
Fixpoint set_packagename (i : nat) (n : option string)
    (l : list FileStat) : list FileStat :=
  match l, i with
  | [], _ => []
  | st :: l', O =>
      {| filename := filename st; packagename := n;
         timestamps := timestamps st |} :: l'
  | st :: l', S i' => st :: set_packagename i' n l'
  end.

(** The callback of [stats.map] for the [i]-th stat, from its call
    to the [await]: [true] when it is suspended on a lookup. *)
Definition resolve_call (i : nat) (stat : FileStat) (r : Resolving)
  : bool * Resolving :=
  let '(packages, s) := r in
  match find (fun p => JsString.startsWith (filename stat) (path p))
          packages with
  | Some pkg =>
      (false, (packages, with_stats (set_packagename i (pkg_name pkg)) s))
  | None => (true, (packages, log_lookup (filename stat) s))
  end.

(** The rest of the callback, run when the lookup settles with
    [pkgPath]. *)
Definition resolve_settled (i : nat) (pkgPath : option string)
  : M Resolving unit :=
  fun '(packages, s) =>
    match pkgPath with
    | None => (Ok tt, (packages, s))
    | Some p =>
        if String.eqb p "" then (Ok tt, (packages, s))
        else
          let path := JsString.strip_package_json p in
          match readFileSync host p with
          | Throw e => (Throw e, (packages, s))
          | Ok manifest =>
              match JSON_parse_name host manifest with
              | Throw e => (Throw e, (packages, s))
              | Ok name =>
                  (Ok tt,
                   (packages ++ [{| pkg_name := name; path := path |}],
                    with_stats (set_packagename i name) s))
              end
          end
    end.

(** [stats.map(async (stat) => ...)]: every callback runs up to its
    [await] before any continuation runs.  The result lists the
    suspended callbacks. *)
Fixpoint start_all (l : list FileStat) (i : nat) (r : Resolving)
  : list (nat * string) * Resolving :=
  match l with
  | [] => ([], r)
  | stat :: l' =>
      let '(suspended, r1) := resolve_call i stat r in
      let '(pending, r2) := start_all l' (S i) r1 in
      ((if suspended then [(i, filename stat)] else []) ++ pending, r2)
  end.

Definition is_pending (pending : list (nat * string)) (i : nat) : bool :=
  existsb (fun p => Nat.eqb (fst p) i) pending.

(** The order in which the pending lookups settle: those named by
    [order] first, as listed, then the others as they were issued. *)
Definition settlement (order : list nat) (pending : list (nat * string))
  : list (nat * string) :=
  let chosen := nodup Nat.eq_dec (filter (is_pending pending) order) in
  flat_map (fun i => filter (fun p => Nat.eqb (fst p) i) pending) chosen
  ++ filter (fun p => negb (existsb (Nat.eqb (fst p)) chosen)) pending.

(** The continuations, in settlement order.  [Promise.all] rejects
    with the first rejection; the other callbacks still run. *)
Fixpoint settle_all (l : list (nat * string)) (r : Resolving)
  : option JsError * Resolving :=
  match l with
  | [] => (None, r)
  | (i, file) :: l' =>
      let '(res, r1) :=
        resolve_settled i (findClosestPkgJsonPath host file) r in
      let '(err, r2) := settle_all l' r1 in
      (match res with Throw e => Some e | Ok _ => err end, r2)
  end.

(** [await Promise.all(stats.map(...))] *)
Definition resolve_packages (order : list nat) : M State unit :=
  fun s =>
    let '(pending, r) := start_all (stats s) 0 ([], s) in
    let '(err, (_, s')) := settle_all (settlement order pending) r in
    match err with
    | Some e => (Throw e, s')
    | None => (Ok tt, s')
    end.

(** *** logStats: the report *)

(** The property key that [grouped[stat.packagename]] uses. *)
Definition property_key (n : option string) : string :=
  match n with
  | Some k => k
  | None => "undefined"
  end.

(** The members of [Object.prototype] in the engines that run the
    plugin (ECMAScript with its Annex B).  [grouped] is a plain object
    made by [{}]: [grouped[key]] finds such a member when [grouped] has
    no own property [key].  Each of them is a function or, for
    [__proto__], the prototype itself: none is falsy. *)
Definition object_prototype_keys : list string :=
  ["constructor"; "__defineGetter__"; "__defineSetter__"; "hasOwnProperty";
   "__lookupGetter__"; "__lookupSetter__"; "isPrototypeOf";
   "propertyIsEnumerable"; "toString"; "valueOf"; "__proto__";
   "toLocaleString"].

Definition inherited (key : string) : bool :=
  existsb (String.eqb key) object_prototype_keys.

(** The body of [stats.forEach].  [group] is the own property of
    [grouped] under the key, or else the inherited member under that
    key, or else a new group that becomes an own property.  On an
    inherited member, [count] and [compileTime] are written on that
    member, which is outside [grouped] (the values written there are
    [NaN], which no later lookup takes for a group): [grouped] gets no
    property. *)
Definition group_stat (grouped : Obj.t PackageStats) (stat : FileStat)
  : result (Obj.t PackageStats) :=
  let key := property_key (packagename stat) in
  let group :=
    match Obj.get key grouped with
    | Some g => Some g
    | None =>
        if inherited key then None
        else Some {| count := 0; compileTime := of_nat 0;
                     name := packagename stat |}
    end in
  match duration (timestamps stat) "compiled" None with
  | Throw e => Throw e
  | Ok d =>
      match group with
      | Some group =>
          Ok (Obj.set key
                {| name := name group; count := count group + 1;
                   compileTime := nadd (compileTime group) d |} grouped)
      | None => Ok grouped
      end
  end.

Fixpoint group_stats (l : list FileStat) (grouped : Obj.t PackageStats)
  : result (Obj.t PackageStats) :=
  match l with
  | [] => Ok grouped
  | stat :: l' =>
      match group_stat grouped stat with
      | Throw e => Throw e
      | Ok grouped' => group_stats l' grouped'
      end
  end.

(** [(a, b) => b.count - a.count] *)
Definition by_count (a b : PackageStats) : Z :=
  (Z.of_nat (count b) - Z.of_nat (count a))%Z.

(** [Array.prototype.sort] is stable: an element goes before the
    first one that the comparator puts after it. *)
Fixpoint insert_sorted {A} (cmp : A -> A -> Z) (x : A) (l : list A)
  : list A :=
  match l with
  | [] => [x]
  | y :: l' =>
      if (cmp x y <? 0)%Z then x :: l else y :: insert_sorted cmp x l'
  end.

Definition sort {A} (cmp : A -> A -> Z) (l : list A) : list A :=
  fold_left (fun acc x => insert_sorted cmp x acc) l [].

(** A cell of [statLines]; [None] is [undefined]. *)
Definition Cell : Type := option string.

Definition stat_line (pkgStats : PackageStats) : list Cell :=
  let compileTime := compileTime pkgStats in
  let compileAvg := ndiv (compileTime) (of_nat (count pkgStats)) in
  [name pkgStats;
   Some (JsString.of_nat (count pkgStats));
   Some (humanDuration compileTime);
   Some (humanDuration compileAvg)].

Definition header : list Cell :=
  [Some "library"; Some "files"; Some "time"; Some "avg"].

Definition statLines (groups : list PackageStats) : list (list Cell) :=
  header :: List.map stat_line groups.

(** The error of [cell.length] on an [undefined] cell. *)
Definition length_error : JsError :=
  TypeError "Cannot read properties of undefined (reading 'length')".

Definition cell_length (c : Cell) : result nat :=
  match c with
  | Some c => Ok (String.length c)
  | None => Throw length_error
  end.

(** [widths[i] = w] where [widths[i]] exists. *)
Fixpoint set_width (i w : nat) (widths : list nat) : list nat :=
  match widths, i with
  | [], _ => []
  | _ :: l, O => w :: l
  | x :: l, S i' => x :: set_width i' w l
  end.

(** The [for] loop of the reducer, from index [i] on. *)
Fixpoint widen_row (row : list Cell) (i : nat) (widths : list nat)
  : result (list nat) :=
  match row with
  | [] => Ok widths
  | cell :: row' =>
      match cell_length cell with
      | Throw e => Throw e
      | Ok len =>
          let widths :=
            match nth_error widths i with
            | Some w => if w <? len then set_width i len widths else widths
            | None => widths
            end in
          widen_row row' (S i) widths
      end
  end.

Fixpoint widen_rows (rows : list (list Cell)) (widths : list nat)
  : result (list nat) :=
  match rows with
  | [] => Ok widths
  | row :: rows' =>
      match widen_row row 0 widths with
      | Throw e => Throw e
      | Ok widths' => widen_rows rows' widths'
      end
  end.

(** [statLines.reduce(..., statLines[0].map(() => 0))] *)
Definition columnWidths (lines : list (list Cell)) : result (list nat) :=
  widen_rows lines
    (match lines with
     | first :: _ => List.map (fun _ => 0) first
     | [] => []
     end).

(** [row.map((cell, i) => ...)], from index [i] on. *)
Fixpoint pad_cells (row : list Cell) (i : nat) (widths : list nat)
  : result (list string) :=
  match row with
  | [] => Ok []
  | cell :: row' =>
      match cell with
      | None =>
          Throw (TypeError
                   (if Nat.eqb i 0
                    then "Cannot read properties of undefined (reading 'padEnd')"
                    else "Cannot read properties of undefined (reading 'padStart')"))
      | Some c =>
          let w := nth i widths 0 in
          let padded :=
            if Nat.eqb i 0 then JsString.padEnd c w
            else JsString.padStart c w in
          match pad_cells row' (S i) widths with
          | Throw e => Throw e
          | Ok rest => Ok (padded :: rest)
          end
      end
  end.

Fixpoint table_lines (rows : list (list Cell)) (widths : list nat)
  : result (list string) :=
  match rows with
  | [] => Ok []
  | row :: rows' =>
      match pad_cells row 0 widths with
      | Throw e => Throw e
      | Ok cells =>
          match table_lines rows' widths with
          | Throw e => Throw e
          | Ok rest => Ok (JsString.join (String "009" "") cells :: rest)
          end
      end
  end.

Definition render_table (lines : list (list Cell)) : result string :=
  match columnWidths lines with
  | Throw e => Throw e
  | Ok widths =>
      match table_lines lines widths with
      | Throw e => Throw e
      | Ok ls => Ok (JsString.join (String "010" "") ls)
      end
  end.

(** The groups in the order of the report. *)
Definition sorted_groups (l : list FileStat) : result (list PackageStats) :=
  match group_stats l [] with
  | Throw e => Throw e
  | Ok grouped => Ok (sort by_count (Obj.values grouped))
  end.

(** [logStats] after the packages are resolved. *)
Definition report (l : list FileStat) : result string :=
  match sorted_groups l with
  | Throw e => Throw e
  | Ok groups => render_table (statLines groups)
  end.

Definition logStats (order : list nat) : M State unit :=
  resolve_packages order ;;;
  fun s =>
    match report (stats s) with
    | Throw e => (Throw e, s)
    | Ok table =>
        (Ok tt,
         log_entry
           (Info ("prebundling compile stats - ssr: " +++ JsString.of_bool ssr)
                 table) s)
    end.

Definition onEnd (order : list nat) : M State unit :=
  fun s =>
    if ngtb (lastProgressLog s) (of_nat 0) || (1 <? List.length (stats s))
    then (logProgress true ;;; logStats order) s
    else (Ok tt, s).

(** *** The host drives the handlers *)

Inductive HostEvent :=
| Start
| Load (filename : string)
| End (order : list nat).

(** A handler that throws rejects its promise; the closure state
    stays as the handler left it.  Here a call runs to its end before
    the next call; calls of [onLoad] that overlap are the subject of
    [Loads]. *)
Definition handle (s : State) (e : HostEvent) : State :=
  match e with
  | Start => snd (onStart s)
  | Load f => snd (onLoad f s)
  | End order => snd (onEnd order s)
  end.

Definition drive (es : list HostEvent) : State :=
  fold_left handle es setup_state.

End Plugin.

End WithNumber.

End Esbuild.

(* ================================================================== *)
(** * Notions used to state the properties                             *)
(* ================================================================== *)

Module StyleSpec.

Import Preprocess.

(** The call is suspended in [resolveConfig]. *)
Definition resolving (t : StyleTask) : bool :=
  match t with
  | AwaitResolveConfig _ => true
  | _ => false
  end.

Definition none_resolving (ts : list StyleTask) : bool :=
  forallb (fun t => negb (resolving t)) ts.

(** The hook holds the transform [t] and no call is about to assign
    another one. *)
Definition fixed_on (t : CssTransform) (s : StyleSystem) : Prop :=
  transform (hook s) = Some t /\ none_resolving (tasks s) = true.

(** The configuration that a supported block picks while [transform] is
    unset: the injected one when set, else the constructor's, used as it
    is when it carries [inlineConfig] and resolved otherwise. *)
Definition chosen_config (v : Vite) (h : StyleHook) : result Config :=
  match __resolvedConfig h with
  | Some rc => Ok rc
  | None =>
      if isResolvedConfig (config h) then Ok (config h)
      else resolveConfig v (config h) (command v)
  end.

(** The events of one call that nothing interleaves with. *)
Definition alone (v : Vite) (s : StyleSystem) (b : Block) : list StyleEvent :=
  [Invoke b;
   ConfigSettled (List.length (tasks s))
     (resolveConfig v (config (hook s)) (command v))].

End StyleSpec.

(** ** Sample inputs *)

Module StyleSamples.

Import Preprocess.

Definition vite : Vite :=
  {| transformWithEsbuild := fun c _ _ => Ok (c, None);
     preprocessCSS :=
       fun c f cfg =>
         Ok {| css_code := settings cfg +++ ":" +++ c;
               css_map := None;
               css_deps := Some [f; "/src/vars.scss"] |};
     resolveConfig :=
       fun c _ =>
         Ok {| inlineConfig := Some (settings c);
               settings := "resolved " +++ settings c |};
     NODE_ENV := None;
     mapToRelative := fun m _ => m;
     removeLangSuffix := fun m _ => m |}.

Definition inline : Config := {| inlineConfig := None; settings := "inline" |}.

Definition injected : Config :=
  {| inlineConfig := Some "plugin"; settings := "injected" |}.

Definition scss_block : Block :=
  {| lang := Some (AttrString "scss");
     content := "a{b{c:d}}";
     filename := Some "/src/App.svelte" |}.

Definition css_block : Block :=
  {| lang := Some (AttrString "css");
     content := "p{}";
     filename := Some "/src/Other.svelte" |}.

Definition coffee_block : Block :=
  {| lang := Some (AttrString "coffee");
     content := "x = 1";
     filename := Some "/src/App.svelte" |}.

End StyleSamples.

Module EsbuildSpec.

Import Esbuild.

Section WithNumber.

Context {N : Number}.

(** The part of the state that [compileSvelte] and the progress log
    leave alone. *)
Definition same_closure (s s' : State) : Prop :=
  stats s' = stats s /\ bundleStart s' = bundleStart s
  /\ lookups s' = lookups s.

(** The timestamps of a stat are [compileStart] directly followed by
    [compiled]. *)
Definition compile_timed (st : FileStat) : Prop :=
  exists a b,
    timestamps st = [{| event := "compileStart"; ts := a |};
                     {| event := "compiled"; ts := b |}].

(** *** Progress log *)

(** A call of [logProgress]: the clock reading it takes, its argument,
    and whether it wrote a line. *)
Record ProgressCall := { at_time : num; is_done : bool; logged : bool }.

Definition observe (host : Host) (ssr : bool) (done : bool) (s : State)
  : ProgressCall :=
  {| at_time := performance_now host (ticks s);
     is_done := done;
     logged :=
       negb (List.length (output (snd (logProgress host ssr done s)))
             =? List.length (output s)) |}.

(** The calls of [logProgress] that the handlers make: one at the start
    of every [onLoad], one in [onEnd] when it reports. *)
Fixpoint progress_calls (host : Host) (options : ResolvedOptions)
    (ssr : bool) (es : list HostEvent) (s : State) : list ProgressCall :=
  match es with
  | [] => []
  | e :: es' =>
      match e with
      | Start => []
      | Load _ => [observe host ssr false s]
      | End _ =>
          if ngtb (lastProgressLog s) (of_nat 0)
             || (1 <? List.length (stats s))
          then [observe host ssr true s]
          else []
      end ++ progress_calls host options ssr es' (handle host options ssr s e)
  end.

(** The reading of the last call that wrote a line. *)
Fixpoint last_logged (calls : list ProgressCall) : option num :=
  match calls with
  | [] => None
  | c :: calls' =>
      match last_logged calls' with
      | Some t => Some t
      | None => if logged c then Some (at_time c) else None
      end
  end.

(** The condition of the specification for a call that is not the
    final one: more than 200ms since the last written line, or more than
    2000ms since the start of the pass when no line was written yet. *)
Definition due_after (start last : option num) (t : num) : bool :=
  match last with
  | Some l => ngtb (nsub t l) (of_nat 200)
  | None =>
      match start with
      | Some b => ngtb (nsub t b) (of_nat 2000)
      | None => false
      end
  end.

(** Every call wrote a line exactly when it was the final call or a
    line was due; [last] is the reading of the last line written before
    the calls. *)
Fixpoint throttled (start last : option num) (calls : list ProgressCall)
  : Prop :=
  match calls with
  | [] => True
  | c :: calls' =>
      logged c = is_done c || due_after start last (at_time c)
      /\ throttled start (if logged c then Some (at_time c) else last) calls'
  end.

(** How [last] is kept in the closure: [lastProgressLog] is the reading
    of the last written line, and it is [0] while there is none. *)
Definition tracks (last : option num) (s : State) : Prop :=
  match last with
  | Some t => lastProgressLog s = t /\ truthy t = true
  | None => truthy (lastProgressLog s) = false
  end.

(** No [onStart] among the events: they belong to one pass. *)
Definition one_pass (es : list HostEvent) : bool :=
  forallb (fun e => match e with Start => false | _ => true end) es.

(** *** Report *)

Definition key_of (st : FileStat) : string := property_key (packagename st).

(** The stats of the package with key [k], in the order of [stats]. *)
Definition of_package (k : string) (l : list FileStat) : list FileStat :=
  filter (fun st => String.eqb (key_of st) k) l.

(** [duration(stat.timestamps, 'compiled')] *)
Definition compile_duration (st : FileStat) : result num :=
  duration (timestamps st) "compiled" None.

(** The group under key [k] that the next stat [st] of that key is
    added to: the one in [grouped], or a new one named after [st]. *)
Definition group_of (k : string) (grouped : Obj.t PackageStats)
    (st : FileStat) : PackageStats :=
  match Obj.get k grouped with
  | Some g => g
  | None => {| name := packagename st; count := 0; compileTime := of_nat 0 |}
  end.

(** [0 + d1 + d2 + ...], added from the left as [+=] does. *)
Definition total (ds : list num) : num := fold_left nadd ds (of_nat 0).

Definition descending (groups : list PackageStats) : Prop :=
  StronglySorted (fun a b => count b <= count a) groups.

(** The cells of a group's row once its name is known to be a string. *)
Definition text_row (nm : string) (g : PackageStats) : list string :=
  [nm;
   JsString.of_nat (count g);
   humanDuration (compileTime g);
   humanDuration (ndiv (compileTime g) (of_nat (count g)))].

(** The stat gets a group: its package is not called like a member
    of [Object.prototype]. *)
Definition counted (st : FileStat) : bool := negb (inherited (key_of st)).

(** No own property of [grouped] hides a member of
    [Object.prototype]. *)
Definition own_only (grouped : Obj.t PackageStats) : Prop :=
  forall k, In k (List.map fst grouped) -> inherited k = false.

(** [d] is what [duration(stat.timestamps, 'compiled')] returns. *)
Definition returned (st : FileStat) (d : num) : Prop :=
  compile_duration st = Ok d.

(** [d] is the reading of the clock after the compilation of the file
    minus the reading before it. *)
Definition measured (st : FileStat) (d : num) : Prop :=
  exists a b,
    timestamps st = [{| event := "compileStart"; ts := a |};
                     {| event := "compiled"; ts := b |}]
    /\ d = nsub b a.

(** What the specification says of the groups of the report for the
    stats [l], [time_of] giving the compile time of a stat. *)
Definition grouped_with (time_of : FileStat -> num -> Prop)
    (l : list FileStat) (groups : list PackageStats)
  : Prop :=
  (* one group per package *)
  NoDup (List.map (fun g => property_key (name g)) groups)
  /\ (forall k, In k (List.map (fun g => property_key (name g)) groups)
                <-> In k (List.map key_of l))
  (* named after the package of its stats *)
  /\ (forall g, In g groups ->
       exists st, In st l /\ name g = packagename st)
  (* count and time of a group *)
  /\ (forall g, In g groups ->
       let sts := of_package (property_key (name g)) l in
       count g = List.length sts
       /\ exists ds,
           Forall2 time_of sts ds
           /\ compileTime g = total ds)
  (* order *)
  /\ descending groups
  (* rows *)
  /\ List.length (statLines groups)
     = S (List.length (nodup string_dec (List.map key_of l)))
  /\ (forall g, In g groups ->
       In [name g;
           Some (JsString.of_nat (count g));
           Some (humanDuration (compileTime g));
           Some (humanDuration (ndiv (compileTime g) (of_nat (count g))))]
          (statLines groups)).

(** The groups of the report, the time of a stat being the
    difference of the two readings of the clock around its
    compilation. *)
Definition grouped_report (l : list FileStat) (groups : list PackageStats)
  : Prop :=
  grouped_with measured l groups.

(** The name of a group as text. *)
Definition name_text (g : PackageStats) : string :=
  match name g with
  | Some nm => nm
  | None => ""
  end.

(** The rows of the table for groups that all have a name. *)
Definition report_rows (groups : list PackageStats) : list (list string) :=
  ["library"; "files"; "time"; "avg"]
    :: List.map (fun g => text_row (name_text g) g) groups.

End WithNumber.

(** The widest cell of column [j]. *)
Definition column_width (j : nat) (rows : list (list string)) : nat :=
  fold_right (fun row w => Nat.max (String.length (nth j row "")) w) 0 rows.

(** The layout of the code: in the first column the padding follows the
    cell, in the others it precedes it. *)
Definition aligned_cell (rows : list (list string)) (j : nat) (c : string)
  : string :=
  let padding := JsString.spaces (column_width j rows - String.length c) in
  if Nat.eqb j 0 then c +++ padding else padding +++ c.

Fixpoint aligned_from (rows : list (list string)) (j : nat)
    (row : list string) : list string :=
  match row with
  | [] => []
  | c :: row' => aligned_cell rows j c :: aligned_from rows (S j) row'
  end.

Definition aligned_table (rows : list (list string)) : string :=
  JsString.join (String "010" "")
    (List.map (fun row => JsString.join (String "009" "")
                            (aligned_from rows 0 row)) rows).

(** The layout in the words of the specification: in the first column
    the padding precedes the name, in the numeric columns it follows the
    value. *)
Definition specified_cell (rows : list (list string)) (j : nat) (c : string)
  : string :=
  let padding := JsString.spaces (column_width j rows - String.length c) in
  if Nat.eqb j 0 then padding +++ c else c +++ padding.

Fixpoint specified_from (rows : list (list string)) (j : nat)
    (row : list string) : list string :=
  match row with
  | [] => []
  | c :: row' => specified_cell rows j c :: specified_from rows (S j) row'
  end.

Definition specified_table (rows : list (list string)) : string :=
  JsString.join (String "010" "")
    (List.map (fun row => JsString.join (String "009" "")
                            (specified_from rows 0 row)) rows).

End EsbuildSpec.

Module EsbuildSamples.

Import Esbuild.

#[local] Existing Instance QNumber.number.

(** The [k]-th clock reading is [37 (k + 1)] milliseconds. *)
Definition clock (k : nat) : Q := inject_Z (Z.of_nat (S k) * 37).

(** Files below [/a/] and [/b/] belong to a package; others have no
    manifest above them.  The compiler rejects sources that contain
    [<oops]. *)
Definition host : Host :=
  {| performance_now := clock;
     readFileSync := fun f => Ok ("<!-- " +++ f +++ " -->");
     svelte_preprocess := fun c _ _ => Ok {| pcode := c; pmap := None |};
     svelte_compile :=
       fun c _ =>
         match String.index 0 "<oops" c with
         | Some _ =>
             Throw {| kind := "ParseError"; message := Some "Unexpected token" |}
         | None =>
             Ok {| js_code := "export default Component;";
                   js_map_toUrl := "data:application/json;base64,e30=" |}
         end;
     isCssString := true;
     log_debug_enabled := false;
     JSON_stringify := fun _ => "{}";
     toESBuildError :=
       fun e _ =>
         {| text := match message e with Some m => m | None => "" end;
            detail := kind e |};
     findClosestPkgJsonPath :=
       fun f =>
         if JsString.startsWith f "/a/" then Some "/a/package.json"
         else if JsString.startsWith f "/b/" then Some "/b/package.json"
         else None;
     JSON_parse_name :=
       fun manifest =>
         if String.eqb manifest "<!-- /a/package.json -->" then Ok (Some "pkg-a")
         else Ok (Some "b") |}.

Definition options : ResolvedOptions :=
  {| compilerOptions := []; preprocess := None; dynamicCompileOptions := None |}.

(** The same host with a clock that reads, in milliseconds, the listed
    values and [9000] ever after. *)
Definition uneven_clock (k : nat) : Q :=
  nth k [1000; 1500; 1600; 1700; 3100; 3150; 3200; 3250; 3300; 3350;
         3500; 3600; 3700; 3800]%Q 9000%Q.

Definition uneven_host : Host :=
  {| performance_now := uneven_clock;
     readFileSync := readFileSync host;
     svelte_preprocess := svelte_preprocess host;
     svelte_compile := svelte_compile host;
     isCssString := isCssString host;
     log_debug_enabled := log_debug_enabled host;
     JSON_stringify := JSON_stringify host;
     toESBuildError := toESBuildError host;
     findClosestPkgJsonPath := findClosestPkgJsonPath host;
     JSON_parse_name := JSON_parse_name host |}.

(** Four loads and the end of a pass. *)
Definition one_pass_events : list HostEvent :=
  [Load "/a/X.svelte"; Load "/a/Y.svelte"; Load "/b/Z.svelte";
   Load "/b/W.svelte"; End []].

Definition stat (file : string) (pkg : option string) (t0 t1 : Q) : FileStat :=
  {| filename := file; packagename := pkg;
     timestamps := [{| event := "compileStart"; ts := t0 |};
                    {| event := "compiled"; ts := t1 |}] |}.

Definition group (nm : string) (n : nat) (t : Q) : PackageStats :=
  @Build_PackageStats QNumber.number (Some nm) n t.

(** Three files of two packages. *)
Definition three_stats : list FileStat :=
  [stat "/b/Z.svelte" (Some "b") 10 15;
   stat "/a/X.svelte" (Some "pkg-a") 20 (45 # 2);
   stat "/a/Y.svelte" (Some "pkg-a") 30 34].

(** Two files of two packages, one of which is called like a member
    of [Object.prototype]. *)
Definition constructor_stats : list FileStat :=
  [stat "/c/V.svelte" (Some "constructor") 5 6;
   stat "/b/Z.svelte" (Some "b") 10 15].

(** A state in which two files of package [/a/] were compiled. *)
Definition two_files_one_package : State :=
  {| stats := [stat "/a/X.svelte" None 20 22; stat "/a/Y.svelte" None 30 34];
     bundleStart := Some 1%Q; lastProgressLog := 0%Q; ticks := 0;
     output := []; lookups := [] |}.

(** A state in which one of two files has no manifest above it. *)
Definition one_file_without_manifest : State :=
  {| stats := [stat "/a/X.svelte" None 20 22; stat "/tmp/Y.svelte" None 30 34];
     bundleStart := Some 1%Q; lastProgressLog := 0%Q; ticks := 0;
     output := []; lookups := [] |}.

End EsbuildSamples.

(* ================================================================== *)
(** * Notions for further properties                                   *)
(* ================================================================== *)

Module MoreSpec.

Import Esbuild.

(** [x] is the first element of [l] that satisfies [p], at index [i]. *)
Definition first_at {A} (p : A -> bool) (l : list A) (i : nat) (x : A)
  : Prop :=
  nth_error l i = Some x
  /\ p x = true
  /\ forall j y, j < i -> nth_error l j = Some y -> p y = false.

(** The distinct keys of [ks], in the order of their first
    occurrence. *)
Fixpoint first_seen (ks : list string) : list string :=
  match ks with
  | [] => []
  | k :: ks' =>
      k :: filter (fun k' => negb (String.eqb k' k)) (first_seen ks')
  end.

(** The length of a line of a table of four columns: the widths of the
    columns and three tabs. *)
Definition table_width (rows : list (list string)) : nat :=
  EsbuildSpec.column_width 0 rows + EsbuildSpec.column_width 1 rows
  + EsbuildSpec.column_width 2 rows + EsbuildSpec.column_width 3 rows + 3.

Section WithNumber.

Context {N : Number}.

(** The event of a timestamp is [label]. *)
Definition labelled (label : string) (t : TimeStamp) : bool :=
  String.eqb (event t) label.

(** The error of [timestamps[i].ts] on a missing timestamp. *)
Definition ts_error : JsError :=
  TypeError "Cannot read properties of undefined (reading 'ts')".

(** A callback that does nothing. *)
Definition quiet {S : Type} (_ : string) : M S unit := ret tt.

(** What [compileSvelte] returns or throws for a file, run with
    callbacks that do nothing. *)
Definition compile_outcome (host : Host) (options : ResolvedOptions)
    (ssr : bool) (file code : string) : result string :=
  fst (compileSvelte host options ssr quiet quiet file code tt).

(** The load of [file] returns code. *)
Definition load_succeeds (host : Host) (options : ResolvedOptions)
    (ssr : bool) (file : string) : bool :=
  match readFileSync host file with
  | Ok code =>
      match compile_outcome host options ssr file code with
      | Ok _ => true
      | Throw _ => false
      end
  | Throw _ => false
  end.

(** The options that the fixed fields of [compileSvelte] are written
    over, and the keys of those fields. *)
Definition fixed_keys : list string :=
  ["css"; "filename"; "format"; "generate"; "sourcemap"].

(** The fields that [compileSvelte] sets in the options of the
    compiler, whatever [options.compilerOptions] says: [filename],
    [format], [generate] and [css], which stays ['none'] when it was and
    means injection otherwise; every field that [compileSvelte] does not
    write is the one of [options.compilerOptions]. *)
Definition fixed_fields (host : Host) (options : ResolvedOptions)
    (ssr : bool) (file : string) (base : CompileOptions) : Prop :=
  Obj.get "filename" base = Some (VString file)
  /\ Obj.get "format" base = Some (VString "esm")
  /\ Obj.get "generate" base = Some (VString (if ssr then "ssr" else "dom"))
  /\ (if match Obj.get "css" (compilerOptions options) with
         | Some (VString c) => String.eqb c "none"
         | _ => false
         end
      then Obj.get "css" base = Some (VString "none")
      else Obj.get "css" base
           = Some (if isCssString host then VString "injected"
                   else VBool true))
  /\ forall k, ~ In k fixed_keys ->
               Obj.get k base = Obj.get k (compilerOptions options).

(** The name that the closest manifest of [file] declares: [None] when
    no manifest is found, a thrown error when the manifest cannot be
    read or parsed. *)
Definition declared_name (host : Host) (file : string)
  : option (result (option string)) :=
  match findClosestPkgJsonPath host file with
  | None => None
  | Some p =>
      if String.eqb p "" then None
      else Some (match readFileSync host p with
                 | Ok manifest => JSON_parse_name host manifest
                 | Throw e => Throw e
                 end)
  end.

(** [stat] with the package name [n]. *)
Definition named (n : option string) (stat : FileStat) : FileStat :=
  {| filename := filename stat; packagename := n;
     timestamps := timestamps stat |}.

(** [stat] once its package is resolved. *)
Definition attributed (host : Host) (stat : FileStat) : FileStat :=
  match declared_name host (filename stat) with
  | Some (Ok n) => named n stat
  | _ => stat
  end.

(** The manifest of [stat] is found and cannot be read or parsed. *)
Definition manifest_fails (host : Host) (stat : FileStat) : bool :=
  match declared_name host (filename stat) with
  | Some (Throw _) => true
  | _ => false
  end.

(** Each stat of [cur] is the one of [orig], with its package or not
    yet. *)
Definition partly_attributed (host : Host) (orig cur : list FileStat)
  : Prop :=
  forall i,
    nth_error cur i = nth_error orig i
    \/ nth_error cur i = option_map (attributed host) (nth_error orig i).

(** The property key of the name of a group. *)
Definition group_key (g : PackageStats) : string := property_key (name g).

(** The count of the group is [c]. *)
Definition counts (c : nat) (g : PackageStats) : bool := Nat.eqb (count g) c.

End WithNumber.

End MoreSpec.

(* ================================================================== *)
(** * utils/esbuild.ts: loads that overlap                             *)
(* ================================================================== *)

(** [onLoad] is an [async] function: the host calls it for a file while
    earlier calls are suspended at an [await].  A call runs from one
    suspension point to the next without interruption; between two such
    runs, runs of other calls and other handlers take place.  *)

Module Loads.

Import Esbuild.

Section WithNumber.

Context {N : Number}.
Variable host : Host.
Variable options : ResolvedOptions.
Variable ssr : bool.

(** A call of [onLoad] between two of its suspension points, with what
    the awaited promise settles with. *)
Inductive LoadTask :=
| AwaitPreprocess (file code : string) (settles : result Preprocessed)
(** in [compileSvelte], at [await preprocess(code, ...)] *)
| AwaitDynamic (file finalCode : string) (compileOptions : CompileOptions)
    (settles : result (option CompileOptions))
(** in [compileSvelte], at
    [await options.experimental?.dynamicCompileOptions?.(...)] *)
| AwaitCompileSvelte (file : string) (timestamps : list TimeStamp)
    (settles : result string)
(** in [onLoad], at [await compileSvelte(...)]; [timestamps] is the
    array of the call *)
| LoadSettled (r : result OnLoadResult).

(** [options.experimental?.dynamicCompileOptions?.({ filename, code:
    finalCode, compileOptions })]: the answer of the hook, [undefined]
    without a hook.  A hook that throws is taken as one whose promise
    rejects. *)
Definition dynamic_answer (file finalCode : string)
    (compileOptions : CompileOptions) : result (option CompileOptions) :=
  match dynamicCompileOptions options with
  | Some hook =>
      hook {| dyn_filename := file; dyn_code := finalCode;
              dyn_compileOptions := compileOptions |}
  | None => Ok None
  end.

(** The hook is called and its answer is awaited. *)
Definition call_dynamic (file finalCode : string)
    (compileOptions : CompileOptions) : LoadTask :=
  AwaitDynamic file finalCode compileOptions
    (dynamic_answer file finalCode compileOptions).

(** [if (preprocessed.map) compileOptions.sourcemap = preprocessed.map] *)
Definition with_sourcemap (p : Preprocessed) (compileOptions : CompileOptions)
  : CompileOptions :=
  match pmap p with
  | Some m => Obj.set "sourcemap" (VSourceMap m) compileOptions
  | None => compileOptions
  end.

(** [onLoad({ path: filename })] from its call to its first suspension
    point: the progress call, the read of the file, and [compileSvelte]
    up to its first [await].  A failure of [readFileSync] rejects the
    call. *)
Definition load_call (file : string) (s : State) : LoadTask * State :=
  let s1 := snd (logProgress host ssr false s) in
  match readFileSync host file with
  | Throw e => (LoadSettled (Throw e), s1)
  | Ok code =>
      match preprocess options with
      | Some group =>
          (AwaitPreprocess file code (svelte_preprocess host code group file),
           s1)
      | None =>
          (call_dynamic file code (base_compileOptions host options ssr file),
           s1)
      end
  end.

(** The call from the suspension point it is at to the next one. *)
Definition load_resume (t : LoadTask) (s : State) : LoadTask * State :=
  match t with
  | AwaitPreprocess file code (Throw e) =>
      (AwaitCompileSvelte file [] (Throw (preprocessing_error file e)), s)
  | AwaitPreprocess file code (Ok p) =>
      (call_dynamic file (pcode p)
         (with_sourcemap p (base_compileOptions host options ssr file)),
       s)
  | AwaitDynamic file finalCode compileOptions (Throw e) =>
      (AwaitCompileSvelte file [] (Throw e), s)
  | AwaitDynamic file finalCode compileOptions (Ok dynamic) =>
      let s1 :=
        match dynamic with
        | Some d =>
            if log_debug_enabled host then
              log_entry
                (Debug ("dynamic compile options for  " +++ file +++ ": "
                        +++ JSON_stringify host d)) s
            else s
        | None => s
        end in
      let finalCompileOptions :=
        match dynamic with
        | Some d => Obj.spread compileOptions d
        | None => compileOptions
        end in
      let '(_, (timestamps1, s2)) :=
        takeTimestamp host "compileStart" ([], s1) in
      match svelte_compile host finalCode finalCompileOptions with
      | Throw e => (AwaitCompileSvelte file timestamps1 (Throw e), s2)
      | Ok compiled =>
          let '(_, (timestamps2, s3)) :=
            takeTimestamp host "compiled" (timestamps1, s2) in
          (AwaitCompileSvelte file timestamps2
             (Ok (js_code compiled +++ "//# sourceMappingURL="
                  +++ js_map_toUrl compiled)),
           s3)
      end
  | AwaitCompileSvelte file timestamps (Ok contents) =>
      (LoadSettled (Ok (Contents contents)),
       with_stats
         (fun st => st ++ [{| filename := file; packagename := None;
                              timestamps := timestamps |}]) s)
  | AwaitCompileSvelte file timestamps (Throw e) =>
      (LoadSettled (Ok (Errors [toESBuildError host e options])), s)
  | LoadSettled r => (t, s)
  end.

(** The closure of [setup] and the calls of [onLoad] made so far. *)
Record LoadSystem := { closure : State; loads : list LoadTask }.

(** What the host and the event loop do: call [onLoad], let the
    [i]-th call run on to its next suspension point, call [onStart],
    call [onEnd].  [onEnd] is taken as one step: it reads [stats] and
    writes package names into the stats, and neither adds nor removes a
    stat. *)
Inductive LoadEvent :=
| Begin (file : string)
| Resume (i : nat)
| Started
| Ended (order : list nat).

Definition load_step (sys : LoadSystem) (e : LoadEvent) : LoadSystem :=
  match e with
  | Begin file =>
      let (t, s) := load_call file (closure sys) in
      {| closure := s; loads := loads sys ++ [t] |}
  | Resume i =>
      match nth_error (loads sys) i with
      | Some t =>
          let (t', s) := load_resume t (closure sys) in
          {| closure := s; loads := Preprocess.set_nth i t' (loads sys) |}
      | None => sys
      end
  | Started =>
      {| closure := snd (onStart host (closure sys)); loads := loads sys |}
  | Ended order =>
      {| closure := snd (onEnd host ssr order (closure sys));
         loads := loads sys |}
  end.

Definition run_loads (es : list LoadEvent) : LoadSystem :=
  fold_left load_step es {| closure := setup_state; loads := [] |}.

(** *** Notions for the properties *)

Definition is_settled (t : LoadTask) : bool :=
  match t with
  | LoadSettled _ => true
  | _ => false
  end.

(** No call of [onLoad] is suspended. *)
Definition quiescent (sys : LoadSystem) : bool := forallb is_settled (loads sys).

(** The files of the [onLoad] calls among the events. *)
Fixpoint begun (es : list LoadEvent) : list string :=
  match es with
  | [] => []
  | Begin file :: es' => file :: begun es'
  | _ :: es' => begun es'
  end.

(** [onStart] is not called. *)
Definition within_pass (es : list LoadEvent) : bool :=
  forallb (fun e => match e with Started => false | _ => true end) es.

(** The compiler accepts the code with the options that the hook's
    answer is spread over. *)
Definition compiles (finalCode : string) (compileOptions : CompileOptions)
    (settles : result (option CompileOptions)) : bool :=
  match settles with
  | Ok dynamic =>
      match svelte_compile host finalCode
              (match dynamic with
               | Some d => Obj.spread compileOptions d
               | None => compileOptions
               end) with
      | Ok _ => true
      | Throw _ => false
      end
  | Throw _ => false
  end.

(** The file of a suspended call that is going to return code. *)
Definition going_to_push (t : LoadTask) : list string :=
  match t with
  | AwaitPreprocess file code (Ok p) =>
      let compileOptions :=
        with_sourcemap p (base_compileOptions host options ssr file) in
      if compiles (pcode p) compileOptions
           (dynamic_answer file (pcode p) compileOptions)
      then [file] else []
  | AwaitDynamic file finalCode compileOptions settles =>
      if compiles finalCode compileOptions settles then [file] else []
  | AwaitCompileSvelte file _ (Ok _) => [file]
  | _ => []
  end.

(** The files that the stats hold or are going to hold. *)
Definition expected (sys : LoadSystem) : list string :=
  List.map filename (stats (closure sys))
  ++ flat_map going_to_push (loads sys).

End WithNumber.

End Loads.

(** ** More sample inputs *)

Module MoreSamples.

Import Esbuild EsbuildSamples.

#[local] Existing Instance QNumber.number.

(** Four files of three packages, two of which have one file each. *)
Definition tied_stats : list FileStat :=
  [stat "/c/V.svelte" (Some "c") 5 6;
   stat "/b/Z.svelte" (Some "b") 10 15;
   stat "/a/X.svelte" (Some "pkg-a") 20 (45 # 2);
   stat "/b/W.svelte" (Some "b") 30 34].

(** The timestamps of a load, with one more taken before them. *)
Definition three_stamps : list TimeStamp :=
  [{| event := "read"; ts := 7%Q |};
   {| event := "compileStart"; ts := 10%Q |};
   {| event := "compiled"; ts := 15%Q |}].

(** Options with a preprocessor and a [dynamicCompileOptions] hook that
    turns [dev] on. *)
Definition dynamic_options : ResolvedOptions :=
  {| compilerOptions := [("css", VString "external"); ("dev", VBool false)];
     preprocess := Some "vitePreprocess";
     dynamicCompileOptions :=
       Some (fun _ => Ok (Some [("dev", VBool true)])) |}.

(** The sample host with a preprocessor that throws. *)
Definition failing_host : Host :=
  {| performance_now := performance_now host;
     readFileSync := readFileSync host;
     svelte_preprocess :=
       fun _ _ _ =>
         Throw {| kind := "CssSyntaxError"; message := Some "Unclosed block" |};
     svelte_compile := svelte_compile host;
     isCssString := isCssString host;
     log_debug_enabled := log_debug_enabled host;
     JSON_stringify := JSON_stringify host;
     toESBuildError := toESBuildError host;
     findClosestPkgJsonPath := findClosestPkgJsonPath host;
     JSON_parse_name := JSON_parse_name host |}.

(** A load of an earlier pass that has returned. *)
Definition earlier_pass : list Loads.LoadEvent :=
  [Loads.Begin "/x/Old.svelte"; Loads.Resume 0; Loads.Resume 0].

(** Three loads that overlap: the second is the first to return, the
    third fails in the compiler. *)
Definition overlapping_pass : list Loads.LoadEvent :=
  [Loads.Begin "/a/X.svelte"; Loads.Begin "/b/Z.svelte";
   Loads.Begin "/a/<oops.svelte";
   Loads.Resume 2; Loads.Resume 3; Loads.Resume 2; Loads.Resume 1;
   Loads.Resume 3; Loads.Resume 1; Loads.Ended []].

End MoreSamples.

(* ================================================================== *)
(** * Properties of preprocess.js                                      *)
(* ================================================================== *)

Module PreprocessFacts.

Import Preprocess.

(** Every declared tag is accepted, an absent or valueless [lang] is
    not. *)
Lemma includes_declared langs s :
  In s langs -> includes langs (Some (AttrString s)) = true.
Proof.
  intros Hin. simpl. apply existsb_exists.
  exists s. split; [assumption | apply String.eqb_refl].
Qed.

Lemma includes_absent langs : includes langs None = false.
Proof. reflexivity. Qed.

Lemma includes_valueless langs b : includes langs (Some (AttrBool b)) = false.
Proof. reflexivity. Qed.

(** The post-processing of a transform result never yields
    [undefined]. *)
Lemma settled_not_passthrough v b r :
  style_transform_settled v b r <> Ok None.
Proof. destruct r; simpl; discriminate. Qed.

Lemma finish_not_passthrough v b t : finish_transform v b t <> Ok None.
Proof. apply settled_not_passthrough. Qed.

(** A block with an unsupported tag leaves the hook as it was. *)
Lemma style_unsupported v h b :
  includes supportedStyleLangs (lang b) = false ->
  style v h b = (Ok None, h).
Proof.
  intros Hun. unfold style, style_call. rewrite Hun. reflexivity.
Qed.

(** With a supported tag, the call runs the transform that the hook
    holds afterwards, unless the configuration could not be resolved. *)
Lemma style_supported v h b :
  includes supportedStyleLangs (lang b) = true ->
  (exists t, transform (snd (style v h b)) = Some t
             /\ fst (style v h b) = finish_transform v b t)
  \/ (exists e, transform h = None
                /\ resolveConfig v (config h) (command v) = Throw e
                /\ style v h b = (Throw e, h)).
Proof.
  intros Hsup. unfold style, style_call. rewrite Hsup. simpl.
  destruct (transform h) as [t|] eqn:Ht.
  - left. exists t. simpl. auto.
  - destruct (__resolvedConfig h) as [rc|].
    + left. eexists. simpl. split; reflexivity.
    + destruct (isResolvedConfig (config h)).
      * left. eexists. simpl. split; reflexivity.
      * destruct (resolveConfig v (config h) (command v)) as [rc|e].
        -- left. eexists. simpl. split; reflexivity.
        -- right. exists e. repeat split; reflexivity.
Qed.

Lemma script_unsupported v b :
  includes supportedScriptLangs (lang b) = false -> script v b = Ok None.
Proof. intros Hun. unfold script. rewrite Hun. reflexivity. Qed.

Lemma script_supported v b :
  includes supportedScriptLangs (lang b) = true -> script v b <> Ok None.
Proof.
  intros Hsup. unfold script. rewrite Hsup. simpl.
  destruct (transformWithEsbuild v _ _ _) as [[c m]|e]; discriminate.
Qed.

(** C6.  The language tag alone decides between pass-through and
    transformation.  A style block whose tag is in
    [supportedStyleLangs] gets the outcome of the CSS transform: the
    hook never answers "no transformation" for it, it calls the
    transform it holds and, when [preprocessCSS] returns, it resolves to
    a result made of the returned code.  A block whose tag is not in
    the supported set, for the style hook as for the script hook and
    also when the tag is absent, gets [undefined], and the style hook
    is left untouched. *)
Theorem C6_language_tag_decides (v : Vite) (h : StyleHook) (b : Block) :
  (fst (style v h b) = Ok None
   <-> includes supportedStyleLangs (lang b) = false)
  /\ (includes supportedStyleLangs (lang b) = false ->
      style v h b = (Ok None, h))
  /\ (includes supportedStyleLangs (lang b) = true ->
      forall t res,
        transform (snd (style v h b)) = Some t ->
        call_transform v t (content b) (moduleId_of b) = Ok res ->
        exists p, fst (style v h b) = Ok (Some p) /\ code p = css_code res)
  /\ (script v b = Ok None
      <-> includes supportedScriptLangs (lang b) = false)
  /\ (lang b = None -> style v h b = (Ok None, h) /\ script v b = Ok None).
Proof.
  split; [|split; [|split; [|split]]].
  - split.
    + intros Hnone.
      destruct (includes supportedStyleLangs (lang b)) eqn:Hsup; [|reflexivity].
      exfalso.
      destruct (style_supported v h b Hsup)
        as [[t [_ Hres]] | [e [_ [_ Hres]]]].
      * rewrite Hres in Hnone. exact (finish_not_passthrough v b t Hnone).
      * rewrite Hres in Hnone. discriminate.
    + intros Hun. rewrite (style_unsupported v h b Hun). reflexivity.
  - apply style_unsupported.
  - intros Hsup t res Ht Hcall.
    destruct (style_supported v h b Hsup)
      as [[t' [Ht' Hres]] | [e [Hunset [_ Hres]]]].
    + rewrite Ht in Ht'. injection Ht' as <-.
      rewrite Hres. unfold finish_transform. rewrite Hcall. simpl.
      eexists. split; reflexivity.
    + rewrite Hres in Ht. simpl in Ht. congruence.
  - split.
    + intros Hnone.
      destruct (includes supportedScriptLangs (lang b)) eqn:Hsup; [|reflexivity].
      exfalso. exact (script_supported v b Hsup Hnone).
    + apply script_unsupported.
  - intros Hlang. split.
    + apply style_unsupported. rewrite Hlang. reflexivity.
    + apply script_unsupported. rewrite Hlang. reflexivity.
Qed.

(** ** The cached transform *)

Import StyleSpec.

Lemma none_resolving_app ts us :
  none_resolving (ts ++ us) = none_resolving ts && none_resolving us.
Proof. apply forallb_app. Qed.

Lemma none_resolving_nth ts i b :
  none_resolving ts = true -> nth_error ts i <> Some (AwaitResolveConfig b).
Proof.
  revert i. induction ts as [|t ts IH]; intros [|i] Hall Hnth;
    simpl in *; try discriminate.
  - injection Hnth as ->. discriminate.
  - apply andb_prop in Hall. exact (IH i (proj2 Hall) Hnth).
Qed.

Lemma none_resolving_set_nth ts i t :
  none_resolving ts = true -> resolving t = false ->
  none_resolving (set_nth i t ts) = true.
Proof.
  revert i. induction ts as [|u ts IH]; intros [|i] Hall Ht; simpl in *;
    try reflexivity; apply andb_prop in Hall; destruct Hall as [Hu Hts].
  - rewrite Ht. exact Hts.
  - rewrite Hu. exact (IH i Hts Ht).
Qed.

Lemma nth_error_last {A} (l : list A) (x : A) :
  nth_error (l ++ [x]) (List.length l) = Some x.
Proof. induction l; simpl; auto. Qed.

Lemma set_nth_last {A} (l : list A) (x y : A) :
  set_nth (List.length l) y (l ++ [x]) = l ++ [y].
Proof. induction l; simpl; congruence. Qed.

Lemma length_set_nth {A} (l : list A) i (x : A) :
  List.length (set_nth i x l) = List.length l.
Proof. revert i. induction l; intros [|i]; simpl; auto. Qed.

(** A call made while the transform is held uses it. *)
Lemma invoke_when_fixed v s t b :
  fixed_on t s ->
  includes supportedStyleLangs (lang b) = true ->
  step v s (Invoke b)
  = {| hook := hook s; tasks := tasks s ++ [AwaitTransform b t] |}.
Proof.
  intros [Ht _] Hsup. simpl. unfold style_call. rewrite Hsup, Ht. reflexivity.
Qed.

Lemma step_keeps_fixed v s t e : fixed_on t s -> fixed_on t (step v s e).
Proof.
  intros [Ht Hnone]. destruct e as [b | i r | i r | c]; cbn [step].
  - unfold style_call.
    destruct (includes supportedStyleLangs (lang b)); cbn [negb];
      rewrite ?Ht; (split; cbn [hook tasks];
                    [exact Ht | rewrite none_resolving_app, Hnone; reflexivity]).
  - destruct (nth_error (tasks s) i) as [[b | b t' | r']|] eqn:Hnth;
      try (split; assumption).
    exfalso. exact (none_resolving_nth _ _ _ Hnone Hnth).
  - destruct (nth_error (tasks s) i) as [[b | b t' | r']|] eqn:Hnth;
      try (split; assumption).
    split; [exact Ht|]. simpl. apply none_resolving_set_nth; auto.
  - split; assumption.
Qed.

Lemma run_keeps_fixed v s t es : fixed_on t s -> fixed_on t (run v s es).
Proof.
  revert s. induction es as [|e es IH]; intros s Hs; simpl.
  - exact Hs.
  - apply IH. apply step_keeps_fixed. exact Hs.
Qed.

(** A supported block that nothing interleaves with fixes the transform
    on the configuration it chooses. *)
Lemma alone_fixes v s b rc :
  transform (hook s) = None ->
  none_resolving (tasks s) = true ->
  includes supportedStyleLangs (lang b) = true ->
  chosen_config v (hook s) = Ok rc ->
  fixed_on (getCssTransformFn rc) (run v s (alone v s b)).
Proof.
  intros Hunset Hnone Hsup Hchosen. unfold alone, run, chosen_config in *.
  simpl. unfold style_call. rewrite Hsup, Hunset. simpl.
  destruct (__resolvedConfig (hook s)) as [rc'|].
  - injection Hchosen as ->. simpl. rewrite nth_error_last. simpl.
    split; [reflexivity|]. simpl. rewrite none_resolving_app, Hnone.
    reflexivity.
  - destruct (isResolvedConfig (config (hook s))).
    + injection Hchosen as <-. simpl. rewrite nth_error_last. simpl.
      split; [reflexivity|]. simpl. rewrite none_resolving_app, Hnone.
      reflexivity.
    + simpl. rewrite nth_error_last. rewrite Hchosen. simpl.
      split; [reflexivity|]. simpl.
      rewrite set_nth_last, none_resolving_app, Hnone. reflexivity.
Qed.

(** The same call, seen as one function. *)
Lemma style_chooses v h b rc :
  transform h = None ->
  includes supportedStyleLangs (lang b) = true ->
  chosen_config v h = Ok rc ->
  style v h b
  = (finish_transform v b (getCssTransformFn rc),
     set_transform h (getCssTransformFn rc)).
Proof.
  intros Hunset Hsup Hchosen. unfold style, style_call, chosen_config in *.
  rewrite Hsup, Hunset. simpl.
  destruct (__resolvedConfig h) as [rc'|].
  - injection Hchosen as ->. reflexivity.
  - destruct (isResolvedConfig (config h)).
    + injection Hchosen as <-. reflexivity.
    + rewrite Hchosen. reflexivity.
Qed.

(** C10, as the code has it.  [viteStyle] returns a hook whose
    [__resolvedConfig] is [null] and whose transform is unset.  A
    supported block that finds the transform unset chooses the injected
    [__resolvedConfig] when it is set, else the constructor's
    configuration, used directly when it has [inlineConfig] and resolved
    otherwise; when that choice succeeds and no other call interleaves,
    the transform is bound to it.  From a state in which the transform
    is held and no call is suspended in [resolveConfig], every sequence
    of calls, settlements and assignments to [__resolvedConfig] leaves
    the transform as it is, and every supported block calls it. *)
Theorem C10_transform_cached_once_fixed (v : Vite) :
  (forall c,
      __resolvedConfig (viteStyle c) = None /\ transform (viteStyle c) = None)
  /\ (forall h b rc,
         transform h = None ->
         includes supportedStyleLangs (lang b) = true ->
         chosen_config v h = Ok rc ->
         style v h b
         = (finish_transform v b (getCssTransformFn rc),
            set_transform h (getCssTransformFn rc)))
  /\ (forall s b rc,
         transform (hook s) = None ->
         none_resolving (tasks s) = true ->
         includes supportedStyleLangs (lang b) = true ->
         chosen_config v (hook s) = Ok rc ->
         fixed_on (getCssTransformFn rc) (run v s (alone v s b)))
  /\ (forall s t es, fixed_on t s -> fixed_on t (run v s es))
  /\ (forall s t es b,
         fixed_on t s ->
         includes supportedStyleLangs (lang b) = true ->
         run v s (es ++ [Invoke b])
         = {| hook := hook (run v s es);
              tasks := tasks (run v s es) ++ [AwaitTransform b t] |}).
Proof.
  split; [|split; [|split; [|split]]].
  - intros c. split; reflexivity.
  - apply style_chooses.
  - apply alone_fixes.
  - intros s t es. apply run_keeps_fixed.
  - intros s t es b Hfixed Hsup. unfold run. rewrite fold_left_app.
    cbn [fold_left].
    apply (invoke_when_fixed v (fold_left (step v) es s) t b); [|exact Hsup].
    apply (run_keeps_fixed v s t es). exact Hfixed.
Qed.

(** An instance: with the configuration injected before the first
    block, a later assignment changes nothing. *)
Lemma C10_transform_cached_once_fixed_witness :
  let s := run StyleSamples.vite (start (Some StyleSamples.inline))
             [Assign (Some StyleSamples.injected)] in
  let s1 := run StyleSamples.vite s (alone StyleSamples.vite s StyleSamples.scss_block) in
  fixed_on (getCssTransformFn StyleSamples.injected) s1
  /\ fixed_on (getCssTransformFn StyleSamples.injected)
       (run StyleSamples.vite s1 [Assign None; Invoke StyleSamples.css_block]).
Proof.
  intros s s1.
  assert (H1 : fixed_on (getCssTransformFn StyleSamples.injected) s1).
  { apply (proj1 (proj2 (proj2 (C10_transform_cached_once_fixed StyleSamples.vite))));
      reflexivity. }
  split; [exact H1|].
  apply (proj1 (proj2 (proj2 (proj2
           (C10_transform_cached_once_fixed StyleSamples.vite))))).
  exact H1.
Defined.

(** C10 as stated fails when a second block starts while the first is
    suspended in [resolveConfig]: block [css_block] comes after the first
    supported block [scss_block], and still the assignment made in
    between decides which transform it calls; without the assignment the
    configuration is resolved a second time. *)
Lemma C10_counterexample :
  let first := [Invoke StyleSamples.scss_block] in
  let s_assigned :=
    run StyleSamples.vite (start (Some StyleSamples.inline))
      (first ++ [Assign (Some StyleSamples.injected); Invoke StyleSamples.css_block]) in
  let s_plain :=
    run StyleSamples.vite (start (Some StyleSamples.inline))
      (first ++ [Invoke StyleSamples.css_block]) in
  includes supportedStyleLangs (lang StyleSamples.scss_block) = true
  /\ nth_error (tasks s_assigned) 1
     = Some (AwaitTransform StyleSamples.css_block
               (getCssTransformFn StyleSamples.injected))
  /\ tasks s_plain
     = [AwaitResolveConfig StyleSamples.scss_block;
        AwaitResolveConfig StyleSamples.css_block]
  /\ nth_error (tasks s_assigned) 1 <> nth_error (tasks s_plain) 1
  /\ transform
       (hook (run StyleSamples.vite s_assigned
                [ConfigSettled 0
                   (resolveConfig StyleSamples.vite StyleSamples.inline "serve")]))
     <> transform (hook s_assigned).
Proof.
  repeat split; try reflexivity; discriminate.
Qed.

(** C6 on sample blocks. *)
Lemma C6_language_tag_decides_witness :
  fst (style StyleSamples.vite (viteStyle None) StyleSamples.coffee_block)
  = Ok None
  /\ script StyleSamples.vite StyleSamples.scss_block = Ok None
  /\ exists p,
       fst (style StyleSamples.vite (viteStyle None) StyleSamples.scss_block)
       = Ok (Some p)
       /\ code p = "resolved :a{b{c:d}}".
Proof.
  pose proof (C6_language_tag_decides StyleSamples.vite (viteStyle None)
                StyleSamples.coffee_block) as Hc.
  pose proof (C6_language_tag_decides StyleSamples.vite (viteStyle None)
                StyleSamples.scss_block) as Hs.
  split; [apply (proj2 (proj1 Hc)); reflexivity|].
  split; [apply (proj2 (proj1 (proj2 (proj2 (proj2 Hs))))); reflexivity|].
  destruct (proj1 (proj2 (proj2 Hs)) eq_refl
              (getCssTransformFn
                 {| inlineConfig := Some ""; settings := "resolved " |})
              {| css_code := "resolved :a{b{c:d}}"; css_map := None;
                 css_deps := Some ["/src/App.svelte.vite-preprocess.scss";
                                   "/src/vars.scss"] |}
              eq_refl eq_refl) as [p [Hp Hcode]].
  exists p. split; assumption.
Defined.

End PreprocessFacts.

(* ================================================================== *)
(** * Properties of the string operations                              *)
(* ================================================================== *)

Module JsStringFacts.

Import JsString.

Lemma length_spaces n : String.length (spaces n) = n.
Proof. induction n; simpl; congruence. Qed.

Lemma length_append s t :
  String.length (s +++ t) = String.length s + String.length t.
Proof. induction s; simpl; congruence. Qed.

Lemma length_padStart s w :
  String.length (padStart s w) = Nat.max w (String.length s).
Proof. unfold padStart. rewrite length_append, length_spaces. lia. Qed.

Lemma length_padEnd s w :
  String.length (padEnd s w) = Nat.max w (String.length s).
Proof. unfold padEnd. rewrite length_append, length_spaces. lia. Qed.

End JsStringFacts.

(* ================================================================== *)
(** * Properties of the object and array operations                    *)
(* ================================================================== *)

Module ObjFacts.

Section Objects.

Variable V : Type.
Implicit Types (o : Obj.t V) (k : string) (v : V).

Lemma get_set_same k v o : Obj.get k (Obj.set k v o) = Some v.
Proof.
  induction o as [|[k' v'] o IH]; simpl.
  - rewrite String.eqb_refl. reflexivity.
  - destruct (String.eqb k k') eqn:E; simpl; rewrite E; auto.
Qed.

Lemma get_set_other k k' v o :
  k <> k' -> Obj.get k' (Obj.set k v o) = Obj.get k' o.
Proof.
  intros Hne. induction o as [|[k1 v1] o IH]; simpl.
  - destruct (String.eqb_spec k' k); [congruence | reflexivity].
  - destruct (String.eqb_spec k k1); simpl.
    + destruct (String.eqb_spec k' k1); [congruence | reflexivity].
    + rewrite IH. reflexivity.
Qed.

Lemma keys_set k k' v o :
  In k' (List.map fst (Obj.set k v o)) <-> k' = k \/ In k' (List.map fst o).
Proof.
  induction o as [|[k1 v1] o IH]; simpl.
  - intuition.
  - destruct (String.eqb_spec k k1); simpl.
    + subst. intuition.
    + rewrite IH. intuition.
Qed.

Lemma NoDup_keys_set k v o :
  NoDup (List.map fst o) -> NoDup (List.map fst (Obj.set k v o)).
Proof.
  induction o as [|[k1 v1] o IH]; simpl; intros Hnd.
  - constructor; [intros [] | constructor].
  - inversion Hnd as [|? ? Hnotin Hrest]; subst.
    destruct (String.eqb_spec k k1); simpl.
    + constructor; assumption.
    + constructor; [|auto].
      rewrite keys_set. intros [->|Hin]; [congruence | contradiction].
Qed.

Lemma get_In k v o : Obj.get k o = Some v -> In (k, v) o.
Proof.
  induction o as [|[k1 v1] o IH]; simpl; [discriminate|].
  destruct (String.eqb_spec k k1).
  - intros H. injection H as ->. subst. left. reflexivity.
  - intros H. right. auto.
Qed.

Lemma In_get k v o :
  NoDup (List.map fst o) -> In (k, v) o -> Obj.get k o = Some v.
Proof.
  induction o as [|[k1 v1] o IH]; simpl; intros Hnd Hin; [destruct Hin|].
  inversion Hnd as [|? ? Hnotin Hrest]; subst.
  destruct Hin as [H|Hin].
  - injection H as -> ->. rewrite String.eqb_refl. reflexivity.
  - destruct (String.eqb_spec k k1).
    + subst. exfalso. apply Hnotin.
      apply in_map_iff. exists (k1, v). auto.
    + auto.
Qed.

Lemma insert_index_perm n (kv : string * V) l :
  Permutation (Obj.insert_index n kv l) ((n, kv) :: l).
Proof.
  induction l as [|[m kv'] l IH]; simpl.
  - apply Permutation_refl.
  - destruct (n <? m)%N.
    + apply Permutation_refl.
    + eapply perm_trans; [apply perm_skip, IH | apply perm_swap].
Qed.

Lemma fold_insert_perm o acc :
  Permutation
    (List.map snd
       (fold_left
          (fun acc kv =>
             match Obj.array_index (fst kv) with
             | Some n => Obj.insert_index n kv acc
             | None => acc
             end) o acc))
    (List.map snd acc ++ filter Obj.is_index o).
Proof.
  revert acc. induction o as [|kv o IH]; intros acc; simpl.
  - rewrite app_nil_r. apply Permutation_refl.
  - eapply perm_trans; [apply IH|]. unfold Obj.is_index at 2.
    destruct (Obj.array_index (fst kv)) as [n|].
    + eapply perm_trans.
      * apply Permutation_app_tail, Permutation_map, insert_index_perm.
      * simpl. apply Permutation_middle.
    + apply Permutation_refl.
Qed.

Lemma filter_split (p : string * V -> bool) o :
  Permutation (filter p o ++ filter (fun x => negb (p x)) o) o.
Proof.
  induction o as [|x o IH]; simpl; [constructor|].
  destruct (p x); simpl.
  - apply perm_skip, IH.
  - apply Permutation_sym, Permutation_cons_app, Permutation_sym, IH.
Qed.

(** [Object.values] enumerates every own property once. *)
Lemma ordered_perm o : Permutation (Obj.ordered o) o.
Proof.
  unfold Obj.ordered.
  eapply perm_trans; [apply Permutation_app_tail, fold_insert_perm|].
  simpl. apply (filter_split Obj.is_index).
Qed.

Lemma values_perm o : Permutation (Obj.values o) (List.map snd o).
Proof. apply Permutation_map, ordered_perm. Qed.

End Objects.

(** ** The stable sort *)

Section Sorting.

Variable A : Type.
Variable cmp : A -> A -> Z.

Lemma insert_sorted_perm x l :
  Permutation (Esbuild.insert_sorted cmp x l) (x :: l).
Proof.
  induction l as [|y l IH]; simpl.
  - apply Permutation_refl.
  - destruct (cmp x y <? 0)%Z.
    + apply Permutation_refl.
    + eapply perm_trans; [apply perm_skip, IH | apply perm_swap].
Qed.

Lemma sort_perm_acc l acc :
  Permutation
    (fold_left (fun acc x => Esbuild.insert_sorted cmp x acc) l acc)
    (l ++ acc).
Proof.
  revert acc. induction l as [|x l IH]; intros acc; simpl.
  - apply Permutation_refl.
  - eapply perm_trans; [apply IH|].
    eapply perm_trans; [apply Permutation_app_head, insert_sorted_perm|].
    apply Permutation_sym, Permutation_middle.
Qed.

Lemma sort_perm l : Permutation (Esbuild.sort cmp l) l.
Proof.
  unfold Esbuild.sort. eapply perm_trans; [apply sort_perm_acc|].
  rewrite app_nil_r. apply Permutation_refl.
Qed.

(** The result is ordered by any transitive relation that holds when
    the comparator is not negative the other way round. *)
Variable R : A -> A -> Prop.
Hypothesis R_trans : forall a b c, R a b -> R b c -> R a c.
Hypothesis R_before : forall x y, (cmp x y <? 0)%Z = true -> R x y.
Hypothesis R_after : forall x y, (cmp x y <? 0)%Z = false -> R y x.

Lemma insert_sorted_sorted x l :
  StronglySorted R l -> StronglySorted R (Esbuild.insert_sorted cmp x l).
Proof.
  induction l as [|y l IH]; simpl; intros Hs.
  - constructor; [constructor | constructor].
  - inversion Hs as [|? ? Hl Hy]; subst.
    destruct (cmp x y <? 0)%Z eqn:E.
    + constructor; [exact Hs|].
      constructor; [apply R_before, E|].
      revert Hy. apply Forall_impl. intros z Hz.
      apply (R_trans x y z); [apply R_before, E | exact Hz].
    + constructor; [apply IH, Hl|].
      apply (Permutation_Forall (Permutation_sym (insert_sorted_perm x l))).
      constructor; [apply R_after, E | exact Hy].
Qed.

Lemma sort_sorted_acc l acc :
  StronglySorted R acc ->
  StronglySorted R
    (fold_left (fun acc x => Esbuild.insert_sorted cmp x acc) l acc).
Proof.
  revert acc. induction l as [|x l IH]; intros acc Hs; simpl; auto.
  apply IH, insert_sorted_sorted, Hs.
Qed.

Lemma sort_sorted l : StronglySorted R (Esbuild.sort cmp l).
Proof. apply sort_sorted_acc. constructor. Qed.

End Sorting.

End ObjFacts.

(* ================================================================== *)
(** * Properties of utils/esbuild.ts                                   *)
(* ================================================================== *)

Module EsbuildFacts.

Import Esbuild EsbuildSpec.

(** Case analysis on every [match] of the hypotheses. *)
Ltac break_all :=
  repeat match goal with
         | H : (_, _) = (_, _) |- _ => inversion H; clear H; subst
         | H : context [match ?x with _ => _ end] |- _ =>
             destruct x eqn:?; try discriminate
         end.

Section WithNumber.

Context {N : Number}.
Variable host : Host.
Variable options : ResolvedOptions.
Variable ssr : bool.

(** ** compileSvelte *)


(** In [onLoad], a call that returns has pushed exactly the two
    timestamps, and no call touches the closure variables. *)
Lemma compileSvelte_in_onLoad file code tsl s r tsl' s' :
  compileSvelte host options ssr (takeTimestamp host) log_debug
    file code (tsl, s) = (r, (tsl', s')) ->
  same_closure s s'
  /\ lastProgressLog s' = lastProgressLog s
  /\ (forall out, r = Ok out ->
      exists a b,
        tsl' = tsl ++ [{| event := "compileStart"; ts := a |};
                       {| event := "compiled"; ts := b |}]).
Proof.
  unfold compileSvelte, bind, ret, call, throw, try_catch,
    takeTimestamp, log_debug, now, log_entry, same_closure.
  intros H. break_all.
  all: simpl; repeat split; try (intros ? Hd; discriminate Hd).
  all: intros; rewrite <- ?app_assoc; simpl; eauto.
Qed.


(** ** logProgress *)

Lemma logProgress_unfold done s :
  logProgress host ssr done s
  = (Ok tt,
     let t := performance_now host (ticks s) in
     if done || progress_due t s then
       {| stats := stats s; bundleStart := bundleStart s;
          lastProgressLog := t; ticks := S (ticks s);
          output := output s ++ [InfoProgress (progress_line ssr t done s) done];
          lookups := lookups s |}
     else
       {| stats := stats s; bundleStart := bundleStart s;
          lastProgressLog := lastProgressLog s; ticks := S (ticks s);
          output := output s; lookups := lookups s |}).
Proof.
  unfold logProgress, bind, now, progress_due, progress_line. simpl.
  destruct (done || _); reflexivity.
Qed.

Lemma logProgress_closure done s :
  same_closure s (snd (logProgress host ssr done s)).
Proof.
  rewrite logProgress_unfold. simpl.
  destruct (done || _); repeat split.
Qed.

(** ** onLoad *)

Lemma onLoad_unfold file s :
  onLoad host options ssr file s
  = let s1 := snd (logProgress host ssr false s) in
    match readFileSync host file with
    | Throw e => (Throw e, s1)
    | Ok code =>
        match compileSvelte host options ssr (takeTimestamp host) log_debug
                file code ([], s1) with
        | (Ok contents, (timestamps, s2)) =>
            (Ok (Contents contents),
             with_stats
               (fun st => st ++ [{| filename := file; packagename := None;
                                    timestamps := timestamps |}]) s2)
        | (Throw e, (_, s2)) =>
            (Ok (Errors [toESBuildError host e options]), s2)
        end
    end.
Proof.
  unfold onLoad, bind, call. rewrite logProgress_unfold. simpl.
  destruct (readFileSync host file); reflexivity.
Qed.

(** C5.  When the compile call of a load throws, [onLoad] resolves to an
    error result made from the thrown exception by [toESBuildError], and
    the stats are those from before the load. *)
Theorem C5_failed_compile_is_reported_not_counted
    (file code : string) (s : State) (e : JsError) :
  readFileSync host file = Ok code ->
  fst (compileSvelte host options ssr (takeTimestamp host) log_debug
         file code ([], snd (logProgress host ssr false s))) = Throw e ->
  fst (onLoad host options ssr file s)
  = Ok (Errors [toESBuildError host e options])
  /\ stats (snd (onLoad host options ssr file s)) = stats s.
Proof.
  intros Hread Hthrow. rewrite onLoad_unfold. cbv zeta. rewrite Hread.
  destruct (compileSvelte host options ssr (takeTimestamp host) log_debug
              file code ([], snd (logProgress host ssr false s)))
    as [r [tsl s2]] eqn:Hc.
  simpl in Hthrow. subst r. simpl.
  split; [reflexivity|].
  destruct (compileSvelte_in_onLoad _ _ _ _ _ _ _ Hc) as [(Hstats & _) _].
  rewrite Hstats. apply (logProgress_closure false s).
Qed.

(** A load that returns code appends one stat, with the two
    timestamps. *)
Lemma onLoad_contents file s contents :
  fst (onLoad host options ssr file s) = Ok (Contents contents) ->
  exists a b,
    stats (snd (onLoad host options ssr file s))
    = stats s ++ [{| filename := file; packagename := None;
                     timestamps :=
                       [{| event := "compileStart"; ts := a |};
                        {| event := "compiled"; ts := b |}] |}].
Proof.
  rewrite onLoad_unfold. cbv zeta.
  destruct (readFileSync host file) as [code|e]; [|discriminate].
  destruct (compileSvelte host options ssr (takeTimestamp host) log_debug
              file code ([], snd (logProgress host ssr false s)))
    as [r [tsl s2]] eqn:Hc.
  destruct (compileSvelte_in_onLoad _ _ _ _ _ _ _ Hc) as [(Hstats & _) [_ Hts]].
  destruct r as [out|e]; [|discriminate]. intros _.
  destruct (Hts out eq_refl) as (a & b & ->).
  exists a, b. simpl. rewrite Hstats.
  rewrite (proj1 (logProgress_closure false s)). reflexivity.
Qed.

Lemma onLoad_stats file s :
  stats (snd (onLoad host options ssr file s)) = stats s
  \/ exists a b,
      stats (snd (onLoad host options ssr file s))
      = stats s ++ [{| filename := file; packagename := None;
                       timestamps :=
                         [{| event := "compileStart"; ts := a |};
                          {| event := "compiled"; ts := b |}] |}].
Proof.
  destruct (fst (onLoad host options ssr file s)) as [[c|es]|e] eqn:Hres.
  - right. exact (onLoad_contents file s c Hres).
  - left. revert Hres. rewrite onLoad_unfold. cbv zeta.
    destruct (readFileSync host file) as [code|e]; [|discriminate].
    destruct (compileSvelte host options ssr (takeTimestamp host) log_debug
                file code ([], snd (logProgress host ssr false s)))
      as [r [tsl s2]] eqn:Hc.
    destruct (compileSvelte_in_onLoad _ _ _ _ _ _ _ Hc) as [(Hstats & _) _].
    destruct r; [discriminate|]. intros _. simpl. rewrite Hstats.
    apply (logProgress_closure false s).
  - left. revert Hres. rewrite onLoad_unfold. cbv zeta.
    destruct (readFileSync host file) as [code|e'].
    + destruct (compileSvelte host options ssr (takeTimestamp host) log_debug
                  file code ([], snd (logProgress host ssr false s)))
        as [[out|e''] [tsl s2]]; discriminate.
    + intros _. apply (logProgress_closure false s).
Qed.

Lemma onLoad_keeps_progress file s :
  lastProgressLog (snd (onLoad host options ssr file s))
  = lastProgressLog (snd (logProgress host ssr false s))
  /\ bundleStart (snd (onLoad host options ssr file s)) = bundleStart s.
Proof.
  rewrite onLoad_unfold. cbv zeta.
  pose proof (logProgress_closure false s) as (_ & Hb & _).
  destruct (readFileSync host file) as [code|e]; [|split; auto].
  destruct (compileSvelte host options ssr (takeTimestamp host) log_debug
              file code ([], snd (logProgress host ssr false s)))
    as [r [tsl s2]] eqn:Hc.
  destruct (compileSvelte_in_onLoad _ _ _ _ _ _ _ Hc) as [(_ & Hb2 & _) [Hl _]].
  destruct r; simpl; split; congruence.
Qed.

(** ** Package resolution *)

(** What holds of the state before [resolve_packages] and is kept by
    an assignment to [packagename] and by a recorded lookup, holds
    after it. *)
Section ResolvingInvariant.

Variable P : State -> Prop.
Hypothesis P_packagename :
  forall i n s, P s -> P (with_stats (set_packagename i n) s).
Hypothesis P_lookup : forall f s, P s -> P (log_lookup f s).

Lemma resolve_call_keeps i stat r :
  P (snd r) -> P (snd (snd (resolve_call i stat r))).
Proof.
  destruct r as [packages s]. unfold resolve_call. simpl. intros HP.
  destruct (find _ packages); simpl; auto.
Qed.

Lemma resolve_settled_keeps i pkgPath r :
  P (snd r) -> P (snd (snd (resolve_settled host i pkgPath r))).
Proof.
  destruct r as [packages s]. unfold resolve_settled. simpl. intros HP.
  destruct pkgPath as [p|]; simpl; auto.
  destruct (String.eqb p ""); simpl; auto.
  destruct (readFileSync host p); simpl; auto.
  destruct (JSON_parse_name host _); simpl; auto.
Qed.

Lemma start_all_keeps l i r :
  P (snd r) -> P (snd (snd (start_all l i r))).
Proof.
  revert i r. induction l as [|stat l IH]; intros i r HP; simpl; auto.
  pose proof (resolve_call_keeps i stat r HP) as H1.
  destruct (resolve_call i stat r) as [suspended r1].
  specialize (IH (S i) r1 H1).
  destruct (start_all l (S i) r1) as [pending r2]. exact IH.
Qed.

Lemma settle_all_keeps l r :
  P (snd r) -> P (snd (snd (settle_all host l r))).
Proof.
  revert r. induction l as [|[i file] l IH]; intros r HP; simpl; auto.
  pose proof (resolve_settled_keeps i (findClosestPkgJsonPath host file) r HP)
    as H1.
  destruct (resolve_settled host i _ r) as [res r1].
  specialize (IH r1 H1).
  destruct (settle_all host l r1) as [err r2]. exact IH.
Qed.

Lemma resolve_packages_keeps order s :
  P s -> P (snd (resolve_packages host order s)).
Proof.
  intros HP. unfold resolve_packages.
  pose proof (start_all_keeps (stats s) 0 ([], s) HP) as H1.
  destruct (start_all (stats s) 0 ([], s)) as [pending r].
  pose proof (settle_all_keeps (settlement order pending) r H1) as H2.
  destruct (settle_all host (settlement order pending) r) as [err [pk s']].
  destruct err; exact H2.
Qed.

End ResolvingInvariant.

Lemma set_packagename_timed i n l :
  Forall compile_timed l -> Forall compile_timed (set_packagename i n l).
Proof.
  revert i. induction l as [|st l IH]; intros [|i] H; simpl; auto;
    inversion H; subst; constructor; auto.
Qed.

Lemma logStats_keeps (P : State -> Prop) :
  (forall i n s, P s -> P (with_stats (set_packagename i n) s)) ->
  (forall f s, P s -> P (log_lookup f s)) ->
  (forall e s, P s -> P (log_entry e s)) ->
  forall order s, P s -> P (snd (logStats host ssr order s)).
Proof.
  intros H1 H2 H3 order s HP. unfold logStats, bind.
  pose proof (resolve_packages_keeps P H1 H2 order s HP) as H.
  destruct (resolve_packages host order s) as [[[]|e] s1]; simpl in *; auto.
  destruct (report (stats s1)); simpl; auto.
Qed.

Lemma onEnd_keeps (P : State -> Prop) :
  (forall i n s, P s -> P (with_stats (set_packagename i n) s)) ->
  (forall f s, P s -> P (log_lookup f s)) ->
  (forall e s, P s -> P (log_entry e s)) ->
  (forall s, P s -> P (snd (logProgress host ssr true s))) ->
  forall order s, P s -> P (snd (onEnd host ssr order s)).
Proof.
  intros H1 H2 H3 H4 order s HP. unfold onEnd.
  destruct (ngtb (lastProgressLog s) (of_nat 0) || _); simpl; auto.
  unfold bind. specialize (H4 s HP).
  rewrite logProgress_unfold in *. simpl in *.
  apply logStats_keeps; auto.
Qed.

(** ** The timestamps of the stats *)

Lemma duration_of_timed st :
  compile_timed st ->
  exists a b,
    timestamps st = [{| event := "compileStart"; ts := a |};
                     {| event := "compiled"; ts := b |}]
    /\ duration (timestamps st) "compiled" None = Ok (nsub b a).
Proof.
  intros (a & b & Hts). exists a, b. split; [exact Hts|].
  rewrite Hts. reflexivity.
Qed.

Lemma handle_timed s e :
  Forall compile_timed (stats s) ->
  Forall compile_timed (stats (handle host options ssr s e)).
Proof.
  intros H. destruct e as [|file|order]; simpl.
  - constructor.
  - destruct (onLoad_stats file s) as [-> | (a & b & ->)]; auto.
    apply Forall_app. split; auto.
    constructor; [|constructor]. exists a, b. reflexivity.
  - apply (onEnd_keeps (fun s => Forall compile_timed (stats s))); auto.
    intros i n s0. simpl. apply set_packagename_timed.
Qed.

Lemma fold_handle_timed es s :
  Forall compile_timed (stats s) ->
  Forall compile_timed (stats (fold_left (handle host options ssr) es s)).
Proof.
  revert s. induction es as [|e es IH]; intros s H; simpl; auto.
  apply IH. apply handle_timed. exact H.
Qed.

(** C8.  Whatever the host does, every stat in [stats] has as its
    timestamps [compileStart] directly followed by [compiled]; so the
    computation [duration(timestamps, 'compiled')] of the report finds
    [compiled] at index 1, reads index 0 for the start, and returns the
    difference of the two readings. *)
Theorem C8_stats_are_compile_timed (es : list HostEvent) :
  Forall
    (fun st =>
       exists a b,
         timestamps st = [{| event := "compileStart"; ts := a |};
                          {| event := "compiled"; ts := b |}]
         /\ findIndex (fun t => String.eqb (event t) "compiled")
              (timestamps st) = 1%Z
         /\ duration (timestamps st) "compiled" None = Ok (nsub b a))
    (stats (drive host options ssr es)).
Proof.
  unfold drive.
  assert (H : Forall compile_timed
                (stats (fold_left (handle host options ssr) es setup_state))).
  { apply fold_handle_timed. constructor. }
  revert H. apply Forall_impl. intros st Hst.
  destruct (duration_of_timed st Hst) as (a & b & Hts & Hd).
  exists a, b. repeat split; auto. rewrite Hts. reflexivity.
Qed.

(** ** The lookups of [logStats] *)

Lemma start_all_unresolved l i s :
  start_all l i ([], s)
  = (combine (seq i (List.length l)) (List.map filename l),
     ([], fold_left (fun s f => log_lookup f s) (List.map filename l) s)).
Proof.
  revert i s. induction l as [|stat l IH]; intros i s; simpl; [reflexivity|].
  rewrite IH. reflexivity.
Qed.

Lemma lookups_fold_log fs s :
  lookups (fold_left (fun s f => log_lookup f s) fs s) = lookups s ++ fs.
Proof.
  revert s. induction fs as [|f fs IH]; intros s; simpl.
  - symmetry. apply app_nil_r.
  - rewrite IH. simpl. rewrite <- app_assoc. reflexivity.
Qed.

Lemma settle_all_lookups l r :
  lookups (snd (snd (settle_all host l r))) = lookups (snd r).
Proof.
  revert r. induction l as [|[i file] l IH]; intros r; simpl; [reflexivity|].
  destruct (resolve_settled host i (findClosestPkgJsonPath host file) r)
    as [res r1] eqn:Hr.
  specialize (IH r1). destruct (settle_all host l r1) as [err r2].
  simpl in *. rewrite IH.
  destruct r as [packages s]. unfold resolve_settled in Hr.
  destruct (findClosestPkgJsonPath host file) as [p|];
    [|injection Hr as <- <-; reflexivity].
  destruct (String.eqb p ""); [injection Hr as <- <-; reflexivity|].
  destruct (readFileSync host p); [|injection Hr as <- <-; reflexivity].
  destruct (JSON_parse_name host _); injection Hr as <- <-; reflexivity.
Qed.

(** Every file of the pass is looked up, in whatever order the lookups
    settle. *)
Lemma resolve_packages_lookups order s :
  lookups (snd (resolve_packages host order s))
  = lookups s ++ List.map filename (stats s).
Proof.
  unfold resolve_packages. rewrite start_all_unresolved.
  pose proof (settle_all_lookups
                (settlement order
                   (combine (seq 0 (List.length (stats s)))
                      (List.map filename (stats s))))
                ([], fold_left (fun s f => log_lookup f s)
                       (List.map filename (stats s)) s)) as H.
  destruct (settle_all host _ _) as [err [pk s']]. simpl in H.
  rewrite lookups_fold_log in H. destruct err; exact H.
Qed.

(** ** A group without a name *)

Lemma widen_row_error row i widths e :
  widen_row row i widths = Throw e -> e = length_error.
Proof.
  revert i widths. induction row as [|[c|] row IH]; intros i widths; simpl.
  - discriminate.
  - apply IH.
  - intros H. injection H as <-. reflexivity.
Qed.

Lemma widen_row_undefined row i widths :
  In None row -> widen_row row i widths = Throw length_error.
Proof.
  revert i widths. induction row as [|[c|] row IH]; intros i widths Hin; simpl.
  - destruct Hin.
  - destruct Hin as [Hd|Hin]; [discriminate|]. apply IH. exact Hin.
  - reflexivity.
Qed.

Lemma widen_rows_undefined rows widths :
  (exists row, In row rows /\ In None row) ->
  widen_rows rows widths = Throw length_error.
Proof.
  revert widths. induction rows as [|row rows IH]; intros widths (r & Hr & Hn).
  - destruct Hr.
  - simpl. destruct (widen_row row 0 widths) as [w|e] eqn:Hw.
    + destruct Hr as [<-|Hr].
      * rewrite (widen_row_undefined _ _ _ Hn) in Hw. discriminate.
      * apply IH. exists r. auto.
    + rewrite (widen_row_error _ _ _ _ Hw). reflexivity.
Qed.

(** The report cannot be rendered when a group has no name. *)
Lemma render_table_undefined_name groups :
  In None (List.map name groups) ->
  render_table (statLines groups) = Throw length_error.
Proof.
  intros Hin. unfold render_table, columnWidths.
  rewrite widen_rows_undefined; [reflexivity|].
  apply in_map_iff in Hin. destruct Hin as (g & Hname & Hg).
  exists (stat_line g). split.
  - right. apply in_map. exact Hg.
  - left. exact Hname.
Qed.

(** ** The progress log *)

Lemma throttled_split start last calls :
  throttled start last calls ->
  forall before c after,
    calls = before ++ c :: after ->
    logged c
    = is_done c
      || due_after start
           (match last_logged before with Some t => Some t | None => last end)
           (at_time c).
Proof.
  intros H before. revert last calls H.
  induction before as [|c0 before IH]; intros last calls H c after ->.
  - simpl in *. exact (proj1 H).
  - simpl in H. destruct H as [_ H].
    rewrite (IH _ _ H c after eq_refl). simpl.
    destruct (last_logged before); [reflexivity|].
    destruct (logged c0); reflexivity.
Qed.

Lemma logged_observe done s :
  logged (observe host ssr done s)
  = done || progress_due (performance_now host (ticks s)) s.
Proof.
  unfold observe. rewrite logProgress_unfold. simpl.
  destruct (done || _); simpl.
  - rewrite length_app. simpl.
    replace (List.length (output s) + 1 =? List.length (output s)) with false;
      [reflexivity|].
    symmetry. apply Nat.eqb_neq. lia.
  - rewrite Nat.eqb_refl. reflexivity.
Qed.

Lemma progress_due_tracked last s t :
  tracks last s ->
  progress_due t s = due_after (bundleStart s) last t.
Proof.
  unfold tracks, progress_due, due_after, progressThrottle, progressDelay.
  destruct last as [l|].
  - intros [-> Htrue]. rewrite Htrue. reflexivity.
  - intros ->. reflexivity.
Qed.

Lemma lastProgressLog_logProgress done s :
  lastProgressLog (snd (logProgress host ssr done s))
  = if logged (observe host ssr done s)
    then performance_now host (ticks s)
    else lastProgressLog s.
Proof.
  rewrite logged_observe, logProgress_unfold. simpl.
  destruct (done || _); reflexivity.
Qed.

Lemma onEnd_progress order s :
  bundleStart (snd (onEnd host ssr order s)) = bundleStart s
  /\ lastProgressLog (snd (onEnd host ssr order s))
     = if ngtb (lastProgressLog s) (of_nat 0) || (1 <? List.length (stats s))
       then performance_now host (ticks s)
       else lastProgressLog s.
Proof.
  unfold onEnd.
  destruct (ngtb (lastProgressLog s) (of_nat 0) || _); [|split; reflexivity].
  unfold bind. rewrite logProgress_unfold. simpl.
  apply (logStats_keeps
           (fun s' => bundleStart s' = bundleStart s
                      /\ lastProgressLog s'
                         = performance_now host (ticks s))); auto.
Qed.

Lemma progress_calls_throttled es :
  (forall k, truthy (performance_now host k) = true) ->
  one_pass es = true ->
  forall s last,
    tracks last s ->
    throttled (bundleStart s) last (progress_calls host options ssr es s).
Proof.
  intros Hclock. induction es as [|e es IH]; intros Hpass s last Htr.
  - exact I.
  - simpl in Hpass. apply andb_prop in Hpass. destruct Hpass as [He Hes].
    specialize (IH Hes). destruct e as [|file|order]; [discriminate| |].
    + (* onLoad *)
      cbn [progress_calls handle app]. split.
      * rewrite logged_observe. simpl.
        apply progress_due_tracked. exact Htr.
      * destruct (onLoad_keeps_progress file s) as [Hl Hb].
        rewrite <- Hb. apply IH.
        unfold tracks. rewrite Hl, lastProgressLog_logProgress.
        destruct (logged (observe host ssr false s)).
        -- split; [reflexivity | apply Hclock].
        -- exact Htr.
    + (* onEnd *)
      cbn [progress_calls handle].
      destruct (onEnd_progress order s) as [Hb Hl].
      destruct (ngtb (lastProgressLog s) (of_nat 0) || _).
      * cbn [app]. split; [rewrite logged_observe; reflexivity|].
        rewrite <- Hb. apply IH. rewrite logged_observe. simpl.
        split; [exact Hl | apply Hclock].
      * cbn [app]. rewrite <- Hb. apply IH.
        unfold tracks. rewrite Hl. exact Htr.
Qed.

(** C9.  In a pass, that is after [onStart] and before the next one, a
    call of [logProgress] writes a line exactly when it is the final
    "done" call, or a line was written before in the pass and more than
    200ms have passed since the last one, or no line was written yet and
    more than 2000ms have passed since the start of the pass.  Any other
    call writes nothing.  The clock is assumed never to read [0]. *)
Theorem C9_progress_is_throttled (s0 : State) (es : list HostEvent) :
  (forall k, truthy (performance_now host k) = true) ->
  one_pass es = true ->
  let s := snd (onStart host s0) in
  let start := performance_now host (ticks s0) in
  bundleStart s = Some start
  /\ forall before c after,
       progress_calls host options ssr es s = before ++ c :: after ->
       logged c
       = is_done c
         || match last_logged before with
            | Some t => ngtb (nsub (at_time c) t) (of_nat 200)
            | None => ngtb (nsub (at_time c) start) (of_nat 2000)
            end.
Proof.
  intros Hclock Hpass s start. split; [reflexivity|].
  intros before c after Hsplit.
  assert (Htr : tracks None s) by apply truthy_zero.
  pose proof (progress_calls_throttled es Hclock Hpass s None Htr) as H.
  rewrite (throttled_split _ _ _ H before c after Hsplit).
  unfold due_after. destruct (last_logged before); reflexivity.
Qed.

(** ** Grouping *)

Lemma own_only_nil : own_only [].
Proof. intros k []. Qed.

Lemma get_own grouped k g :
  own_only grouped -> Obj.get k grouped = Some g -> inherited k = false.
Proof.
  intros Hown Hget. apply Hown. apply in_map_iff. exists (k, g).
  split; [reflexivity | apply ObjFacts.get_In, Hget].
Qed.

Lemma own_only_set grouped k g :
  own_only grouped -> inherited k = false -> own_only (Obj.set k g grouped).
Proof.
  intros Hown Hk k' Hin. apply ObjFacts.keys_set in Hin.
  destruct Hin as [->|Hin]; [exact Hk | apply Hown, Hin].
Qed.

(** One step of [stats.forEach]: a stat whose key is inherited leaves
    [grouped] as it is, any other stat is added to the group of its
    key. *)
Lemma group_stat_ok grouped st grouped' :
  own_only grouped ->
  group_stat grouped st = Ok grouped' ->
  exists d,
    compile_duration st = Ok d
    /\ own_only grouped'
    /\ grouped'
       = if counted st
         then Obj.set (key_of st)
                {| name := name (group_of (key_of st) grouped st);
                   count := count (group_of (key_of st) grouped st) + 1;
                   compileTime :=
                     nadd (compileTime (group_of (key_of st) grouped st)) d |}
                grouped
         else grouped.
Proof.
  unfold group_stat, compile_duration, group_of, counted, key_of.
  intros Hown.
  destruct (duration (timestamps st) "compiled" None) as [d|e];
    [|discriminate].
  destruct (Obj.get (property_key (packagename st)) grouped) as [g|] eqn:Hget.
  - pose proof (get_own _ _ _ Hown Hget) as Hk. rewrite Hk.
    intros H. injection H as <-. exists d. split; [reflexivity|].
    split; [apply own_only_set; assumption | reflexivity].
  - destruct (inherited (property_key (packagename st))) eqn:Hk;
      intros H; injection H as <-; exists d; (split; [reflexivity|]);
      (split; [|reflexivity]).
    + exact Hown.
    + apply own_only_set; assumption.
Qed.

Lemma of_package_cons k st l :
  of_package k (st :: l)
  = if String.eqb (key_of st) k then st :: of_package k l else of_package k l.
Proof. reflexivity. Qed.

Lemma group_stats_entry l :
  forall grouped grouped',
    own_only grouped ->
    group_stats l grouped = Ok grouped' ->
    forall k,
      match of_package k (filter counted l) with
      | [] => Obj.get k grouped' = Obj.get k grouped
      | st :: sts =>
          exists ds g,
            List.map compile_duration (st :: sts) = List.map Ok ds
            /\ Obj.get k grouped' = Some g
            /\ name g = name (group_of k grouped st)
            /\ count g
               = count (group_of k grouped st) + List.length (st :: sts)
            /\ compileTime g
               = fold_left nadd ds (compileTime (group_of k grouped st))
      end.
Proof.
  induction l as [|s1 l IH]; intros grouped grouped' Hown H k.
  - simpl in *. injection H as <-. reflexivity.
  - simpl in H.
    destruct (group_stat grouped s1) as [g1|e] eqn:H1; [|discriminate].
    destruct (group_stat_ok _ _ _ Hown H1) as (d & Hd & Hown1 & ->).
    specialize (IH _ _ Hown1 H k). cbn [filter].
    destruct (counted s1); [|exact IH].
    rewrite of_package_cons.
    destruct (String.eqb_spec (key_of s1) k) as [Hk|Hk].
    + subst k. destruct (of_package (key_of s1) (filter counted l))
        as [|st sts].
      * rewrite ObjFacts.get_set_same in IH.
        exists [d]. eexists. split; [|split; [exact IH|]].
        -- simpl. rewrite Hd. reflexivity.
        -- simpl. repeat split.
      * destruct IH as (ds & g & Hds & Hget & Hname & Hcount & Htime).
        unfold group_of in Hname, Hcount, Htime.
        rewrite ObjFacts.get_set_same in Hname, Hcount, Htime.
        simpl in Hname, Hcount, Htime.
        exists (d :: ds), g. split; [|split; [exact Hget|]].
        -- change (List.map compile_duration (s1 :: st :: sts))
             with (compile_duration s1 :: List.map compile_duration (st :: sts)).
           rewrite Hd, Hds. reflexivity.
        -- repeat split; [exact Hname | | exact Htime].
           rewrite Hcount. unfold group_of. simpl. lia.
    + unfold group_of in IH.
      rewrite ObjFacts.get_set_other in IH by exact Hk.
      exact IH.
Qed.

(** The own properties of [grouped] after [stats.forEach]: the keys of
    the stats that are not inherited. *)
Lemma group_stats_keys l :
  forall grouped grouped',
    own_only grouped ->
    group_stats l grouped = Ok grouped' ->
    NoDup (List.map fst grouped) ->
    NoDup (List.map fst grouped')
    /\ forall k, In k (List.map fst grouped')
                 <-> In k (List.map fst grouped)
                     \/ In k (List.map key_of (filter counted l)).
Proof.
  induction l as [|s1 l IH]; intros grouped grouped' Hown H Hnd.
  - simpl in *. injection H as <-. split; [exact Hnd|]. intuition.
  - simpl in H.
    destruct (group_stat grouped s1) as [g1|e] eqn:H1; [|discriminate].
    destruct (group_stat_ok _ _ _ Hown H1) as (d & Hd & Hown1 & ->).
    cbn [filter]. destruct (counted s1).
    + destruct (IH _ _ Hown1 H (ObjFacts.NoDup_keys_set _ _ _ _ Hnd))
        as [Hnd' Hkeys].
      split; [exact Hnd'|].
      intros k. rewrite Hkeys, ObjFacts.keys_set. simpl. intuition.
    + exact (IH _ _ Hown1 H Hnd).
Qed.

Lemma of_package_nonempty k l :
  In k (List.map key_of l) ->
  exists st sts, of_package k l = st :: sts /\ key_of st = k.
Proof.
  intros Hin. apply in_map_iff in Hin. destruct Hin as (st0 & Hk & Hin).
  assert (H0 : In st0 (of_package k l)).
  { apply filter_In. split; [exact Hin | apply String.eqb_eq, Hk]. }
  destruct (of_package k l) as [|st sts] eqn:E; [destruct H0|].
  exists st, sts. split; [reflexivity|].
  assert (H1 : In st (of_package k l)) by (rewrite E; left; reflexivity).
  apply filter_In in H1. apply String.eqb_eq. exact (proj2 H1).
Qed.

(** An entry of [grouped] after [stats.forEach] on an empty object. *)
Lemma grouped_entry l grouped k g :
  group_stats l [] = Ok grouped ->
  In (k, g) grouped ->
  property_key (name g) = k
  /\ (exists st, In st (filter counted l) /\ name g = packagename st)
  /\ count g = List.length (of_package k (filter counted l))
  /\ exists ds,
      List.map compile_duration (of_package k (filter counted l))
      = List.map Ok ds
      /\ compileTime g = total ds.
Proof.
  intros Hg Hin.
  destruct (group_stats_keys l [] grouped own_only_nil Hg (NoDup_nil _))
    as [Hnd Hkeys].
  assert (Hk : In k (List.map key_of (filter counted l))).
  { destruct (proj1 (Hkeys k)) as [[]|H]; [|exact H].
    apply in_map_iff. exists (k, g). split; [reflexivity | exact Hin]. }
  destruct (of_package_nonempty k _ Hk) as (st & sts & Hpkg & Hst).
  pose proof (group_stats_entry l [] grouped own_only_nil Hg k) as He.
  rewrite Hpkg in He.
  destruct He as (ds & g' & Hds & Hget & Hname & Hcount & Htime).
  rewrite (ObjFacts.In_get _ k g grouped Hnd Hin) in Hget.
  injection Hget as <-. unfold group_of in *. simpl in *.
  rewrite Hpkg. split; [|split; [|split]].
  - rewrite Hname. exact Hst.
  - exists st. split; [|exact Hname].
    assert (H0 : In st (of_package k (filter counted l)))
      by (rewrite Hpkg; left; reflexivity).
    apply filter_In in H0. exact (proj1 H0).
  - exact Hcount.
  - exists ds. split; [exact Hds | exact Htime].
Qed.

Lemma by_count_sorted (l : list PackageStats) : descending (sort by_count l).
Proof.
  apply ObjFacts.sort_sorted; unfold by_count.
  - intros a b c. lia.
  - intros x y H. apply Z.ltb_lt in H. lia.
  - intros x y H. apply Z.ltb_ge in H. lia.
Qed.

Lemma returned_all sts :
  forall ds,
    List.map compile_duration sts = List.map Ok ds ->
    Forall2 returned sts ds.
Proof.
  induction sts as [|st sts IH]; intros [|d ds] H; simpl in H;
    try discriminate; constructor.
  - injection H as Hd _. exact Hd.
  - apply IH. injection H as _ Hds. exact Hds.
Qed.

(** The groups of the report are those of the stats whose key is not
    inherited. *)
Lemma sorted_groups_report (l : list FileStat) (groups : list PackageStats) :
  sorted_groups l = Ok groups ->
  grouped_with returned (filter counted l) groups.
Proof.
  unfold sorted_groups, grouped_with.
  destruct (group_stats l []) as [grouped|e] eqn:Hg; [|discriminate].
  intros H. injection H as <-.
  destruct (group_stats_keys l [] grouped own_only_nil Hg (NoDup_nil _))
    as [Hnd Hkeys].
  assert (Hperm : Permutation (sort by_count (Obj.values grouped))
                    (List.map snd grouped)).
  { eapply perm_trans; [apply ObjFacts.sort_perm | apply ObjFacts.values_perm]. }
  assert (Hnames : List.map (fun g => property_key (name g))
                     (List.map snd grouped) = List.map fst grouped).
  { rewrite map_map. apply map_ext_in. intros [k g] Hin. simpl.
    exact (proj1 (grouped_entry l grouped k g Hg Hin)). }
  assert (Hpk : Permutation
                  (List.map (fun g => property_key (name g))
                     (sort by_count (Obj.values grouped)))
                  (List.map fst grouped)).
  { rewrite <- Hnames. apply Permutation_map, Hperm. }
  assert (Hentry : forall g,
             In g (sort by_count (Obj.values grouped)) ->
             exists k, In (k, g) grouped).
  { intros g Hin. apply (Permutation_in _ Hperm) in Hin.
    apply in_map_iff in Hin. destruct Hin as ([k g'] & Heq & Hin).
    simpl in Heq. subst g'. exists k. exact Hin. }
  split; [|split; [|split; [|split; [|split; [|split]]]]].
  - apply (Permutation_NoDup (Permutation_sym Hpk)). exact Hnd.
  - intros k. split.
    + intros Hin. apply (Permutation_in _ Hpk) in Hin.
      apply Hkeys in Hin. destruct Hin as [[]|Hin]. exact Hin.
    + intros Hin. apply (Permutation_in _ (Permutation_sym Hpk)).
      apply Hkeys. right. exact Hin.
  - intros g Hin. destruct (Hentry g Hin) as [k Hk].
    exact (proj1 (proj2 (grouped_entry l grouped k g Hg Hk))).
  - intros g Hin. destruct (Hentry g Hin) as [k Hk].
    destruct (grouped_entry l grouped k g Hg Hk)
      as (Hname & _ & Hcount & ds & Hds & Htime).
    cbv zeta. rewrite Hname. split; [exact Hcount|].
    exists ds. split; [apply returned_all, Hds | exact Htime].
  - apply by_count_sorted.
  - unfold statLines. simpl. f_equal. rewrite length_map.
    rewrite (Permutation_length Hperm), length_map.
    rewrite <- (length_map fst).
    apply Permutation_length, NoDup_Permutation.
    + exact Hnd.
    + apply NoDup_nodup.
    + intros k. rewrite nodup_In, Hkeys. simpl. intuition.
  - intros g Hin. right. apply in_map_iff. exists g. split; [reflexivity|].
    exact Hin.
Qed.

(** The groups can be computed for stats with the two timestamps. *)
Lemma group_stats_total l :
  Forall compile_timed l ->
  forall grouped, exists grouped', group_stats l grouped = Ok grouped'.
Proof.
  induction 1 as [|st l Hst _ IH]; intros grouped; simpl.
  - exists grouped. reflexivity.
  - destruct (duration_of_timed st Hst) as (a & b & _ & Hd).
    unfold group_stat. rewrite Hd.
    destruct (Obj.get _ grouped); [apply IH|].
    destruct (inherited _); apply IH.
Qed.

Lemma sorted_groups_total l :
  Forall compile_timed l -> exists groups, sorted_groups l = Ok groups.
Proof.
  intros Htimed. destruct (group_stats_total l Htimed []) as [grouped Hg].
  exists (sort by_count (Obj.values grouped)).
  unfold sorted_groups. rewrite Hg. reflexivity.
Qed.

(** ** The stats that get no group *)

Lemma filter_length_lt {A} (p : A -> bool) (l : list A) (x : A) :
  In x l -> p x = false -> List.length (filter p l) < List.length l.
Proof.
  induction l as [|y l IH]; intros Hin Hp; [destruct Hin|].
  pose proof (filter_length_le p l) as Hle. simpl.
  destruct Hin as [->|Hin].
  - rewrite Hp. lia.
  - specialize (IH Hin Hp). destruct (p y); simpl; lia.
Qed.

Lemma list_sum_cons x xs : list_sum (x :: xs) = x + list_sum xs.
Proof. reflexivity. Qed.

Lemma indicator_sum k0 ks :
  NoDup ks ->
  list_sum (List.map (fun k => if String.eqb k0 k then 1 else 0) ks)
  = if existsb (String.eqb k0) ks then 1 else 0.
Proof.
  induction 1 as [|k ks Hnotin Hnd IH]; simpl; [reflexivity|].
  rewrite IH. destruct (String.eqb_spec k0 k) as [->|Hne]; simpl.
  - destruct (existsb (String.eqb k) ks) eqn:E; [|reflexivity].
    exfalso. apply Hnotin. apply existsb_exists in E.
    destruct E as (k' & Hin & Heq). apply String.eqb_eq in Heq.
    subst. exact Hin.
  - reflexivity.
Qed.

(** Stats whose keys are among the distinct keys [ks] are split by
    these keys. *)
Lemma lengths_of_packages (l : list FileStat) ks :
  NoDup ks ->
  (forall st, In st l -> In (key_of st) ks) ->
  list_sum (List.map (fun k => List.length (of_package k l)) ks)
  = List.length l.
Proof.
  intros Hnd. induction l as [|st l IH]; intros Hall.
  - simpl. clear. induction ks as [|k ks IHk]; simpl; [reflexivity|].
    exact IHk.
  - assert (Hsplit :
        list_sum (List.map (fun k => List.length (of_package k (st :: l))) ks)
        = list_sum (List.map
                      (fun k => if String.eqb (key_of st) k then 1 else 0) ks)
          + list_sum (List.map (fun k => List.length (of_package k l)) ks)).
    { clear. induction ks as [|k ks IHk]; [reflexivity|].
      rewrite !map_cons, !list_sum_cons, IHk, of_package_cons.
      destruct (String.eqb (key_of st) k); simpl; lia. }
    rewrite Hsplit, (indicator_sum _ _ Hnd), IH
      by (intros st' Hin; apply Hall; right; exact Hin).
    assert (Hin : existsb (String.eqb (key_of st)) ks = true).
    { apply existsb_exists. exists (key_of st).
      split; [apply Hall; left; reflexivity | apply String.eqb_refl]. }
    rewrite Hin. reflexivity.
Qed.

(** The counts of the groups add up to the number of stats whose key
    is not inherited. *)
Lemma counts_of_groups (l : list FileStat) (groups : list PackageStats) :
  sorted_groups l = Ok groups ->
  list_sum (List.map count groups) = List.length (filter counted l).
Proof.
  intros Hs.
  destruct (sorted_groups_report l groups Hs)
    as (Hnd & Hkeys & _ & Hcount & _).
  rewrite <- (lengths_of_packages (filter counted l)
                (List.map (fun g => property_key (name g)) groups) Hnd).
  - rewrite map_map. f_equal. apply map_ext_in. intros g Hg.
    exact (proj1 (Hcount g Hg)).
  - intros st Hst. apply Hkeys. apply in_map. exact Hst.
Qed.

(** C7.  The report does not have a group for every package.  A stat
    whose package is called like a member of [Object.prototype]
    ([constructor], [toString], ...) is looked up in the plain object
    [grouped], found there as the inherited member, and added to no
    group: for the stats of a pass among which there is such a stat, the
    groups are computed, none of them is the group of that package, the
    file counts add up to less than the number of stats, and the table
    has fewer rows than the header and one row per package. *)
Theorem C7_inherited_name_gets_no_group (l : list FileStat) (st : FileStat) :
  Forall compile_timed l ->
  In st l ->
  inherited (key_of st) = true ->
  exists groups,
    sorted_groups l = Ok groups
    /\ ~ In (key_of st) (List.map (fun g => property_key (name g)) groups)
    /\ list_sum (List.map count groups) < List.length l
    /\ List.length (statLines groups)
       < S (List.length (nodup string_dec (List.map key_of l))).
Proof.
  intros Htimed Hin Hinh.
  destruct (sorted_groups_total l Htimed) as [groups Hs].
  exists groups. split; [exact Hs|].
  destruct (sorted_groups_report l groups Hs)
    as (_ & Hkeys & _ & _ & _ & Hrows & _).
  assert (Hnot : ~ In (key_of st) (List.map key_of (filter counted l))).
  { intros Hk. apply in_map_iff in Hk. destruct Hk as (st' & Heq & Hst').
    apply filter_In in Hst'. destruct Hst' as [_ Hc].
    unfold counted in Hc. rewrite Heq, Hinh in Hc. discriminate. }
  split; [|split].
  - intros Hk. apply Hnot. apply Hkeys. exact Hk.
  - rewrite (counts_of_groups l groups Hs).
    apply (filter_length_lt counted l st Hin).
    unfold counted. rewrite Hinh. reflexivity.
  - rewrite Hrows. apply le_n_S.
    change (S (List.length
                 (nodup string_dec (List.map key_of (filter counted l)))))
      with (List.length
              (key_of st
               :: nodup string_dec (List.map key_of (filter counted l)))).
    apply NoDup_incl_length.
    + constructor; [|apply NoDup_nodup].
      intros Hk. apply nodup_In in Hk. exact (Hnot Hk).
    + intros k [<-|Hk]; apply nodup_In.
      * apply in_map. exact Hin.
      * apply nodup_In in Hk. apply in_map_iff in Hk.
        destruct Hk as (st' & <- & Hst'). apply in_map.
        apply filter_In in Hst'. exact (proj1 Hst').
Qed.

(** ** The layout of the table *)

Lemma length_set_width i w widths :
  List.length (set_width i w widths) = List.length widths.
Proof. revert i. induction widths; intros [|i]; simpl; auto. Qed.

Lemma nth_set_width i w widths j :
  nth j (set_width i w widths) 0
  = if (j =? i) && (i <? List.length widths) then w else nth j widths 0.
Proof.
  revert i j. induction widths as [|x widths IH]; intros [|i] [|j]; simpl;
    try reflexivity.
  - destruct (j =? i); reflexivity.
  - rewrite IH. reflexivity.
Qed.

(** One row of defined cells raises the width of each of its columns to
    the length of its cell. *)
Lemma widen_row_defined row :
  forall i widths,
  exists widths',
    widen_row (List.map Some row) i widths = Ok widths'
    /\ List.length widths' = List.length widths
    /\ forall j,
        j < List.length widths ->
        nth j widths' 0
        = if (i <=? j) && (j <? i + List.length row)
          then Nat.max (nth j widths 0) (String.length (nth (j - i) row ""))
          else nth j widths 0.
Proof.
  induction row as [|c row IH]; intros i widths.
  - exists widths. simpl. repeat split. intros j _.
    destruct (i <=? j) eqn:E; simpl; [|reflexivity].
    replace (j <? i + 0) with false; [reflexivity|].
    symmetry. apply Nat.ltb_ge. apply Nat.leb_le in E. lia.
  - simpl.
    set (widths1 :=
           match nth_error widths i with
           | Some w =>
               if w <? String.length c
               then set_width i (String.length c) widths
               else widths
           | None => widths
           end).
    assert (Hlen1 : List.length widths1 = List.length widths).
    { unfold widths1. destruct (nth_error widths i); [|reflexivity].
      destruct (_ <? _); [apply length_set_width | reflexivity]. }
    assert (Hnth1 : forall j, j < List.length widths ->
              nth j widths1 0
              = if j =? i then Nat.max (nth j widths 0) (String.length c)
                else nth j widths 0).
    { intros j Hj. unfold widths1.
      destruct (nth_error widths i) as [w|] eqn:Hw.
      - assert (Hi : i < List.length widths).
        { apply nth_error_Some. congruence. }
        assert (Hwi : nth i widths 0 = w).
        { apply nth_error_nth. exact Hw. }
        destruct (w <? String.length c) eqn:Hlt.
        + rewrite nth_set_width. apply Nat.ltb_lt in Hlt.
          destruct (Nat.eqb_spec j i); simpl.
          * subst j. rewrite (proj2 (Nat.ltb_lt _ _) Hi), Hwi. lia.
          * reflexivity.
        + apply Nat.ltb_ge in Hlt.
          destruct (Nat.eqb_spec j i); [subst j; rewrite Hwi; lia | reflexivity].
      - apply nth_error_None in Hw.
        destruct (Nat.eqb_spec j i); [lia | reflexivity]. }
    destruct (IH (S i) widths1) as (widths' & Hw & Hlen & Hnth).
    exists widths'. split; [exact Hw|]. split; [congruence|].
    intros j Hj. rewrite Hnth by lia. rewrite Hnth1 by exact Hj.
    destruct (Nat.eqb_spec j i) as [->|Hne].
    + destruct (Nat.leb_spec (S i) i); [lia|]. cbn [andb].
      destruct (Nat.leb_spec i i); [|lia].
      destruct (Nat.ltb_spec i (i + S (List.length row))); [|lia].
      cbn [andb]. rewrite Nat.sub_diag. reflexivity.
    + destruct (Nat.leb_spec (S i) j), (Nat.leb_spec i j),
        (Nat.ltb_spec j (S i + List.length row)),
        (Nat.ltb_spec j (i + S (List.length row)));
        cbn [andb]; try lia; try reflexivity.
      replace (j - i) with (S (j - S i)) by lia. reflexivity.
Qed.

Lemma fold_max_column (f : list string -> nat) rows w :
  fold_left (fun w row => Nat.max w (f row)) rows w
  = Nat.max w (fold_right (fun row w => Nat.max (f row) w) 0 rows).
Proof.
  revert w. induction rows as [|row rows IH]; intros w; simpl.
  - lia.
  - rewrite IH. lia.
Qed.

Lemma widen_rows_defined rows :
  forall widths,
  exists widths',
    widen_rows (List.map (List.map Some) rows) widths = Ok widths'
    /\ List.length widths' = List.length widths
    /\ forall j,
        j < List.length widths ->
        nth j widths' 0 = Nat.max (nth j widths 0) (column_width j rows).
Proof.
  induction rows as [|row rows IH]; intros widths.
  - exists widths. simpl. repeat split. intros j _. unfold column_width.
    simpl. lia.
  - simpl. destruct (widen_row_defined row 0 widths) as (w1 & Hw1 & Hl1 & Hn1).
    rewrite Hw1. destruct (IH w1) as (w2 & Hw2 & Hl2 & Hn2).
    exists w2. split; [exact Hw2|]. split; [congruence|].
    intros j Hj. rewrite Hn2 by lia. rewrite Hn1 by exact Hj.
    unfold column_width. simpl. rewrite Nat.sub_0_r.
    destruct (Nat.ltb_spec j (List.length row)).
    + lia.
    + rewrite (nth_overflow row "") by lia. simpl. lia.
Qed.

Lemma nth_zeros {A} (l : list A) j : nth j (List.map (fun _ => 0) l) 0 = 0.
Proof. revert j. induction l; intros [|j]; simpl; auto. Qed.

Lemma pad_cells_defined rows widths row :
  forall i,
    (forall j, i <= j < i + List.length row ->
               nth j widths 0 = column_width j rows) ->
    pad_cells (List.map Some row) i widths = Ok (aligned_from rows i row).
Proof.
  induction row as [|c row IH]; intros i Hw; simpl; [reflexivity|].
  rewrite IH by (intros j Hj; apply Hw; simpl; lia).
  unfold aligned_cell, JsString.padEnd, JsString.padStart.
  rewrite Hw by (simpl; lia).
  destruct (Nat.eqb i 0); reflexivity.
Qed.

Lemma table_lines_defined rows widths some :
  (forall row j, In row some -> j < List.length row ->
                 nth j widths 0 = column_width j rows) ->
  table_lines (List.map (List.map Some) some) widths
  = Ok (List.map (fun row => JsString.join (String "009" "")
                               (aligned_from rows 0 row)) some).
Proof.
  induction some as [|row some IH]; intros Hw; simpl; [reflexivity|].
  rewrite (pad_cells_defined rows widths row 0)
    by (intros j Hj; apply (Hw row); [left; reflexivity | lia]).
  rewrite IH by (intros r j Hr Hj; apply (Hw r); [right; exact Hr | exact Hj]).
  reflexivity.
Qed.

(** A table of defined cells, no row longer than the first, is laid
    out as [aligned_table] says. *)
Lemma render_table_defined first rest :
  (forall row, In row rest -> List.length row <= List.length first) ->
  render_table (List.map (List.map Some) (first :: rest))
  = Ok (aligned_table (first :: rest)).
Proof.
  intros Hlen. unfold render_table, columnWidths.
  destruct (widen_rows_defined (first :: rest)
              (List.map (fun _ : Cell => 0) (List.map Some first)))
    as (widths & Hw & Hl & Hn).
  cbn [List.map] in *. rewrite Hw.
  change (List.map Some first :: List.map (List.map Some) rest)
    with (List.map (List.map Some) (first :: rest)).
  rewrite (table_lines_defined (first :: rest) widths (first :: rest)).
  - reflexivity.
  - intros row j Hin Hj. rewrite !length_map in Hn. rewrite Hn.
    + rewrite nth_zeros. reflexivity.
    + destruct Hin as [<-|Hin]; [exact Hj|].
      specialize (Hlen row Hin). lia.
Qed.

Lemma cell_fits rows row j c :
  In row rows -> nth_error row j = Some c ->
  String.length c <= column_width j rows.
Proof.
  intros Hin Hnth. induction rows as [|r rows IH]; [destruct Hin|].
  unfold column_width in *. simpl. destruct Hin as [->|Hin].
  - rewrite (nth_error_nth _ _ "" Hnth). lia.
  - specialize (IH Hin). lia.
Qed.

Lemma aligned_cell_length rows row j c :
  In row rows -> nth_error row j = Some c ->
  String.length (aligned_cell rows j c) = column_width j rows.
Proof.
  intros Hin Hnth. pose proof (cell_fits rows row j c Hin Hnth) as Hfit.
  unfold aligned_cell.
  destruct (Nat.eqb j 0);
    rewrite JsStringFacts.length_append, JsStringFacts.length_spaces; lia.
Qed.

Lemma statLines_defined groups :
  (forall g, In g groups -> name g <> None) ->
  statLines groups = List.map (List.map Some) (report_rows groups).
Proof.
  intros Hall. unfold statLines, report_rows. cbn [List.map]. f_equal.
  rewrite map_map. apply map_ext_in. intros g Hin.
  unfold stat_line, text_row, name_text.
  destruct (name g) eqn:E; [reflexivity|].
  exfalso. exact (Hall g Hin E).
Qed.

Lemma render_report_rows groups :
  (forall g, In g groups -> name g <> None) ->
  render_table (statLines groups) = Ok (aligned_table (report_rows groups)).
Proof.
  intros Hall. rewrite (statLines_defined groups Hall).
  unfold report_rows at 1. apply render_table_defined.
  intros row Hin. apply in_map_iff in Hin. destruct Hin as (g & <- & _).
  simpl. lia.
Qed.

(** C2, as the code has it.  Whenever the report is rendered, the table
    is the rows joined by newlines and the cells of a row joined by one
    tab; the cell of the first column is the name followed by spaces, the
    cells of the other columns are spaces followed by the value, and
    every padded cell is as long as the widest cell of its column, the
    header included.  The report is rendered for the stats of a pass
    when each of them has a package. *)
Theorem C2_columns_are_aligned (l : list FileStat) :
  (forall table,
      report l = Ok table ->
      exists groups,
        sorted_groups l = Ok groups
        /\ table = aligned_table (report_rows groups)
        /\ forall row j c,
            In row (report_rows groups) ->
            nth_error row j = Some c ->
            let width := column_width j (report_rows groups) in
            String.length c <= width
            /\ String.length (aligned_cell (report_rows groups) j c) = width
            /\ aligned_cell (report_rows groups) j c
               = if Nat.eqb j 0
                 then c +++ JsString.spaces (width - String.length c)
                 else JsString.spaces (width - String.length c) +++ c)
  /\ (Forall compile_timed l ->
      (forall st, In st l -> packagename st <> None) ->
      exists table, report l = Ok table).
Proof.
  split.
  - intros table. unfold report.
    destruct (sorted_groups l) as [groups|e]; [|discriminate].
    intros Hrender. exists groups. split; [reflexivity|].
    assert (Hall : forall g, In g groups -> name g <> None).
    { intros g Hin Hnone.
      rewrite render_table_undefined_name in Hrender; [discriminate|].
      rewrite <- Hnone. apply in_map. exact Hin. }
    rewrite (render_report_rows groups Hall) in Hrender.
    injection Hrender as <-. split; [reflexivity|].
    intros row j c Hin Hnth. cbv zeta. split; [|split].
    + exact (cell_fits _ row j c Hin Hnth).
    + exact (aligned_cell_length _ row j c Hin Hnth).
    + reflexivity.
  - intros Htimed Hnamed.
    destruct (group_stats_total l Htimed []) as [grouped Hg].
    assert (Hs : sorted_groups l = Ok (sort by_count (Obj.values grouped))).
    { unfold sorted_groups. rewrite Hg. reflexivity. }
    exists (aligned_table (report_rows (sort by_count (Obj.values grouped)))).
    unfold report. rewrite Hs. apply render_report_rows.
    intros g Hin Hnone.
    destruct (sorted_groups_report l _ Hs) as (_ & _ & Hnames & _).
    destruct (Hnames g Hin) as (st & Hst & Hname).
    apply filter_In in Hst. apply (Hnamed st (proj1 Hst)). congruence.
Qed.

(** ** A lookup that finds no manifest *)

Lemma nth_error_set_packagename_other i j n l :
  i <> j -> nth_error (set_packagename j n l) i = nth_error l i.
Proof.
  revert i j. induction l as [|st l IH]; intros [|i] [|j] Hne; simpl;
    try reflexivity; try congruence.
  apply IH. congruence.
Qed.

Lemma in_combine_seq (l : list FileStat) j file :
  forall i0,
    In (j, file) (combine (seq i0 (List.length l)) (List.map filename l)) ->
    exists st, nth_error l (j - i0) = Some st /\ filename st = file /\ i0 <= j.
Proof.
  induction l as [|st l IH]; intros i0 Hin; simpl in Hin; [destruct Hin|].
  destruct Hin as [H|Hin].
  - injection H as <- <-. exists st. rewrite Nat.sub_diag. auto.
  - destruct (IH (S i0) Hin) as (st' & Hnth & Hfile & Hle).
    exists st'. replace (j - i0) with (S (j - S i0)) by lia.
    simpl. repeat split; auto. lia.
Qed.

Lemma in_settlement order pending p :
  In p (settlement order pending) -> In p pending.
Proof.
  unfold settlement. intros Hin. apply in_app_or in Hin.
  destruct Hin as [Hin|Hin].
  - apply in_flat_map in Hin. destruct Hin as (i & _ & Hin).
    apply filter_In in Hin. exact (proj1 Hin).
  - apply filter_In in Hin. exact (proj1 Hin).
Qed.

Lemma settle_all_miss l i st :
  (forall file, In (i, file) l -> findClosestPkgJsonPath host file = None) ->
  forall r,
    nth_error (stats (snd r)) i = Some st ->
    nth_error (stats (snd (snd (settle_all host l r)))) i = Some st.
Proof.
  induction l as [|[j file] l IH]; intros Hmiss r Hnth; simpl; [exact Hnth|].
  destruct (resolve_settled host j (findClosestPkgJsonPath host file) r)
    as [res r1] eqn:Hr.
  assert (H1 : nth_error (stats (snd r1)) i = Some st).
  { destruct r as [packages s]. unfold resolve_settled in Hr.
    destruct (findClosestPkgJsonPath host file) as [p|] eqn:Hp;
      [|injection Hr as <- <-; exact Hnth].
    destruct (String.eqb p ""); [injection Hr as <- <-; exact Hnth|].
    destruct (readFileSync host p); [|injection Hr as <- <-; exact Hnth].
    destruct (JSON_parse_name host _);
      [|injection Hr as <- <-; exact Hnth].
    injection Hr as <- <-. simpl in *.
    rewrite nth_error_set_packagename_other; [exact Hnth|].
    intros ->. rewrite (Hmiss file) in Hp by (left; reflexivity).
    discriminate. }
  specialize (IH (fun f Hin => Hmiss f (or_intror Hin)) r1 H1).
  destruct (settle_all host l r1) as [err r2]. exact IH.
Qed.

Lemma stats_fold_log fs s :
  stats (fold_left (fun s f => log_lookup f s) fs s) = stats s.
Proof. revert s. induction fs; intros s; simpl; [reflexivity | rewrite IHfs; reflexivity]. Qed.

(** The stat of a file whose lookup finds no manifest is left as it
    was, whatever the order in which the lookups settle. *)
Lemma resolve_packages_miss order s i st :
  nth_error (stats s) i = Some st ->
  findClosestPkgJsonPath host (filename st) = None ->
  nth_error (stats (snd (resolve_packages host order s))) i = Some st.
Proof.
  intros Hnth Hmiss. unfold resolve_packages. rewrite start_all_unresolved.
  assert (H : nth_error
                (stats
                   (snd (snd (settle_all host
                                (settlement order
                                   (combine (seq 0 (List.length (stats s)))
                                      (List.map filename (stats s))))
                                ([], fold_left (fun s f => log_lookup f s)
                                       (List.map filename (stats s)) s)))))
                i = Some st).
  { apply settle_all_miss.
    - intros file Hin. apply in_settlement in Hin.
      destruct (in_combine_seq _ _ _ _ Hin) as (st' & Hst' & Hfile & _).
      rewrite Nat.sub_0_r, Hnth in Hst'. injection Hst' as <-.
      rewrite <- Hfile. exact Hmiss.
    - simpl. rewrite stats_fold_log. exact Hnth. }
  destruct (settle_all host _ _) as [err [pk s']]. simpl in H.
  destruct err; exact H.
Qed.

(** The report of stats among which one has no package, and none is
    of a package called [undefined], is not rendered. *)
Lemma report_without_package l :
  (exists st, In st l /\ packagename st = None) ->
  (forall st, In st l -> packagename st <> Some "undefined") ->
  exists e, report l = Throw e.
Proof.
  intros (st & Hst & Hnone) Hnames. unfold report.
  destruct (sorted_groups l) as [groups|e] eqn:Hs; [|exists e; reflexivity].
  exists length_error. apply render_table_undefined_name.
  destruct (sorted_groups_report l groups Hs) as (_ & Hkeys & Hnamed & _).
  assert (Hk : In "undefined"
                 (List.map (fun g => property_key (name g)) groups)).
  { apply Hkeys. apply in_map_iff. exists st.
    split; [unfold key_of; rewrite Hnone; reflexivity|].
    apply filter_In. split; [exact Hst|].
    unfold counted, key_of. rewrite Hnone. reflexivity. }
  apply in_map_iff in Hk. destruct Hk as (g & Hkey & Hg).
  apply in_map_iff. exists g. split; [|exact Hg].
  destruct (Hnamed g Hg) as (st' & Hst' & Hname).
  apply filter_In in Hst'.
  destruct (name g) as [nm|] eqn:E; [|reflexivity].
  simpl in Hkey. subst nm. exfalso.
  apply (Hnames st' (proj1 Hst')). congruence.
Qed.

End WithNumber.

(** ** On the sample inputs *)

Import EsbuildSamples.

#[local] Existing Instance QNumber.number.



Lemma three_stats_timed : Forall compile_timed three_stats.
Proof. repeat constructor; eexists; eexists; reflexivity. Defined.

Lemma C2_columns_are_aligned_witness :
  (exists table, report three_stats = Ok table)
  /\ exists groups,
      sorted_groups three_stats = Ok groups
      /\ report three_stats = Ok (aligned_table (report_rows groups)).
Proof.
  pose proof (C2_columns_are_aligned three_stats) as [Hlayout Hrendered].
  destruct Hrendered as [table Htable].
  - exact three_stats_timed.
  - intros st [<-|[<-|[<-|[]]]]; discriminate.
  - split; [exists table; exact Htable|].
    destruct (Hlayout table Htable) as (groups & Hg & Ht & _).
    exists groups. split; [exact Hg|]. rewrite <- Ht. exact Htable.
Defined.

(** C2 as stated fails: the name column is padded after the name and
    the numeric columns are padded before the value, so the table is not
    the one with the padding on the sides that the claim gives. *)
Lemma C2_counterexample :
  exists groups table,
    sorted_groups three_stats = Ok groups
    /\ report three_stats = Ok table
    /\ table = aligned_table (report_rows groups)
    /\ aligned_cell (report_rows groups) 0 "b" = "b      "
    /\ specified_cell (report_rows groups) 0 "b" = "      b"
    /\ aligned_cell (report_rows groups) 1 "1" = "    1"
    /\ specified_cell (report_rows groups) 1 "1" = "1    "
    /\ table <> specified_table (report_rows groups).
Proof.
  exists [group "pkg-a" 2 (13 # 2); group "b" 1 5].
  exists (match report three_stats with Ok t => t | Throw _ => "" end).
  split; [reflexivity|].
  split; [vm_compute; reflexivity|].
  repeat (split; [vm_compute; reflexivity|]).
  intros H. vm_compute in H. discriminate H.
Qed.

(** C3 fails on the code.  The stat of a file without a manifest is
    left as it was, its [packagename] unset; and then the report of the
    pass cannot be rendered: the group of such stats has no name, and
    measuring the columns throws on the [undefined] cell.  No stats
    table is logged. *)
Theorem C3_missing_manifest_breaks_report :
  (forall (N : Number) (host : Host) (order : list nat) (s : State) i st,
      nth_error (stats s) i = Some st ->
      findClosestPkgJsonPath host (filename st) = None ->
      nth_error (stats (snd (resolve_packages host order s))) i = Some st)
  /\ (forall (N : Number) (l : list FileStat),
      (exists st, In st l /\ packagename st = None) ->
      (forall st, In st l -> packagename st <> Some "undefined") ->
      exists e, report l = Throw e)
  /\ (forall (N : Number) (groups : list PackageStats),
        In None (List.map name groups) ->
        render_table (statLines groups) = Throw length_error)
  /\ let r := onEnd host false [] one_file_without_manifest in
     findClosestPkgJsonPath host "/tmp/Y.svelte" = None
     /\ List.map packagename (stats (snd r)) = [Some "pkg-a"; None]
     /\ List.map name
          (match sorted_groups (stats (snd r)) with
           | Ok groups => groups
           | Throw _ => []
           end) = [Some "pkg-a"; None]
     /\ fst r = Throw length_error
     /\ output (snd r)
        = [InfoProgress
             "prebundling svelte dependencies - ssr: false files:    2 duration: 36.0ms - done"
             true].
Proof.
  split; [intros N h order s i st; apply resolve_packages_miss|].
  split; [intros N l; apply report_without_package|].
  split; [intros N groups; apply render_table_undefined_name|].
  repeat split.
Qed.

(** C4 fails on the code.  Every callback of [stats.map] runs up to its
    [await] before any lookup settles, while [packages] is still empty;
    so every file is looked up, also two files of one package. *)
Theorem C4_every_file_is_looked_up :
  (forall (N : Number) (host : Host) (order : list nat) (s : State),
      lookups (snd (resolve_packages host order s))
      = lookups s ++ List.map filename (stats s))
  /\ let r := onEnd host false [] two_files_one_package in
     lookups (snd r) = ["/a/X.svelte"; "/a/Y.svelte"]
     /\ List.map packagename (stats (snd r)) = [Some "pkg-a"; Some "pkg-a"]
     /\ JsString.strip_package_json "/a/package.json" = "/a/"
     /\ JsString.startsWith "/a/X.svelte" "/a/" = true
     /\ JsString.startsWith "/a/Y.svelte" "/a/" = true.
Proof.
  split; [intros; apply resolve_packages_lookups|].
  repeat split.
Qed.

Lemma C5_failed_compile_is_reported_not_counted_witness :
  fst (onLoad host options false "/a/<oops.svelte" setup_state)
  = Ok (Errors [{| text := "Unexpected token"; detail := "ParseError" |}])
  /\ stats (snd (onLoad host options false "/a/<oops.svelte" setup_state))
     = [].
Proof.
  apply (C5_failed_compile_is_reported_not_counted host options false
           "/a/<oops.svelte" "<!-- /a/<oops.svelte -->" setup_state
           {| kind := "ParseError"; message := Some "Unexpected token" |});
    reflexivity.
Defined.

Lemma constructor_stats_timed : Forall compile_timed constructor_stats.
Proof. repeat constructor; eexists; eexists; reflexivity. Defined.

(** The two packages of [constructor_stats] give one group. *)
Lemma constructor_stats_groups :
  sorted_groups constructor_stats = Ok [group "b" 1 5].
Proof. reflexivity. Qed.

Lemma C7_inherited_name_gets_no_group_witness :
  exists groups,
    sorted_groups constructor_stats = Ok groups
    /\ ~ In (key_of (stat "/c/V.svelte" (Some "constructor") 5 6))
           (List.map (fun g => property_key (name g)) groups)
    /\ list_sum (List.map count groups) < List.length constructor_stats
    /\ List.length (statLines groups)
       < S (List.length
              (nodup string_dec (List.map key_of constructor_stats))).
Proof.
  apply (C7_inherited_name_gets_no_group constructor_stats
           (stat "/c/V.svelte" (Some "constructor") 5 6)).
  - exact constructor_stats_timed.
  - left. reflexivity.
  - reflexivity.
Defined.

Lemma uneven_clock_truthy k : truthy (performance_now uneven_host k) = true.
Proof.
  do 14 (destruct k as [|k]; [reflexivity|]). destruct k; reflexivity.
Defined.

Lemma C9_progress_is_throttled_witness :
  List.map logged
    (progress_calls uneven_host options false one_pass_events
       (snd (onStart uneven_host setup_state)))
  = [false; true; false; true; true]
  /\ forall before c after,
      progress_calls uneven_host options false one_pass_events
        (snd (onStart uneven_host setup_state))
      = before ++ c :: after ->
      logged c
      = is_done c
        || match last_logged before with
           | Some t => ngtb (nsub (at_time c) t) (of_nat 200)
           | None => ngtb (nsub (at_time c) (uneven_clock 0)) (of_nat 2000)
           end.
Proof.
  split; [reflexivity|].
  apply (C9_progress_is_throttled uneven_host options false setup_state
           one_pass_events uneven_clock_truthy eq_refl).
Defined.

End EsbuildFacts.

(* ================================================================== *)
(** * Further properties of the string operations                      *)
(* ================================================================== *)

Module JsStringMore.

Import JsString.

Lemma substring_append_skip pre t i m :
  String.substring (String.length pre + i) m (pre +++ t)
  = String.substring i m t.
Proof. induction pre as [|a pre IH]; simpl; [reflexivity | exact IH]. Qed.

Lemma get_append_skip pre t i :
  String.get (String.length pre + i) (pre +++ t) = String.get i t.
Proof. induction pre as [|a pre IH]; simpl; [reflexivity | exact IH]. Qed.

Lemma substring_prefix pre t :
  String.substring 0 (String.length pre) (pre +++ t) = pre.
Proof.
  induction pre as [|a pre IH]; simpl.
  - destruct t; reflexivity.
  - rewrite IH. reflexivity.
Qed.

Lemma substring_all s : String.substring 0 (String.length s) s = s.
Proof. induction s as [|a s IH]; simpl; [|rewrite IH]; reflexivity. Qed.

Lemma substring_split s :
  forall m,
    m <= String.length s ->
    s = String.substring 0 m s
        +++ String.substring m (String.length s - m) s.
Proof.
  induction s as [|a s IH]; intros [|m] Hm; simpl in *; try lia.
  - reflexivity.
  - rewrite substring_all. reflexivity.
  - rewrite <- (IH m) by lia. reflexivity.
Qed.

(** [s.endsWith(suffix)] holds exactly of the strings made of some text
    followed by [suffix]. *)
Lemma endsWith_spec s suffix :
  endsWith s suffix = true <-> exists pre, s = pre +++ suffix.
Proof.
  unfold endsWith. split.
  - intros H. apply andb_prop in H. destruct H as [Hle Heq].
    apply Nat.leb_le in Hle. apply String.eqb_eq in Heq.
    exists (String.substring 0 (String.length s - String.length suffix) s).
    pose proof (substring_split s
                  (String.length s - String.length suffix)) as Hsplit.
    replace (String.length s - (String.length s - String.length suffix))
      with (String.length suffix) in Hsplit by lia.
    rewrite Heq in Hsplit. apply Hsplit. lia.
  - intros [pre ->]. rewrite JsStringFacts.length_append.
    apply andb_true_intro. split; [apply Nat.leb_le; lia|].
    replace (String.length pre + String.length suffix - String.length suffix)
      with (String.length pre + 0) by lia.
    rewrite substring_append_skip, substring_all. apply String.eqb_refl.
Qed.

(** X11.  [pkgPath.replace(/package.json$/, '')] removes a final
    [package.json] and gives the directory with its separator.  The dot
    of the pattern is not escaped: the last twelve characters are also
    removed when any character but a line terminator stands in place of
    the dot, and the path is left whole when a line terminator does. *)
Theorem strip_package_json_directory (dir : string) (c : ascii) :
  strip_package_json (dir +++ "package.json") = dir
  /\ strip_package_json (dir +++ "package" +++ String c "json")
     = if dot_matches c then dir
       else dir +++ "package" +++ String c "json".
Proof.
  assert (H : forall c',
             strip_package_json (dir +++ "package" +++ String c' "json")
             = if dot_matches c' then dir
               else dir +++ "package" +++ String c' "json").
  { intros c'. unfold strip_package_json, ends_with_package_json.
    rewrite JsStringFacts.length_append.
    change (String.length ("package" +++ String c' "json")) with 12.
    replace (String.length dir + 12 - 12) with (String.length dir + 0)
      by lia.
    replace (String.length dir + 12 - 5) with (String.length dir + 7)
      by lia.
    replace (String.length dir + 12 - 4) with (String.length dir + 8)
      by lia.
    rewrite !substring_append_skip, get_append_skip.
    replace (12 <=? String.length dir + 12) with true
      by (symmetry; apply Nat.leb_le; lia).
    cbn [String.substring String.get append String.eqb Ascii.eqb
         Bool.eqb andb].
    simpl. destruct (dot_matches c'); [|reflexivity].
    rewrite Nat.add_0_r. apply substring_prefix. }
  split; [|apply H]. exact (H "."%char).
Qed.

End JsStringMore.

(* ================================================================== *)
(** * Further properties of preprocess.js                              *)
(* ================================================================== *)

Module PreprocessMore.

Import Preprocess.

(** ** The style hook *)

Lemma includes_member langs l :
  includes langs l = true ->
  exists s, l = Some (AttrString s) /\ In s langs.
Proof.
  destruct l as [[s|b]|]; simpl; try discriminate.
  intros H. apply existsb_exists in H. destruct H as (x & Hin & Heq).
  apply String.eqb_eq in Heq. subst x. exists s. auto.
Qed.

(** X12.  When the style hook returns a result, the transform was
    called on the content under the module id
    [<filename>.vite-preprocess.<lang>], [lang] being the supported tag
    of the block; the map of the result is the returned map passed
    through [removeLangSuffix] and then [mapToRelative]; and the
    dependencies are the returned ones, in their order, without those
    that end in [.vite-preprocess.<lang>], so that the module id itself
    is never among them.  No dependencies are reported when the
    transform returns none. *)
Theorem style_result_of_transform (v : Vite) (h : StyleHook) (b : Block)
    (p : Processed) :
  fst (style v h b) = Ok (Some p) ->
  exists l t res,
    lang b = Some (AttrString l)
    /\ In l supportedStyleLangs
    /\ transform (snd (style v h b)) = Some t
    /\ call_transform v t (content b)
         (filename_of b +++ ".vite-preprocess." +++ l) = Ok res
    /\ code p = css_code res
    /\ map p
       = mapToRelative v
           (removeLangSuffix v (css_map res) (".vite-preprocess." +++ l))
           (filename_of b)
    /\ match css_deps res with
       | None => dependencies p = None
       | Some deps =>
           exists ds,
             dependencies p = Some ds
             /\ ds = filter
                       (fun d => negb (JsString.endsWith d
                                         (".vite-preprocess." +++ l))) deps
             /\ (forall d, In d ds <->
                   In d deps
                   /\ ~ exists pre, d = pre +++ ".vite-preprocess." +++ l)
             /\ ~ In (filename_of b +++ ".vite-preprocess." +++ l) ds
       end.
Proof.
  intros Hres.
  destruct (includes supportedStyleLangs (lang b)) eqn:Hsup.
  2:{ rewrite (PreprocessFacts.style_unsupported v h b Hsup) in Hres.
      discriminate. }
  destruct (includes_member _ _ Hsup) as (l & Hl & Hin).
  destruct (PreprocessFacts.style_supported v h b Hsup)
    as [(t & Ht & Hfin) | (e & _ & _ & Hthrow)].
  2:{ rewrite Hthrow in Hres. discriminate. }
  assert (Hsuf : suffix_of b = ".vite-preprocess." +++ l)
    by (unfold suffix_of; rewrite Hl; reflexivity).
  rewrite Hfin in Hres. unfold finish_transform, moduleId_of in Hres.
  rewrite Hsuf in Hres.
  destruct (call_transform v t (content b)
              (filename_of b +++ ".vite-preprocess." +++ l))
    as [res|e] eqn:Hcall; [|discriminate].
  unfold style_transform_settled in Hres. rewrite Hsuf in Hres.
  injection Hres as <-.
  exists l, t, res.
  split; [exact Hl|]. split; [exact Hin|]. split; [exact Ht|].
  split; [exact Hcall|]. split; [reflexivity|]. split; [reflexivity|].
  simpl. destruct (css_deps res) as [deps|]; [|reflexivity].
  eexists. split; [reflexivity|]. split; [reflexivity|].
  assert (Hmem : forall d,
             In d (filter
                     (fun d => negb (JsString.endsWith d
                                       (".vite-preprocess." +++ l))) deps)
             <-> In d deps
                 /\ ~ exists pre, d = pre +++ ".vite-preprocess." +++ l).
  { intros d. rewrite filter_In, <- JsStringMore.endsWith_spec.
    destruct (JsString.endsWith d (".vite-preprocess." +++ l)); simpl;
      intuition congruence. }
  split; [exact Hmem|].
  intros Hself. apply Hmem in Hself. destruct Hself as [_ Hnot].
  apply Hnot. exists (filename_of b). reflexivity.
Qed.

(** ** On the sample inputs *)

Lemma style_result_of_transform_witness :
  exists l t res,
    lang StyleSamples.scss_block = Some (AttrString l)
    /\ In l supportedStyleLangs
    /\ call_transform StyleSamples.vite t (content StyleSamples.scss_block)
         (filename_of StyleSamples.scss_block +++ ".vite-preprocess." +++ l)
       = Ok res
    /\ match css_deps res with
       | None => True
       | Some deps =>
           ~ In (filename_of StyleSamples.scss_block
                 +++ ".vite-preprocess." +++ l)
               (filter
                  (fun d => negb (JsString.endsWith d
                                    (".vite-preprocess." +++ l))) deps)
       end.
Proof.
  destruct (style_result_of_transform StyleSamples.vite (viteStyle None)
              StyleSamples.scss_block
              {| code := "resolved :a{b{c:d}}"; map := None;
                 dependencies := Some ["/src/vars.scss"] |} eq_refl)
    as (l & t & res & Hl & Hin & _ & Hcall & _ & _ & Hdeps).
  exists l, t, res. split; [exact Hl|]. split; [exact Hin|].
  split; [exact Hcall|].
  destruct (css_deps res) as [deps|]; [|exact I].
  destruct Hdeps as (ds & _ & -> & _ & Hself). exact Hself.
Defined.

End PreprocessMore.


(* ================================================================== *)
(** * Further properties of the object operations                      *)
(* ================================================================== *)

Module ObjMore.

Section Objects.

Variable V : Type.
Implicit Types (a b : Obj.t V) (k : string).

Lemma get_absent k b : ~ In k (List.map fst b) -> Obj.get k b = None.
Proof.
  induction b as [|[k1 v1] b IH]; simpl; intros Hnot; [reflexivity|].
  destruct (String.eqb_spec k k1); [exfalso; auto|]. apply IH. auto.
Qed.

(** In [{ ...a, ...b }] a field of [b] hides the field of [a]. *)
Lemma get_spread k a b :
  NoDup (List.map fst b) ->
  Obj.get k (Obj.spread a b)
  = match Obj.get k b with
    | Some v => Some v
    | None => Obj.get k a
    end.
Proof.
  unfold Obj.spread. revert a.
  induction b as [|[k1 v1] b IH]; intros a Hnd; simpl; [reflexivity|].
  inversion Hnd as [|? ? Hnotin Hrest]; subst. rewrite (IH _ Hrest).
  destruct (String.eqb_spec k k1) as [->|Hne].
  - rewrite (get_absent k1 b Hnotin). apply ObjFacts.get_set_same.
  - rewrite ObjFacts.get_set_other by congruence. reflexivity.
Qed.

(** A new property goes last; a property that is set again keeps its
    place. *)
Lemma keys_set_order k (v : V) a :
  List.map fst (Obj.set k v a)
  = if existsb (String.eqb k) (List.map fst a)
    then List.map fst a
    else List.map fst a ++ [k].
Proof.
  induction a as [|[k1 v1] a IH]; simpl; [reflexivity|].
  destruct (String.eqb k k1); simpl; [reflexivity|].
  rewrite IH. destruct (existsb (String.eqb k) (List.map fst a)); reflexivity.
Qed.

Lemma fold_index_none a acc :
  (forall kv, In kv a -> Obj.array_index (fst kv) = None) ->
  fold_left
    (fun acc (kv : string * V) =>
       match Obj.array_index (fst kv) with
       | Some n => Obj.insert_index n kv acc
       | None => acc
       end) a acc = acc.
Proof.
  revert acc. induction a as [|kv a IH]; intros acc Hnone; simpl;
    [reflexivity|].
  rewrite (Hnone kv (or_introl eq_refl)). apply IH.
  intros kv' Hin. apply Hnone. right. exact Hin.
Qed.

(** Without array indices among the keys, [Object.values] lists the
    values in insertion order. *)
Lemma values_plain a :
  (forall kv, In kv a -> Obj.array_index (fst kv) = None) ->
  Obj.values a = List.map snd a.
Proof.
  intros Hnone. unfold Obj.values, Obj.ordered.
  rewrite (fold_index_none a [] Hnone). simpl. f_equal.
  induction a as [|kv a IH]; simpl; [reflexivity|].
  unfold Obj.is_index at 1. rewrite (Hnone kv (or_introl eq_refl)). simpl.
  f_equal. apply IH. intros kv' Hin. apply Hnone. right. exact Hin.
Qed.

End Objects.

Section Filters.

Variable A : Type.
Implicit Types (p q : A -> bool) (l : list A).

Lemma filter_none p l :
  (forall x, In x l -> p x = false) -> filter p l = [].
Proof.
  induction l as [|x l IH]; simpl; intros H; [reflexivity|].
  rewrite (H x (or_introl eq_refl)). apply IH. intros y Hy. apply H.
  right. exact Hy.
Qed.

Lemma filter_twice p q l :
  filter p (filter q l) = filter (fun x => q x && p x) l.
Proof.
  induction l as [|x l IH]; simpl; [reflexivity|].
  destruct (q x); simpl; [destruct (p x)|]; rewrite IH; reflexivity.
Qed.

Lemma filter_all_in p l :
  (forall x, In x l -> p x = true) -> filter p l = l.
Proof.
  induction l as [|x l IH]; simpl; intros H; [reflexivity|].
  rewrite (H x (or_introl eq_refl)), IH; [reflexivity|].
  intros y Hy. apply H. right. exact Hy.
Qed.

Lemma filter_all p l : (forall x, p x = true) -> filter p l = l.
Proof.
  intros H. induction l as [|x l IH]; simpl; [reflexivity|].
  rewrite H, IH. reflexivity.
Qed.

End Filters.

End ObjMore.

(* ================================================================== *)
(** * Further properties of utils/esbuild.ts                           *)
(* ================================================================== *)

Module EsbuildMore.

Import Esbuild EsbuildSpec MoreSpec.

Section WithNumber.

Context {N : Number}.
Variable host : Host.
Variable options : ResolvedOptions.
Variable ssr : bool.

(** ** duration *)

Lemma findIndex_spec {A} (p : A -> bool) (l : list A) :
  (findIndex p l = (-1)%Z /\ forall x, In x l -> p x = false)
  \/ exists i x, findIndex p l = Z.of_nat i /\ first_at p l i x.
Proof.
  induction l as [|x l IH]; simpl.
  - left. split; [reflexivity | intros y []].
  - destruct (p x) eqn:Hp.
    + right. exists 0, x. split; [reflexivity|].
      repeat split; auto. intros j y Hj. lia.
    + destruct IH as [[Hm Hall] | (i & y & Hi & Hnth & Hy & Hbefore)].
      * left. rewrite Hm. simpl. split; [reflexivity|].
        intros z [<-|Hz]; auto.
      * right. exists (S i), y. rewrite Hi.
        replace (Z.of_nat i <? 0)%Z with false
          by (symmetry; apply Z.ltb_ge; lia).
        split; [lia|]. repeat split; auto.
        intros [|j] z Hj Hz; simpl in Hz.
        -- injection Hz as <-. exact Hp.
        -- apply (Hbefore j z); [lia | exact Hz].
Qed.

Lemma at_index_of_nat {A} (l : list A) (i : nat) :
  at_index l (Z.of_nat i) = nth_error l i.
Proof.
  unfold at_index.
  replace (Z.of_nat i <? 0)%Z with false by (symmetry; apply Z.ltb_ge; lia).
  rewrite Nat2Z.id. reflexivity.
Qed.

(** X1.  Without [from], [duration] returns the reading of the first
    timestamp labelled [to] minus the reading of the timestamp just
    before it.  It throws a [TypeError] exactly when no timestamp is
    labelled [to] (in particular on an empty list) or when the first one
    is at index 0. *)
Theorem duration_since_previous (tss : list TimeStamp) (to : string) :
  match duration tss to None with
  | Ok d =>
      exists i a b,
        first_at (labelled to) tss (S i) b
        /\ nth_error tss i = Some a
        /\ d = nsub (ts b) (ts a)
  | Throw e =>
      e = ts_error
      /\ ((forall t, In t tss -> labelled to t = false)
          \/ exists b, first_at (labelled to) tss 0 b)
  end.
Proof.
  unfold duration.
  change (fun t : TimeStamp => String.eqb (event t) to) with (labelled to).
  destruct (findIndex_spec (labelled to) tss)
    as [[Hm Hall] | (i & b & Hi & Hfirst)].
  - rewrite Hm. simpl. split; [reflexivity | left; exact Hall].
  - rewrite Hi, at_index_of_nat. destruct Hfirst as (Hnth & Hb & Hbefore).
    rewrite Hnth. simpl. destruct i as [|i].
    + simpl. split; [reflexivity|]. right. exists b. repeat split; auto.
    + replace (Z.of_nat (S i) - 1)%Z with (Z.of_nat i) by lia.
      rewrite at_index_of_nat.
      destruct (nth_error tss i) as [a|] eqn:Ha.
      * simpl. exists i, a, b. repeat split; auto.
      * exfalso. apply nth_error_None in Ha.
        assert (Hlt : S i < List.length tss)
          by (apply nth_error_Some; congruence).
        lia.
Qed.

(** X2.  With a label [from], [duration] returns the reading of the
    first timestamp labelled [to] minus the reading of the first one
    labelled [from], wherever the two stand; it throws exactly when one
    of the labels is absent.  An empty [from] counts as omitted. *)
Theorem duration_between (tss : list TimeStamp) (to from : string) :
  from <> "" ->
  duration tss to (Some "") = duration tss to None
  /\ match duration tss to (Some from) with
     | Ok d =>
         exists i j a b,
           first_at (labelled to) tss i b
           /\ first_at (labelled from) tss j a
           /\ d = nsub (ts b) (ts a)
     | Throw e =>
         e = ts_error
         /\ ((forall t, In t tss -> labelled to t = false)
             \/ (forall t, In t tss -> labelled from t = false))
     end.
Proof.
  intros Hfrom. split; [reflexivity|]. unfold duration.
  destruct (String.eqb_spec from ""); [contradiction|].
  change (fun t : TimeStamp => String.eqb (event t) to) with (labelled to).
  change (fun t : TimeStamp => String.eqb (event t) from)
    with (labelled from).
  destruct (findIndex_spec (labelled to) tss)
    as [[Hm Hall] | (i & b & Hi & Hto)].
  - rewrite Hm. simpl. split; [reflexivity | left; exact Hall].
  - rewrite Hi, at_index_of_nat. rewrite (proj1 Hto). simpl.
    destruct (findIndex_spec (labelled from) tss)
      as [[Hm Hall] | (j & a & Hj & Hf)].
    + rewrite Hm. simpl. split; [reflexivity | right; exact Hall].
    + rewrite Hj, at_index_of_nat. rewrite (proj1 Hf). simpl.
      exists i, j, a, b. repeat split; try apply Hto; try apply Hf.
Qed.

(** ** compileSvelte and onLoad *)

(** Case analysis on the calls of the collaborators in
    [compileSvelte]. *)
Ltac split_calls :=
  repeat (match goal with
          | |- context [match preprocess ?o with _ => _ end] =>
              destruct (preprocess o) eqn:?
          | |- context [match svelte_preprocess ?h ?a ?b ?c with _ => _ end] =>
              destruct (svelte_preprocess h a b c) as [[? [?|]]|?] eqn:?
          | |- context [match dynamicCompileOptions ?o with _ => _ end] =>
              destruct (dynamicCompileOptions o) eqn:?
          | f : DynamicArgs -> result (option CompileOptions)
            |- context [match ?g ?x with _ => _ end] =>
              constr_eq f g; destruct (f x) as [[?|]|?] eqn:?
          | |- context [if log_debug_enabled ?h then _ else _] =>
              destruct (log_debug_enabled h) eqn:?
          | |- context [match svelte_compile ?h ?a ?b with _ => _ end] =>
              destruct (svelte_compile h a b) eqn:?
          end; simpl).

(** What [compileSvelte] returns does not depend on the state of the
    pass, the timestamps or the clock. *)
Lemma compileSvelte_outcome file code tsl s :
  fst (compileSvelte host options ssr (takeTimestamp host) log_debug
         file code (tsl, s))
  = compile_outcome host options ssr file code.
Proof.
  unfold compile_outcome, compileSvelte, bind, ret, call, throw, try_catch,
    takeTimestamp, log_debug, quiet, now.
  split_calls; reflexivity.
Qed.

Lemma onLoad_grows (file : string) (s : State) :
  if load_succeeds host options ssr file
  then exists a b,
      stats (snd (onLoad host options ssr file s))
      = stats s ++ [{| filename := file; packagename := None;
                       timestamps :=
                         [{| event := "compileStart"; ts := a |};
                          {| event := "compiled"; ts := b |}] |}]
  else stats (snd (onLoad host options ssr file s)) = stats s.
Proof.
  unfold load_succeeds. rewrite EsbuildFacts.onLoad_unfold. cbv zeta.
  pose proof (EsbuildFacts.logProgress_closure host ssr false s)
    as (Hstats1 & _).
  destruct (readFileSync host file) as [code|e]; [|exact Hstats1].
  rewrite <- (compileSvelte_outcome file code []
                (snd (logProgress host ssr false s))).
  destruct (compileSvelte host options ssr (takeTimestamp host) log_debug
              file code ([], snd (logProgress host ssr false s)))
    as [r [tsl s2]] eqn:Hc.
  destruct (EsbuildFacts.compileSvelte_in_onLoad _ _ _ _ _ _ _ _ _ _ Hc)
    as [(Hstats2 & _) [_ Hts]].
  destruct r as [out|e]; simpl.
  - destruct (Hts out eq_refl) as (a & b & ->).
    exists a, b. rewrite Hstats2, Hstats1. reflexivity.
  - rewrite Hstats2. exact Hstats1.
Qed.

(** X3.  The answer of [onLoad] depends only on the file and the
    collaborators, not on the state of the pass: a read failure rejects
    the call (it is outside the [try]), a failure of [compileSvelte]
    becomes an error result, and otherwise the contents are returned.
    The stats grow by one stat for the file, with no package name yet,
    exactly when contents are returned. *)
Theorem onLoad_answer (file : string) (s : State) :
  fst (onLoad host options ssr file s)
  = match readFileSync host file with
    | Throw e => Throw e
    | Ok code =>
        match compile_outcome host options ssr file code with
        | Ok out => Ok (Contents out)
        | Throw e => Ok (Errors [toESBuildError host e options])
        end
    end
  /\ (if load_succeeds host options ssr file
      then exists a b,
          stats (snd (onLoad host options ssr file s))
          = stats s ++ [{| filename := file; packagename := None;
                           timestamps :=
                             [{| event := "compileStart"; ts := a |};
                              {| event := "compiled"; ts := b |}] |}]
      else stats (snd (onLoad host options ssr file s)) = stats s).
Proof.
  split; [|apply onLoad_grows].
  rewrite EsbuildFacts.onLoad_unfold. cbv zeta.
  destruct (readFileSync host file) as [code|e]; [|reflexivity].
  rewrite <- (compileSvelte_outcome file code []
                (snd (logProgress host ssr false s))).
  destruct (compileSvelte host options ssr (takeTimestamp host) log_debug
              file code ([], snd (logProgress host ssr false s)))
    as [[out|e] [tsl s2]]; reflexivity.
Qed.

(** ** Loads that overlap *)

Lemma filenames_set_packagename i n l :
  List.map filename (set_packagename i n l) = List.map filename l.
Proof.
  revert i. induction l as [|st l IH]; intros [|i]; simpl; try reflexivity.
  rewrite IH. reflexivity.
Qed.

(** [onEnd] keeps the files of the stats. *)
Lemma onEnd_filenames order s :
  List.map filename (stats (snd (onEnd host ssr order s)))
  = List.map filename (stats s).
Proof.
  apply (EsbuildFacts.onEnd_keeps host ssr
           (fun s' => List.map filename (stats s')
                      = List.map filename (stats s))); auto.
  intros i n s0 H0. simpl. rewrite filenames_set_packagename. exact H0.
Qed.

(** A call that is begun is going to return code exactly when the load
    of its file succeeds; it has not touched the stats. *)
Lemma load_call_expected file s :
  stats (snd (Loads.load_call host options ssr file s)) = stats s
  /\ Loads.going_to_push host options ssr
       (fst (Loads.load_call host options ssr file s))
     = if load_succeeds host options ssr file then [file] else [].
Proof.
  unfold Loads.load_call.
  pose proof (EsbuildFacts.logProgress_closure host ssr false s)
    as (Hstats & _).
  unfold load_succeeds, compile_outcome.
  destruct (readFileSync host file) as [code|e];
    [|split; [exact Hstats | reflexivity]].
  unfold compileSvelte, bind, ret, call, throw, try_catch, quiet.
  destruct (preprocess options) as [group|]; cbn [fst snd];
    (split; [exact Hstats|]).
  - destruct (svelte_preprocess host code group file) as [p|e];
      [|reflexivity].
    cbn [Loads.going_to_push]. unfold Loads.compiles, Loads.dynamic_answer,
      Loads.with_sourcemap.
    destruct p as [pc [m|]]; cbn [pcode pmap];
      destruct (dynamicCompileOptions options) as [hook|];
      try (destruct (hook _) as [[d|]|e]);
      try (destruct (log_debug_enabled host));
      cbn [fst snd];
      try (destruct (svelte_compile host _ _)); reflexivity.
  - unfold Loads.call_dynamic. cbn [Loads.going_to_push].
    unfold Loads.compiles, Loads.dynamic_answer.
    destruct (dynamicCompileOptions options) as [hook|];
      try (destruct (hook _) as [[d|]|e]);
      try (destruct (log_debug_enabled host));
      cbn [fst snd];
      try (destruct (svelte_compile host _ _)); reflexivity.
Qed.

(** A call that runs on either pushes its stat, when it was at its last
    suspension point and is to return code, or leaves the stats as they
    are and is going to return code as before. *)
Lemma load_resume_expected t s :
  List.map filename (stats (snd (Loads.load_resume host options ssr t s)))
  ++ Loads.going_to_push host options ssr
       (fst (Loads.load_resume host options ssr t s))
  = List.map filename (stats s) ++ Loads.going_to_push host options ssr t.
Proof.
  destruct t as [file code [p|e] | file finalCode compileOptions [dynamic|e]
                | file tsl [contents|e] | r]; cbn [Loads.load_resume fst snd];
    try reflexivity.
  - unfold takeTimestamp, now. cbn [Loads.going_to_push Loads.compiles].
    destruct (svelte_compile host finalCode _) as [compiled|e];
      destruct dynamic as [d|]; try destruct (log_debug_enabled host);
      reflexivity.
  - cbn [Loads.going_to_push]. unfold with_stats. cbn [stats].
    rewrite map_app, app_nil_r. reflexivity.
Qed.

Lemma set_nth_split {A} (l : list A) i (t x : A) :
  nth_error l i = Some t ->
  exists pre post,
    l = pre ++ t :: post /\ Preprocess.set_nth i x l = pre ++ x :: post.
Proof.
  revert i. induction l as [|y l IH]; intros [|i] H; simpl in H;
    try discriminate.
  - injection H as ->. exists [], l. split; reflexivity.
  - destruct (IH i H) as (pre & post & -> & Hset).
    exists (y :: pre), post. simpl. rewrite Hset. split; reflexivity.
Qed.

Lemma settled_going ts :
  forallb Loads.is_settled ts = true ->
  flat_map (Loads.going_to_push host options ssr) ts = [].
Proof.
  induction ts as [|t ts IH]; simpl; intros H; [reflexivity|].
  apply andb_prop in H. destruct H as [Ht Hts]. rewrite (IH Hts).
  destruct t; simpl in Ht; try discriminate. reflexivity.
Qed.

(** What an event that is not a call of [onStart] does to the files
    that the stats hold or are going to hold. *)
Lemma load_step_expected sys e :
  e <> Loads.Started ->
  Permutation
    (Loads.expected host options ssr (Loads.load_step host options ssr sys e))
    (Loads.expected host options ssr sys
     ++ filter (load_succeeds host options ssr) (Loads.begun [e])).
Proof.
  intros Hnot. unfold Loads.expected.
  destruct e as [file|i| |order]; [| | contradiction |].
  - cbn [Loads.load_step Loads.begun filter].
    destruct (load_call_expected file (Loads.closure sys)) as [Hstats Hgo].
    destruct (Loads.load_call host options ssr file (Loads.closure sys))
      as [t s']. cbn [fst snd Loads.closure Loads.loads] in *.
    rewrite Hstats, flat_map_app. cbn [flat_map]. rewrite app_nil_r, Hgo.
    rewrite <- app_assoc.
    destruct (load_succeeds host options ssr file); apply Permutation_refl.
  - cbn [Loads.load_step Loads.begun filter]. rewrite app_nil_r.
    destruct (nth_error (Loads.loads sys) i) as [t|] eqn:Hi;
      [|apply Permutation_refl].
    pose proof (load_resume_expected t (Loads.closure sys)) as Heq.
    destruct (Loads.load_resume host options ssr t (Loads.closure sys))
      as [t' s']. cbn [fst snd Loads.closure Loads.loads] in *.
    destruct (set_nth_split (Loads.loads sys) i t t' Hi)
      as (pre & post & Hl & ->).
    rewrite Hl, !flat_map_app. cbn [flat_map].
    set (go := Loads.going_to_push host options ssr) in *.
    apply (perm_trans
             (l' := (List.map filename (stats s') ++ go t')
                    ++ flat_map go pre ++ flat_map go post)).
    + rewrite <- !app_assoc. apply Permutation_app_head.
      rewrite !app_assoc. apply Permutation_app_tail.
      apply Permutation_app_comm.
    + rewrite Heq. rewrite <- !app_assoc. apply Permutation_app_head.
      rewrite !app_assoc. apply Permutation_app_tail.
      apply Permutation_app_comm.
  - cbn [Loads.load_step Loads.begun filter Loads.closure Loads.loads].
    rewrite app_nil_r, onEnd_filenames. apply Permutation_refl.
Qed.

Lemma begun_cons e es :
  Loads.begun (e :: es) = Loads.begun [e] ++ Loads.begun es.
Proof. destruct e; reflexivity. Qed.

Lemma fold_load_step_expected es :
  Loads.within_pass es = true ->
  forall sys,
    Permutation
      (Loads.expected host options ssr
         (fold_left (Loads.load_step host options ssr) es sys))
      (Loads.expected host options ssr sys
       ++ filter (load_succeeds host options ssr) (Loads.begun es)).
Proof.
  induction es as [|e es IH]; intros Hpass sys.
  - simpl. rewrite app_nil_r. apply Permutation_refl.
  - simpl in Hpass. apply andb_prop in Hpass. destruct Hpass as [He Hes].
    cbn [fold_left]. eapply perm_trans; [apply (IH Hes)|].
    rewrite (begun_cons e es), filter_app, app_assoc.
    apply Permutation_app_tail. apply load_step_expected.
    intros ->. discriminate.
Qed.

(** A call that nothing overlaps, run through its suspension points,
    is [onLoad] read as one step. *)
Lemma load_alone file s :
  let '(t0, s0) := Loads.load_call host options ssr file s in
  let '(t1, s1) := Loads.load_resume host options ssr t0 s0 in
  let '(t2, s2) := Loads.load_resume host options ssr t1 s1 in
  let '(t3, s3) := Loads.load_resume host options ssr t2 s2 in
  t3 = Loads.LoadSettled (fst (onLoad host options ssr file s))
  /\ s3 = snd (onLoad host options ssr file s).
Proof.
  rewrite EsbuildFacts.onLoad_unfold. cbv zeta. unfold Loads.load_call.
  destruct (readFileSync host file) as [code|e];
    [|split; reflexivity].
  unfold compileSvelte, bind, ret, call, throw, try_catch, takeTimestamp,
    log_debug, now, Loads.call_dynamic, Loads.dynamic_answer,
    Loads.with_sourcemap.
  destruct (preprocess options) as [group|].
  - destruct (svelte_preprocess host code group file) as [[pc [m|]]|e];
      cbn [Loads.load_resume Loads.call_dynamic pcode pmap fst snd];
      try (split; reflexivity);
      unfold Loads.call_dynamic, Loads.dynamic_answer, takeTimestamp, now;
      destruct (dynamicCompileOptions options) as [hook|];
      try (destruct (hook _) as [[d|]|e]);
      cbn [Loads.load_resume fst snd];
      try (destruct (log_debug_enabled host));
      cbn [fst snd];
      try (destruct (svelte_compile host _ _));
      split; reflexivity.
  - destruct (dynamicCompileOptions options) as [hook|];
      try (destruct (hook _) as [[d|]|e]);
      cbn [Loads.load_resume fst snd];
      unfold takeTimestamp, now;
      try (destruct (log_debug_enabled host));
      cbn [fst snd];
      try (destruct (svelte_compile host _ _));
      split; reflexivity.
Qed.

(** X4.  Loads overlap: a call of [onLoad] pushes its stat when it runs
    on from its last [await], after whatever other calls did meanwhile.
    For a pass that starts while no load is suspended, at a moment of
    the pass when no load is suspended the stats hold the files of the
    loads of the pass that returned code, each once and no other file,
    in an order that is the one of the completions and not the one of
    the calls: loads that failed, stats of earlier passes and [onEnd]
    calls leave no entry. *)
Theorem stats_of_the_pass (before pass : list Loads.LoadEvent) :
  Loads.quiescent (Loads.run_loads host options ssr before) = true ->
  Loads.within_pass pass = true ->
  Loads.quiescent
    (Loads.run_loads host options ssr (before ++ Loads.Started :: pass))
  = true ->
  Permutation
    (List.map filename
       (stats (Loads.closure
                 (Loads.run_loads host options ssr
                    (before ++ Loads.Started :: pass)))))
    (filter (load_succeeds host options ssr) (Loads.begun pass)).
Proof.
  unfold Loads.run_loads, Loads.quiescent. rewrite fold_left_app.
  cbn [fold_left].
  set (sys0 := fold_left (Loads.load_step host options ssr) before _).
  intros Hbefore Hpass Hafter.
  pose proof (fold_load_step_expected pass Hpass
                (Loads.load_step host options ssr sys0 Loads.Started))
    as Hperm.
  unfold Loads.expected in Hperm at 1.
  rewrite (settled_going _ Hafter), app_nil_r in Hperm.
  unfold Loads.expected in Hperm.
  cbn [Loads.load_step Loads.closure Loads.loads onStart snd stats List.map]
    in Hperm.
  rewrite (settled_going _ Hbefore) in Hperm. exact Hperm.
Qed.

(** ** Failures before the compiler runs *)

(** X5.  When a preprocessor is configured and preprocessing the file
    throws, [onLoad] answers with the error made from the thrown one
    with its message replaced by [Error while preprocessing <file>],
    followed by [ - ] and the old message when there was one.  Nothing
    else happens after the progress call: no timestamp is taken, the
    compiler is not run, the stats are as they were. *)
Theorem preprocess_failure_is_annotated
    (file code : string) (group : PreprocessorGroup) (e : JsError)
    (s : State) :
  readFileSync host file = Ok code ->
  preprocess options = Some group ->
  svelte_preprocess host code group file = Throw e ->
  onLoad host options ssr file s
  = (Ok (Errors [toESBuildError host (preprocessing_error file e) options]),
     snd (logProgress host ssr false s))
  /\ kind (preprocessing_error file e) = kind e
  /\ message (preprocessing_error file e)
     = Some ("Error while preprocessing " +++ file
             +++ match message e with
                 | Some "" | None => ""
                 | Some m => " - " +++ m
                 end).
Proof.
  intros Hread Hpre Hthrow. split; [|split].
  - rewrite EsbuildFacts.onLoad_unfold. cbv zeta. rewrite Hread.
    unfold compileSvelte, bind, try_catch, call, throw.
    rewrite Hpre, Hthrow. reflexivity.
  - reflexivity.
  - unfold preprocessing_error. simpl.
    destruct (message e) as [[|c m]|]; reflexivity.
Qed.

(** ** The options of the compiler *)

Ltac other_key := rewrite ObjFacts.get_set_other by discriminate.

Lemma base_fixed_fields file :
  fixed_fields host options ssr file
    (base_compileOptions host options ssr file).
Proof.
  unfold fixed_fields, base_compileOptions.
  split; [|split; [|split; [|split]]].
  - do 2 other_key. apply ObjFacts.get_set_same.
  - other_key. apply ObjFacts.get_set_same.
  - apply ObjFacts.get_set_same.
  - do 3 other_key. rewrite ObjFacts.get_set_same. unfold css_option.
    destruct (Obj.get "css" (compilerOptions options)) as [[c| | |]|];
      try reflexivity.
    destruct (String.eqb c "none"); reflexivity.
  - intros k Hk. unfold fixed_keys in Hk. simpl in Hk.
    repeat rewrite ObjFacts.get_set_other by (intros <-; tauto).
    reflexivity.
Qed.

Lemma sourcemap_fixed_fields file v :
  fixed_fields host options ssr file
    (Obj.set "sourcemap" v (base_compileOptions host options ssr file)).
Proof.
  destruct (base_fixed_fields file) as (H1 & H2 & H3 & H4 & H5).
  unfold fixed_fields. split; [|split; [|split; [|split]]].
  - other_key. exact H1.
  - other_key. exact H2.
  - other_key. exact H3.
  - destruct (match Obj.get "css" (compilerOptions options) with
              | Some (VString c) => String.eqb c "none"
              | _ => false
              end); other_key; exact H4.
  - intros k Hk. rewrite ObjFacts.get_set_other.
    + apply H5. exact Hk.
    + intros <-. apply Hk. unfold fixed_keys. simpl. tauto.
Qed.

(** X6.  When [compileSvelte] returns, the compiler was run on the
    preprocessed code, or on the source when no preprocessor is
    configured, with options in which [filename], [format: 'esm'],
    [generate] and [css] are set by [compileSvelte] and cannot be chosen
    through [options.compilerOptions]; the source map of the
    preprocessor is passed as [sourcemap].  The options returned by the
    [dynamicCompileOptions] hook, which is called with these options,
    are spread over them: a field of the hook's answer wins. *)
Theorem compiler_is_run_with_fixed_fields {S : Type}
    (take : string -> M S unit) (debug : string -> M S unit)
    (file code : string) (s s' : S) (out : string) :
  compileSvelte host options ssr take debug file code s = (Ok out, s') ->
  exists finalCode base dynamic compiled,
    svelte_compile host finalCode
      (match dynamic with
       | Some d => Obj.spread base d
       | None => base
       end) = Ok compiled
    /\ fixed_fields host options ssr file base
    /\ match preprocess options with
       | None => finalCode = code
       | Some group =>
           exists p,
             svelte_preprocess host code group file = Ok p
             /\ finalCode = pcode p
             /\ match pmap p with
                | Some m => Obj.get "sourcemap" base = Some (VSourceMap m)
                | None => True
                end
       end
    /\ match dynamicCompileOptions options with
       | Some hook =>
           hook {| dyn_filename := file; dyn_code := finalCode;
                   dyn_compileOptions := base |} = Ok dynamic
       | None => dynamic = None
       end
    /\ forall d k,
        dynamic = Some d ->
        NoDup (List.map fst d) ->
        Obj.get k (Obj.spread base d)
        = match Obj.get k d with
          | Some v => Some v
          | None => Obj.get k base
          end.
Proof.
  unfold compileSvelte, bind, ret, call, throw, try_catch. intros H.
  EsbuildFacts.break_all.
  all: match goal with
       | Hc : svelte_compile host ?c (Obj.spread ?b ?d) = Ok ?x |- _ =>
           exists c, b, (Some d), x; split; [exact Hc|]
       | Hc : svelte_compile host ?c ?b = Ok ?x |- _ =>
           exists c, b, None, x; split; [exact Hc|]
       end.
  all: split; [first [apply sourcemap_fixed_fields | apply base_fixed_fields]|].
  all: split;
    [first [reflexivity
           | eexists; split; [reflexivity|]; split; [reflexivity|];
             simpl; first [exact I | apply ObjFacts.get_set_same]]|].
  all: split; [first [eassumption | reflexivity]|].
  all: intros d k _ Hnd; apply ObjMore.get_spread; exact Hnd.
Qed.

(** ** The packages of the stats *)

Lemma nth_error_set_packagename_same i n (l : list FileStat) :
  nth_error (set_packagename i n l) i = option_map (named n) (nth_error l i).
Proof.
  revert i. induction l as [|st l IH]; intros [|i]; simpl;
    try reflexivity. apply IH.
Qed.

(** A settled lookup, by the name that the manifest declares. *)
Lemma resolve_settled_declared i file packages s :
  exists packages',
    resolve_settled host i (findClosestPkgJsonPath host file) (packages, s)
    = (match declared_name host file with
       | Some (Throw e) => Throw e
       | _ => Ok tt
       end,
       (packages',
        match declared_name host file with
        | Some (Ok n) => with_stats (set_packagename i n) s
        | _ => s
        end)).
Proof.
  unfold resolve_settled, declared_name.
  destruct (findClosestPkgJsonPath host file) as [p|];
    [|exists packages; reflexivity].
  destruct (String.eqb p ""); [exists packages; reflexivity|].
  destruct (readFileSync host p) as [manifest|e];
    [|exists packages; reflexivity].
  destruct (JSON_parse_name host manifest) as [n|e];
    [|exists packages; reflexivity].
  eexists. reflexivity.
Qed.

Lemma resolve_settled_attributes orig j file st0 r :
  nth_error orig j = Some st0 ->
  filename st0 = file ->
  partly_attributed host orig (stats (snd r)) ->
  let cur1 :=
    stats (snd (snd (resolve_settled host j
                       (findClosestPkgJsonPath host file) r))) in
  nth_error cur1 j = Some (attributed host st0)
  /\ forall i, i <> j -> nth_error cur1 i = nth_error (stats (snd r)) i.
Proof.
  intros Hj Hfile Hinv. destruct r as [packages s]. cbv zeta.
  destruct (resolve_settled_declared j file packages s) as [packages' ->].
  simpl. specialize (Hinv j) as Hcur. simpl in Hcur. rewrite Hj in Hcur.
  simpl in Hcur. unfold attributed in *. rewrite Hfile in *.
  destruct (declared_name host file) as [[n|e]|]; simpl.
  - split.
    + rewrite nth_error_set_packagename_same.
      destruct Hcur as [-> | ->]; reflexivity.
    + intros i Hne. apply EsbuildFacts.nth_error_set_packagename_other.
      exact Hne.
  - split; [destruct Hcur as [-> | ->]; reflexivity | reflexivity].
  - split; [destruct Hcur as [-> | ->]; reflexivity | reflexivity].
Qed.

Lemma settle_all_attributes orig l :
  (forall j file, In (j, file) l ->
     exists st0, nth_error orig j = Some st0 /\ filename st0 = file) ->
  forall r,
    partly_attributed host orig (stats (snd r)) ->
    partly_attributed host orig (stats (snd (snd (settle_all host l r))))
    /\ forall i,
        In i (List.map fst l)
        \/ nth_error (stats (snd r)) i
           = option_map (attributed host) (nth_error orig i) ->
        nth_error (stats (snd (snd (settle_all host l r)))) i
        = option_map (attributed host) (nth_error orig i).
Proof.
  induction l as [|[j file] l IH]; intros Hl r Hinv.
  - simpl. split; [exact Hinv|]. intros i [[]|H]. exact H.
  - destruct (Hl j file (or_introl eq_refl)) as (st0 & Hj & Hfile).
    pose proof (resolve_settled_attributes orig j file st0 r Hj Hfile Hinv)
      as [Hsame Hother]. cbv zeta in Hsame, Hother.
    simpl.
    destruct (resolve_settled host j (findClosestPkgJsonPath host file) r)
      as [res r1] eqn:Hr. simpl in Hsame, Hother.
    assert (Hinv1 : partly_attributed host orig (stats (snd r1))).
    { intros i. destruct (Nat.eq_dec i j) as [->|Hne].
      - right. rewrite Hsame, Hj. reflexivity.
      - rewrite (Hother i Hne). apply Hinv. }
    destruct (IH (fun j' f' H => Hl j' f' (or_intror H)) r1 Hinv1)
      as [Hfinal Hdone].
    destruct (settle_all host l r1) as [err r2]. simpl in *.
    split; [exact Hfinal|]. intros i Hi. apply Hdone.
    destruct (Nat.eq_dec i j) as [->|Hne].
    + right. rewrite Hsame, Hj. reflexivity.
    + destruct Hi as [[Heq|Hin]|Hcur].
      * exfalso. auto.
      * left. exact Hin.
      * right. rewrite (Hother i Hne). exact Hcur.
Qed.

Lemma settle_all_rejects l :
  forall r,
    (exists e, fst (settle_all host l r) = Some e)
    <-> exists p, In p l
                  /\ exists e, declared_name host (snd p) = Some (Throw e).
Proof.
  induction l as [|[j file] l IH]; intros r; simpl.
  - split; [intros [e H]; discriminate | intros (p & [] & _)].
  - destruct r as [packages s].
    destruct (resolve_settled_declared j file packages s) as [packages' ->].
    specialize (IH (packages',
                    match declared_name host file with
                    | Some (Ok n) => with_stats (set_packagename j n) s
                    | _ => s
                    end)).
    destruct (settle_all host l _) as [err r2]. simpl in *.
    destruct (declared_name host file) as [[n|e]|] eqn:Hd.
    + rewrite IH. split.
      * intros (p & Hp & He). exists p. auto.
      * intros (p & [<-|Hp] & e & He); [simpl in He; congruence|].
        exists p. eauto.
    + split; [|intros _; exists e; reflexivity].
      intros _. exists (j, file). split; [left; reflexivity|].
      exists e. exact Hd.
    + rewrite IH. split.
      * intros (p & Hp & He). exists p. auto.
      * intros (p & [<-|Hp] & e & He); [simpl in He; congruence|].
        exists p. eauto.
Qed.

Lemma in_settlement_all order pending p :
  In p pending -> In p (settlement order pending).
Proof.
  intros Hin. unfold settlement. apply in_or_app.
  destruct (existsb (Nat.eqb (fst p))
              (nodup Nat.eq_dec (filter (is_pending pending) order)))
    eqn:Hc.
  - left. apply existsb_exists in Hc. destruct Hc as (i & Hi & Heq).
    apply in_flat_map. exists i. split; [exact Hi|].
    apply filter_In. split; [exact Hin | exact Heq].
  - right. apply filter_In. split; [exact Hin|]. rewrite Hc. reflexivity.
Qed.

Lemma combine_seq_in (l : list FileStat) i st :
  forall i0,
    nth_error l i = Some st ->
    In (i0 + i, filename st)
       (combine (seq i0 (List.length l)) (List.map filename l)).
Proof.
  revert i. induction l as [|st0 l IH]; intros [|i] i0 Hnth;
    simpl in Hnth; try discriminate.
  - injection Hnth as <-. left. rewrite Nat.add_0_r. reflexivity.
  - right. replace (i0 + S i) with (S i0 + i) by lia. apply IH. exact Hnth.
Qed.

(** The package names that [logStats] writes into the stats do not
    depend on the order in which the lookups settle, and neither does
    whether the [Promise.all] rejects. *)
Lemma resolve_packages_attributes (order : list nat) (s : State) :
  stats (snd (resolve_packages host order s))
  = List.map (attributed host) (stats s)
  /\ ((exists e, fst (resolve_packages host order s) = Throw e)
      <-> exists st, In st (stats s) /\ manifest_fails host st = true).
Proof.
  unfold resolve_packages. rewrite EsbuildFacts.start_all_unresolved.
  set (pending := combine (seq 0 (List.length (stats s)))
                    (List.map filename (stats s))).
  set (r := (@nil Package,
             fold_left (fun s f => log_lookup f s)
               (List.map filename (stats s)) s)).
  assert (Hpending : forall j file,
             In (j, file) (settlement order pending) ->
             exists st0, nth_error (stats s) j = Some st0
                         /\ filename st0 = file).
  { intros j file Hin. apply EsbuildFacts.in_settlement in Hin.
    destruct (EsbuildFacts.in_combine_seq _ _ _ _ Hin)
      as (st & Hst & Hfile & _).
    rewrite Nat.sub_0_r in Hst. exists st. auto. }
  assert (Hstart : stats (snd r) = stats s)
    by (apply EsbuildFacts.stats_fold_log).
  assert (Hinv : partly_attributed host (stats s) (stats (snd r)))
    by (intros i; left; rewrite Hstart; reflexivity).
  pose proof (settle_all_attributes (stats s) _ Hpending r Hinv)
    as [Hfinal Hdone].
  pose proof (settle_all_rejects (settlement order pending) r) as Hrej.
  destruct (settle_all host (settlement order pending) r)
    as [err [pk s']]. simpl in Hfinal, Hdone, Hrej.
  split.
  - assert (Hs' : stats s' = List.map (attributed host) (stats s)).
    { apply nth_error_ext. intros i. rewrite nth_error_map.
      destruct (nth_error (stats s) i) as [st|] eqn:Hi.
      - rewrite <- Hi. apply Hdone. left.
        apply in_map_iff. exists (i, filename st). split; [reflexivity|].
        apply in_settlement_all.
        apply (combine_seq_in (stats s) i st 0 Hi).
      - destruct (Hfinal i) as [H|H]; rewrite H, Hi; reflexivity. }
    destruct err; exact Hs'.
  - assert (Hiff : (exists e, err = Some e)
                   <-> exists st, In st (stats s)
                                  /\ manifest_fails host st = true).
    { rewrite Hrej. unfold manifest_fails. split.
      - intros ([j file] & Hin & e & He). simpl in He.
        destruct (Hpending j file Hin) as (st & Hst & Hfile).
        exists st. split; [eapply nth_error_In; exact Hst|].
        rewrite Hfile, He. reflexivity.
      - intros (st & Hin & Hfail).
        apply In_nth_error in Hin. destruct Hin as [i Hi].
        exists (i, filename st). split.
        + apply in_settlement_all.
          apply (combine_seq_in (stats s) i st 0 Hi).
        + simpl. destruct (declared_name host (filename st)) as [[n|e]|];
            try discriminate. exists e. reflexivity. }
    rewrite <- Hiff. destruct err as [e|]; simpl.
    + split; intros _; eexists; reflexivity.
    + split; intros [e H]; discriminate.
Qed.

(** ** The order of the groups *)

Lemma insert_sorted_stable c x acc :
  descending acc ->
  filter (counts c) (insert_sorted by_count x acc)
  = filter (counts c) acc ++ (if counts c x then [x] else []).
Proof.
  unfold descending. induction acc as [|y acc IH]; intros Hs; simpl.
  - destruct (counts c x); reflexivity.
  - inversion Hs as [|? ? Hacc Hy]; subst. unfold by_count at 1.
    destruct (Z.ltb_spec (Z.of_nat (count y) - Z.of_nat (count x)) 0)
      as [Hlt|Hge].
    + cbn [filter]. destruct (counts c x) eqn:Ex.
      * assert (Hnone : filter (counts c) (y :: acc) = []).
        { apply ObjMore.filter_none. unfold counts in *.
          apply Nat.eqb_eq in Ex. intros z [<-|Hz]; apply Nat.eqb_neq.
          - lia.
          - rewrite Forall_forall in Hy. specialize (Hy z Hz). lia. }
        cbn [filter] in Hnone. rewrite Hnone. reflexivity.
      * rewrite app_nil_r. reflexivity.
    + cbn [filter]. rewrite (IH Hacc).
      destruct (counts c y); reflexivity.
Qed.

Lemma insert_by_count_descending x acc :
  descending acc -> descending (insert_sorted by_count x acc).
Proof.
  apply ObjFacts.insert_sorted_sorted; unfold by_count.
  - intros a b c. lia.
  - intros a b H. apply Z.ltb_lt in H. lia.
  - intros a b H. apply Z.ltb_ge in H. lia.
Qed.

(** The sort of the groups never swaps two groups of the same count. *)
Lemma sort_by_count_stable c l :
  filter (counts c) (sort by_count l) = filter (counts c) l.
Proof.
  unfold sort.
  assert (H : forall acc,
             descending acc ->
             filter (counts c)
               (fold_left (fun acc x => insert_sorted by_count x acc) l acc)
             = filter (counts c) acc ++ filter (counts c) l).
  { induction l as [|x l IH]; intros acc Hacc; simpl.
    - symmetry. apply app_nil_r.
    - rewrite (IH _ (insert_by_count_descending x acc Hacc)).
      rewrite (insert_sorted_stable c x acc Hacc), <- app_assoc.
      destruct (counts c x); reflexivity. }
  apply (H []). constructor.
Qed.

(** When no package is called like a member of [Object.prototype],
    every stat gets a group. *)
Lemma filter_counted_all (l : list FileStat) :
  (forall st, In st l -> inherited (key_of st) = false) ->
  filter counted l = l.
Proof.
  intros Hall. apply ObjMore.filter_all_in. intros st Hst.
  unfold counted. rewrite (Hall st Hst). reflexivity.
Qed.

Lemma group_stats_key_order l :
  forall grouped grouped',
    own_only grouped ->
    group_stats l grouped = Ok grouped' ->
    List.map fst grouped'
    = List.map fst grouped
        ++ filter (fun k => negb (existsb (String.eqb k) (List.map fst grouped)))
             (first_seen (List.map key_of (filter counted l))).
Proof.
  induction l as [|st l IH]; intros grouped grouped' Hown H; simpl in H.
  - injection H as <-. symmetry. apply app_nil_r.
  - destruct (group_stat grouped st) as [g1|e] eqn:H1; [|discriminate].
    destruct (EsbuildFacts.group_stat_ok _ _ _ Hown H1)
      as (d & _ & Hown1 & Hg1).
    cbn [filter]. destruct (counted st); subst g1;
      [|exact (IH _ _ Hown1 H)].
    cbn [List.map first_seen filter].
    rewrite (IH _ _ Hown1 H), ObjMore.keys_set_order.
    destruct (existsb (String.eqb (key_of st)) (List.map fst grouped))
      eqn:Hin; simpl.
    + f_equal. rewrite ObjMore.filter_twice. apply filter_ext. intros k.
      destruct (String.eqb_spec k (key_of st)) as [->|Hne];
        [rewrite Hin|]; reflexivity.
    + rewrite <- app_assoc. simpl. f_equal. f_equal.
      rewrite ObjMore.filter_twice. apply filter_ext. intros k.
      rewrite existsb_app. simpl.
      destruct (String.eqb k (key_of st)),
        (existsb (String.eqb k) (List.map fst grouped)); reflexivity.
Qed.

(** The stats of a package that is not called like a member of
    [Object.prototype] all get a group. *)
Lemma of_package_counted k (l : list FileStat) :
  inherited k = false -> of_package k (filter counted l) = of_package k l.
Proof.
  intros Hk. unfold of_package. induction l as [|st l IH]; [reflexivity|].
  cbn [filter]. destruct (String.eqb_spec (key_of st) k) as [Heq|Hne].
  - unfold counted at 1. rewrite Heq, Hk. cbn [negb filter].
    rewrite Heq, String.eqb_refl, IH. reflexivity.
  - destruct (counted st); cbn [filter];
      [destruct (String.eqb_spec (key_of st) k); [contradiction|]|];
      exact IH.
Qed.

Lemma keys_of_values (l : list FileStat) (c : nat)
    (grouped : Obj.t PackageStats) :
  (forall k g, In (k, g) grouped ->
     group_key g = k /\ count g = List.length (of_package k l)) ->
  List.map group_key (filter (counts c) (List.map snd grouped))
  = filter (fun k => Nat.eqb (List.length (of_package k l)) c)
      (List.map fst grouped).
Proof.
  induction grouped as [|[k g] grouped IH]; intros H; simpl; [reflexivity|].
  destruct (H k g (or_introl eq_refl)) as [Hk Hc].
  unfold counts at 1. rewrite Hc.
  destruct (Nat.eqb (List.length (of_package k l)) c); simpl.
  - rewrite Hk. f_equal. apply IH. intros k' g' Hin. apply H. right. exact Hin.
  - apply IH. intros k' g' Hin. apply H. right. exact Hin.
Qed.

(** X8.  Among the groups of the report, those with the same number of
    files stand in the order in which their packages first occur among
    the stats that get a group, which are the stats whose package is not
    called like a member of [Object.prototype]: the sort by count is
    stable and [Object.values] lists the groups in insertion order.
    This holds when no package key is an array index, which
    [Object.values] would list first. *)
Theorem ties_keep_first_occurrence (l : list FileStat)
    (groups : list PackageStats) :
  sorted_groups l = Ok groups ->
  (forall st, In st l -> Obj.array_index (key_of st) = None) ->
  forall c,
    List.map group_key (filter (counts c) groups)
    = filter (fun k => Nat.eqb (List.length (of_package k l)) c)
        (first_seen (List.map key_of (filter counted l))).
Proof.
  unfold sorted_groups.
  destruct (group_stats l []) as [grouped|e] eqn:Hg; [|discriminate].
  intros H Hplain c. injection H as <-.
  pose proof (group_stats_key_order l [] grouped EsbuildFacts.own_only_nil Hg)
    as Hkeys.
  rewrite ObjMore.filter_all in Hkeys by reflexivity. simpl in Hkeys.
  destruct (EsbuildFacts.group_stats_keys l [] grouped
              EsbuildFacts.own_only_nil Hg (NoDup_nil _))
    as [_ Hmem].
  assert (Hkey : forall k g,
             In (k, g) grouped ->
             exists st, In st l /\ key_of st = k /\ inherited k = false).
  { intros k g Hin.
    assert (Hk : In k (List.map key_of (filter counted l))).
    { destruct (proj1 (Hmem k)) as [[]|Hk]; [|exact Hk].
      apply in_map_iff. exists (k, g). split; [reflexivity | exact Hin]. }
    apply in_map_iff in Hk. destruct Hk as (st & <- & Hst).
    apply filter_In in Hst. destruct Hst as [Hst Hc].
    exists st. split; [exact Hst|]. split; [reflexivity|].
    unfold counted in Hc. apply negb_true_iff in Hc. exact Hc. }
  rewrite sort_by_count_stable, ObjMore.values_plain.
  - rewrite <- Hkeys. apply keys_of_values. intros k g Hin.
    destruct (EsbuildFacts.grouped_entry l grouped k g Hg Hin)
      as (Hk & _ & Hc & _).
    destruct (Hkey k g Hin) as (_ & _ & _ & Hown).
    rewrite (of_package_counted k l Hown) in Hc.
    split; [exact Hk | exact Hc].
  - intros [k g] Hin. simpl.
    destruct (Hkey k g Hin) as (st & Hst & <- & _).
    apply Hplain. exact Hst.
Qed.

(** ** The stats that are counted *)

(** X9.  The file counts of the groups of the report add up to the
    number of stats that get a group, which are the stats whose package
    is not called like a member of [Object.prototype], and no group is
    empty: every such stat is counted in exactly one group.  When no
    package is called like that, the counts add up to the number of
    stats. *)
Theorem grouped_stats_are_counted_once (l : list FileStat)
    (groups : list PackageStats) :
  sorted_groups l = Ok groups ->
  list_sum (List.map count groups) = List.length (filter counted l)
  /\ (forall g, In g groups -> 1 <= count g)
  /\ ((forall st, In st l -> inherited (key_of st) = false) ->
      list_sum (List.map count groups) = List.length l).
Proof.
  intros Hs.
  destruct (EsbuildFacts.sorted_groups_report l groups Hs)
    as (_ & Hkeys & _ & Hcount & _).
  split; [exact (EsbuildFacts.counts_of_groups l groups Hs)|]. split.
  - intros g Hg. rewrite (proj1 (Hcount g Hg)).
    assert (Hk : In (property_key (name g))
                   (List.map key_of (filter counted l))).
    { apply Hkeys. apply in_map_iff. exists g. auto. }
    destruct (EsbuildFacts.of_package_nonempty _ _ Hk) as (st & sts & -> & _).
    simpl. lia.
  - intros Hall. rewrite (EsbuildFacts.counts_of_groups l groups Hs).
    rewrite (filter_counted_all l Hall). reflexivity.
Qed.

(** ** The groups of packages *)

Lemma returned_measured st d :
  compile_timed st -> returned st d -> measured st d.
Proof.
  intros Hst Hd. destruct (EsbuildFacts.duration_of_timed st Hst)
    as (a & b & Hts & Hdur).
  unfold returned, compile_duration in Hd. rewrite Hdur in Hd.
  injection Hd as <-. exists a, b. split; [exact Hts | reflexivity].
Qed.

Lemma Forall2_impl_in {A B} (P Q : A -> B -> Prop) (xs : list A)
    (ys : list B) :
  (forall x y, In x xs -> P x y -> Q x y) ->
  Forall2 P xs ys -> Forall2 Q xs ys.
Proof.
  intros HPQ H. induction H as [|x y xs ys Hxy _ IH]; constructor.
  - apply HPQ; [left; reflexivity | exact Hxy].
  - apply IH. intros x' y' Hin. apply HPQ. right. exact Hin.
Qed.

Lemma grouped_with_impl (P Q : FileStat -> num -> Prop)
    (l : list FileStat) (groups : list PackageStats) :
  (forall st d, In st l -> P st d -> Q st d) ->
  grouped_with P l groups -> grouped_with Q l groups.
Proof.
  intros HPQ (H1 & H2 & H3 & H4 & H5 & H6 & H7).
  split; [exact H1|]. split; [exact H2|]. split; [exact H3|].
  split; [|split; [exact H5|]; split; [exact H6 | exact H7]].
  intros g Hg. destruct (H4 g Hg) as (Hcount & ds & Hds & Htime).
  cbv zeta. split; [exact Hcount|]. exists ds. split; [|exact Htime].
  apply (Forall2_impl_in P Q _ ds); [|exact Hds].
  intros st d Hst. apply HPQ. apply filter_In in Hst. exact (proj1 Hst).
Qed.

(** X18.  For the stats of a pass, which all carry the two timestamps,
    when no package is called like a member of [Object.prototype]: the
    groups of the report are computed; there is one group per package of
    the stats, named after it; the count of a group is the number of
    stats of its package and its time is the sum, added in the order of
    the stats, of the differences between the clock reading after and
    the clock reading before each compilation; the groups come in
    descending order of their counts; the table has the header row and
    one row per package; and the row of a group shows its name, its
    count, its time and its time divided by its count. *)
Theorem packages_are_grouped (l : list FileStat) :
  Forall compile_timed l ->
  (forall st, In st l -> inherited (key_of st) = false) ->
  exists groups,
    sorted_groups l = Ok groups /\ grouped_report l groups.
Proof.
  intros Htimed Hall.
  destruct (EsbuildFacts.sorted_groups_total l Htimed) as [groups Hs].
  exists groups. split; [exact Hs|].
  pose proof (EsbuildFacts.sorted_groups_report l groups Hs) as Hr.
  rewrite (filter_counted_all l Hall) in Hr.
  apply (grouped_with_impl returned measured l groups); [|exact Hr].
  intros st d Hst. apply returned_measured.
  rewrite Forall_forall in Htimed. apply Htimed. exact Hst.
Qed.

(** ** The shape of the table *)

Lemma length_join4 sep a b c d :
  String.length (JsString.join sep [a; b; c; d])
  = String.length a + String.length b + String.length c + String.length d
    + 3 * String.length sep.
Proof.
  cbn [JsString.join]. rewrite !JsStringFacts.length_append. lia.
Qed.

Lemma report_rows_four groups row :
  In row (report_rows groups) -> exists a b c d, row = [a; b; c; d].
Proof.
  unfold report_rows. intros [<-|Hin].
  - do 4 eexists. reflexivity.
  - apply in_map_iff in Hin. destruct Hin as (g & <- & _).
    do 4 eexists. reflexivity.
Qed.

(** The report of stats that all have a package and both timestamps is
    rendered. *)
Lemma report_rendered (l : list FileStat) :
  Forall compile_timed l ->
  (forall st, In st l -> packagename st <> None) ->
  exists table, report l = Ok table.
Proof.
  intros Htimed Hnamed.
  destruct (EsbuildFacts.group_stats_total l Htimed []) as [grouped Hg].
  assert (Hs : sorted_groups l = Ok (sort by_count (Obj.values grouped))).
  { unfold sorted_groups. rewrite Hg. reflexivity. }
  exists (aligned_table (report_rows (sort by_count (Obj.values grouped)))).
  unfold report. rewrite Hs. apply EsbuildFacts.render_report_rows.
  intros g Hin Hnone.
  destruct (EsbuildFacts.sorted_groups_report l _ Hs) as (_ & _ & Hnames & _).
  destruct (Hnames g Hin) as (st & Hst & Hname).
  apply filter_In in Hst. apply (Hnamed st (proj1 Hst)). congruence.
Qed.

(** X10.  A rendered report is a rectangle: it has the header line and
    one line per group, joined by newlines with none after the last, and
    every line has the same length, the widths of the four columns and
    three tabs. *)
Theorem table_is_rectangular (l : list FileStat) (table : string) :
  report l = Ok table ->
  exists groups lines,
    sorted_groups l = Ok groups
    /\ table = JsString.join (String "010" "") lines
    /\ List.length lines = S (List.length groups)
    /\ forall line, In line lines ->
         String.length line = table_width (report_rows groups).
Proof.
  unfold report.
  destruct (sorted_groups l) as [groups|e]; [|discriminate].
  intros Hrender.
  assert (Hall : forall g, In g groups -> name g <> None).
  { intros g Hin Hnone.
    rewrite EsbuildFacts.render_table_undefined_name in Hrender;
      [discriminate|].
    rewrite <- Hnone. apply in_map. exact Hin. }
  rewrite (EsbuildFacts.render_report_rows groups Hall) in Hrender.
  injection Hrender as <-.
  exists groups.
  exists (List.map (fun row => JsString.join (String "009" "")
                                 (aligned_from (report_rows groups) 0 row))
            (report_rows groups)).
  split; [reflexivity|]. split; [reflexivity|]. split.
  - rewrite length_map. unfold report_rows. simpl. rewrite length_map.
    reflexivity.
  - intros line Hin. apply in_map_iff in Hin.
    destruct Hin as (row & <- & Hrow).
    destruct (report_rows_four groups row Hrow) as (a & b & c & d & ->).
    cbn [aligned_from]. rewrite length_join4.
    rewrite (EsbuildFacts.aligned_cell_length _ _ 0 a Hrow eq_refl),
      (EsbuildFacts.aligned_cell_length _ _ 1 b Hrow eq_refl),
      (EsbuildFacts.aligned_cell_length _ _ 2 c Hrow eq_refl),
      (EsbuildFacts.aligned_cell_length _ _ 3 d Hrow eq_refl).
    unfold table_width. simpl. lia.
Qed.

(** ** What a load writes *)

Lemma compileSvelte_output file code tsl s r tsl' s' :
  compileSvelte host options ssr (takeTimestamp host) log_debug
    file code (tsl, s) = (r, (tsl', s')) ->
  exists debug,
    output s' = output s ++ debug
    /\ (debug = []
        \/ (log_debug_enabled host = true
            /\ exists hook args d,
                dynamicCompileOptions options = Some hook
                /\ hook args = Ok (Some d)
                /\ dyn_filename args = file
                /\ debug
                   = [Debug ("dynamic compile options for  " +++ file
                             +++ ": " +++ JSON_stringify host d)])).
Proof.
  unfold compileSvelte, bind, ret, call, throw, try_catch,
    takeTimestamp, log_debug, now, log_entry.
  intros H. EsbuildFacts.break_all.
  all: simpl.
  all: first
         [ exists []; split; [rewrite app_nil_r; reflexivity | left; reflexivity]
         | eexists; split; [reflexivity|]; right; split; [reflexivity|];
           do 3 eexists; split; [reflexivity|]; split; [eassumption|];
           split; reflexivity ].
Qed.

(** X15.  A load writes to the log the progress line of its clock
    reading when one is due, which is never a done line, and then at
    most one debug line, the one with the options that the
    [dynamicCompileOptions] hook returned, and that only when debug
    logging is enabled.  It never writes the report and never looks a
    manifest up. *)
Theorem onLoad_writes (file : string) (s : State) :
  let t := performance_now host (ticks s) in
  exists debug,
    output (snd (onLoad host options ssr file s))
    = output s
        ++ (if progress_due t s
            then [InfoProgress (progress_line ssr t false s) false]
            else [])
        ++ debug
    /\ (debug = []
        \/ (log_debug_enabled host = true
            /\ exists hook args d,
                dynamicCompileOptions options = Some hook
                /\ hook args = Ok (Some d)
                /\ dyn_filename args = file
                /\ debug
                   = [Debug ("dynamic compile options for  " +++ file
                             +++ ": " +++ JSON_stringify host d)]))
    /\ lookups (snd (onLoad host options ssr file s)) = lookups s.
Proof.
  cbv zeta. rewrite EsbuildFacts.onLoad_unfold. cbv zeta.
  pose proof (EsbuildFacts.logProgress_closure host ssr false s)
    as (_ & _ & Hlook1).
  assert (Hout1 :
            output (snd (logProgress host ssr false s))
            = output s
                ++ (if progress_due (performance_now host (ticks s)) s
                    then [InfoProgress
                            (progress_line ssr
                               (performance_now host (ticks s)) false s)
                            false]
                    else [])).
  { rewrite EsbuildFacts.logProgress_unfold. cbv zeta.
    cbn [snd orb].
    destruct (progress_due (performance_now host (ticks s)) s);
      cbn [output]; [reflexivity | symmetry; apply app_nil_r]. }
  destruct (readFileSync host file) as [code|e].
  - destruct (compileSvelte host options ssr (takeTimestamp host) log_debug
                file code ([], snd (logProgress host ssr false s)))
      as [r [tsl s2]] eqn:Hc.
    destruct (compileSvelte_output _ _ _ _ _ _ _ Hc)
      as (debug & Hout2 & Hdebug).
    destruct (EsbuildFacts.compileSvelte_in_onLoad _ _ _ _ _ _ _ _ _ _ Hc)
      as [(_ & _ & Hlook2) _].
    exists debug.
    assert (Hout : output s2
                   = output s
                       ++ (if progress_due (performance_now host (ticks s)) s
                           then [InfoProgress
                                   (progress_line ssr
                                      (performance_now host (ticks s))
                                      false s) false]
                           else [])
                       ++ debug)
      by (rewrite Hout2, Hout1, app_assoc; reflexivity).
    destruct r as [out|e]; simpl;
      (split; [exact Hout|]; split; [exact Hdebug | congruence]).
  - exists []. simpl. rewrite app_nil_r.
    split; [exact Hout1|]. split; [left; reflexivity | exact Hlook1].
Qed.

(** ** A pass that is not reported *)

(** X16.  When a pass consists of one load and the progress check of
    that load comes no more than two seconds after the start, [onEnd]
    does nothing at all: no done line, no lookup of a manifest, no
    report, no reading of the clock.  The number zero is taken not to be
    less than itself. *)
Theorem lone_quick_load_is_not_reported
    (before : list HostEvent) (file : string) (order : list nat) :
  nltb (of_nat 0) (of_nat 0) = false ->
  ngtb (nsub (performance_now host
                (S (ticks (drive host options ssr before))))
             (performance_now host (ticks (drive host options ssr before))))
       (of_nat 2000) = false ->
  drive host options ssr (before ++ [Start; Load file; End order])
  = drive host options ssr (before ++ [Start; Load file]).
Proof.
  intros Hzero Hquick. unfold drive. rewrite !fold_left_app.
  set (s0 := fold_left (handle host options ssr) before (setup_state)).
  fold (drive host options ssr before) in Hquick.
  change (drive host options ssr before) with s0 in Hquick.
  cbn [fold_left handle].
  set (s1 := snd (onStart host s0)).
  assert (Hlast : lastProgressLog (snd (onLoad host options ssr file s1))
                  = of_nat 0).
  { rewrite (proj1 (EsbuildFacts.onLoad_keeps_progress host options ssr
                      file s1)).
    rewrite EsbuildFacts.logProgress_unfold. cbv zeta.
    unfold progress_due. subst s1. cbn [onStart snd lastProgressLog
      bundleStart ticks orb].
    rewrite truthy_zero. unfold progressDelay. rewrite Hquick.
    reflexivity. }
  assert (Hlen : List.length (stats (snd (onLoad host options ssr file s1)))
                 <= 1).
  { destruct (EsbuildFacts.onLoad_stats host options ssr file s1)
      as [-> | (a & b & ->)]; subst s1; simpl; lia. }
  unfold onEnd. rewrite Hlast. unfold ngtb. rewrite Hzero.
  replace (1 <? List.length (stats (snd (onLoad host options ssr file s1))))
    with false by (symmetry; apply Nat.ltb_ge; exact Hlen).
  reflexivity.
Qed.

(** ** The end of a pass *)

Lemma existsb_false_iff {A} (p : A -> bool) (l : list A) :
  existsb p l = false <-> ~ exists x, In x l /\ p x = true.
Proof.
  split.
  - intros H (x & Hin & Hp).
    assert (Ht : existsb p l = true)
      by (apply existsb_exists; exists x; auto).
    congruence.
  - intros H. destruct (existsb p l) eqn:E; [|reflexivity].
    exfalso. apply H. apply existsb_exists in E. exact E.
Qed.

Lemma onEnd_reporting (order : list nat) (s : State) :
  ngtb (lastProgressLog s) (of_nat 0) || (1 <? List.length (stats s)) = true ->
  onEnd host ssr order s
  = logStats host ssr order
      {| stats := stats s; bundleStart := bundleStart s;
         lastProgressLog := performance_now host (ticks s);
         ticks := S (ticks s);
         output := output s
                   ++ [InfoProgress
                         (progress_line ssr
                            (performance_now host (ticks s)) true s)
                         true];
         lookups := lookups s |}.
Proof.
  intros Hreports. unfold onEnd. rewrite Hreports.
  unfold bind at 1. rewrite EsbuildFacts.logProgress_unfold. reflexivity.
Qed.

(** X7.  When [onEnd] reports, that is when a progress line was logged
    in the pass or more than one file was compiled, it writes the done
    line and then resolves the packages: each stat whose closest
    manifest is found, read and parsed gets the name that this manifest
    declares, every other stat is left as it was, whatever the order in
    which the lookups settle.  When the manifest of some stat is found
    but cannot be read or parsed, [onEnd] rejects and writes no table;
    otherwise it writes the table of the resolved stats, or rejects
    with the error of rendering it. *)
Theorem end_of_pass_report (order : list nat) (s : State) :
  ngtb (lastProgressLog s) (of_nat 0) || (1 <? List.length (stats s)) = true ->
  let s' := snd (onEnd host ssr order s) in
  let resolved := List.map (attributed host) (stats s) in
  let done :=
    InfoProgress
      (progress_line ssr (performance_now host (ticks s)) true s) true in
  stats s' = resolved
  /\ if existsb (manifest_fails host) (stats s)
     then (exists e, fst (onEnd host ssr order s) = Throw e)
          /\ output s' = output s ++ [done]
     else match report resolved with
          | Ok table =>
              fst (onEnd host ssr order s) = Ok tt
              /\ output s'
                 = output s
                     ++ [done;
                         Info ("prebundling compile stats - ssr: "
                               +++ JsString.of_bool ssr) table]
          | Throw e =>
              fst (onEnd host ssr order s) = Throw e
              /\ output s' = output s ++ [done]
          end.
Proof.
  intros Hreports. cbv zeta. rewrite (onEnd_reporting order s Hreports).
  set (s1 := {| stats := stats s; bundleStart := bundleStart s;
                lastProgressLog := performance_now host (ticks s);
                ticks := S (ticks s);
                output := output s
                          ++ [InfoProgress
                                (progress_line ssr
                                   (performance_now host (ticks s)) true s)
                                true];
                lookups := lookups s |}).
  unfold logStats, bind.
  pose proof (resolve_packages_attributes order s1) as [Hstats Hrej].
  pose proof (EsbuildFacts.resolve_packages_keeps host
                (fun s2 => output s2 = output s1)
                (fun _ _ _ H => H) (fun _ _ H => H) order s1 eq_refl)
    as Hout.
  change (stats s1) with (stats s) in Hstats, Hrej.
  destruct (resolve_packages host order s1) as [[[]|e] s2];
    cbn [fst snd] in *.
  - assert (Hnone : existsb (manifest_fails host) (stats s) = false).
    { apply existsb_false_iff. intros Hex. apply Hrej in Hex.
      destruct Hex as [e He]. discriminate. }
    rewrite Hnone, Hstats.
    destruct (report (List.map (attributed host) (stats s))) as [table|e];
      cbn [fst snd].
    + split; [exact Hstats|]. split; [reflexivity|].
      unfold log_entry. cbn [output]. rewrite Hout. subst s1. cbn [output].
      rewrite <- app_assoc. reflexivity.
    + split; [exact Hstats|]. split; [reflexivity|]. exact Hout.
  - assert (Hsome : existsb (manifest_fails host) (stats s) = true).
    { apply existsb_exists. apply Hrej. exists e. reflexivity. }
    rewrite Hsome. split; [exact Hstats|].
    split; [exists e; reflexivity | exact Hout].
Qed.

End WithNumber.

(** ** On the sample inputs *)

Import EsbuildSamples MoreSamples.

#[local] Existing Instance QNumber.number.

Lemma duration_between_witness :
  duration three_stamps "compiled" (Some "") = duration three_stamps "compiled" None
  /\ match duration three_stamps "compiled" (Some "read") with
     | Ok d =>
         exists i j a b,
           first_at (labelled "compiled") three_stamps i b
           /\ first_at (labelled "read") three_stamps j a
           /\ d = nsub (ts b) (ts a)
     | Throw e =>
         e = ts_error
         /\ ((forall t, In t three_stamps -> labelled "compiled" t = false)
             \/ (forall t, In t three_stamps -> labelled "read" t = false))
     end.
Proof.
  apply (duration_between three_stamps "compiled" "read"). discriminate.
Defined.

Lemma stats_of_the_pass_witness :
  Permutation
    (List.map filename
       (stats (Loads.closure
                 (Loads.run_loads host options false
                    (earlier_pass ++ Loads.Started :: overlapping_pass)))))
    (filter (load_succeeds host options false)
       (Loads.begun overlapping_pass)).
Proof.
  apply (stats_of_the_pass host options false earlier_pass overlapping_pass);
    reflexivity.
Defined.

(** In [overlapping_pass] the stats are in the order of the
    completions. *)
Lemma overlapping_pass_order :
  List.map filename
    (stats (Loads.closure
              (Loads.run_loads host options false
                 (earlier_pass ++ Loads.Started :: overlapping_pass))))
  = ["/b/Z.svelte"; "/a/X.svelte"]
  /\ filter (load_succeeds host options false) (Loads.begun overlapping_pass)
     = ["/a/X.svelte"; "/b/Z.svelte"].
Proof. split; reflexivity. Qed.

Lemma preprocess_failure_is_annotated_witness :
  fst (onLoad failing_host dynamic_options false "/a/X.svelte" setup_state)
  = Ok (Errors
          [{| text := "Error while preprocessing /a/X.svelte - Unclosed block";
              detail := "CssSyntaxError" |}]).
Proof.
  destruct (preprocess_failure_is_annotated failing_host dynamic_options
              false "/a/X.svelte" "<!-- /a/X.svelte -->" "vitePreprocess"
              {| kind := "CssSyntaxError"; message := Some "Unclosed block" |}
              setup_state eq_refl eq_refl eq_refl) as [Hload _].
  rewrite Hload. reflexivity.
Defined.

Lemma compiler_is_run_with_fixed_fields_witness :
  exists finalCode base dynamic compiled,
    svelte_compile host finalCode
      (match dynamic with
       | Some d => Obj.spread base d
       | None => base
       end) = Ok compiled
    /\ fixed_fields host dynamic_options false "/a/X.svelte" base
    /\ dynamic = Some [("dev", VBool true)].
Proof.
  destruct (compiler_is_run_with_fixed_fields host dynamic_options false
              (@quiet unit) (@quiet unit) "/a/X.svelte" "<p>hi</p>" tt tt
              "export default Component;//# sourceMappingURL=data:application/json;base64,e30="
              eq_refl)
    as (finalCode & base & dynamic & compiled & Hrun & Hfixed & _ & Hhook & _).
  exists finalCode, base, dynamic, compiled.
  split; [exact Hrun|]. split; [exact Hfixed|].
  simpl in Hhook. injection Hhook as <-. reflexivity.
Defined.

Lemma tied_stats_timed : Forall compile_timed tied_stats.
Proof. repeat constructor; eexists; eexists; reflexivity. Defined.

Lemma tied_stats_named :
  forall st, In st tied_stats -> packagename st <> None.
Proof. intros st [<-|[<-|[<-|[<-|[]]]]]; discriminate. Defined.

Lemma tied_stats_sorted :
  exists groups, sorted_groups tied_stats = Ok groups.
Proof.
  destruct (EsbuildFacts.group_stats_total tied_stats tied_stats_timed [])
    as [grouped Hg].
  exists (sort by_count (Obj.values grouped)).
  unfold sorted_groups. rewrite Hg. reflexivity.
Defined.

Lemma ties_keep_first_occurrence_witness :
  exists groups,
    sorted_groups tied_stats = Ok groups
    /\ List.map group_key (filter (counts 1) groups) = ["c"; "pkg-a"].
Proof.
  destruct tied_stats_sorted as [groups Hs]. exists groups.
  split; [exact Hs|].
  rewrite (ties_keep_first_occurrence tied_stats groups Hs).
  - reflexivity.
  - intros st [<-|[<-|[<-|[<-|[]]]]]; reflexivity.
Defined.

Lemma grouped_stats_are_counted_once_witness :
  exists groups,
    sorted_groups tied_stats = Ok groups
    /\ list_sum (List.map count groups) = 4.
Proof.
  destruct tied_stats_sorted as [groups Hs]. exists groups.
  split; [exact Hs|].
  destruct (grouped_stats_are_counted_once tied_stats groups Hs)
    as (Hsum & _ & _).
  exact Hsum.
Defined.

Lemma packages_are_grouped_witness :
  exists groups,
    sorted_groups tied_stats = Ok groups
    /\ grouped_report tied_stats groups.
Proof.
  apply (packages_are_grouped tied_stats).
  - exact tied_stats_timed.
  - intros st [<-|[<-|[<-|[<-|[]]]]]; reflexivity.
Defined.

Lemma table_is_rectangular_witness :
  exists table groups lines,
    report tied_stats = Ok table
    /\ table = JsString.join (String "010" "") lines
    /\ List.length lines = S (List.length groups)
    /\ forall line, In line lines ->
         String.length line = table_width (report_rows groups).
Proof.
  destruct (report_rendered tied_stats tied_stats_timed tied_stats_named)
    as [table Htable].
  destruct (table_is_rectangular tied_stats table Htable)
    as (groups & lines & _ & Hjoin & Hlen & Hwidth).
  exists table, groups, lines. auto.
Defined.

Lemma end_of_pass_report_witness :
  stats (snd (onEnd host false [1; 0] two_files_one_package))
  = List.map (attributed host) (stats two_files_one_package).
Proof.
  assert (Hreports :
            ngtb (lastProgressLog two_files_one_package) (of_nat 0)
            || (1 <? List.length (stats two_files_one_package)) = true)
    by reflexivity.
  pose proof (end_of_pass_report host false [1; 0] two_files_one_package
                Hreports) as H.
  cbv zeta in H. destruct H as [Hstats _]. exact Hstats.
Defined.

Lemma lone_quick_load_is_not_reported_witness :
  drive host options false ([] ++ [Start; Load "/a/X.svelte"; End []])
  = drive host options false ([] ++ [Start; Load "/a/X.svelte"]).
Proof.
  assert (Hzero : nltb (of_nat 0) (of_nat 0) = false) by reflexivity.
  assert (Hquick :
            ngtb (nsub (performance_now host
                          (S (ticks (drive host options false []))))
                       (performance_now host
                          (ticks (drive host options false []))))
                 (of_nat 2000) = false) by reflexivity.
  exact (lone_quick_load_is_not_reported host options false []
           "/a/X.svelte" [] Hzero Hquick).
Defined.


End EsbuildMore.
